(** * gamejs display module (lib/gamejs/display.js)

    A shallow embedding of the display module: the document it works on,
    the module's three globals, and every function of the file, written in
    a small state-and-exception monad so that each definition follows its
    JavaScript source line by line. *)

From Stdlib Require Import List Ascii String ZArith Bool Arith Lia.
Import ListNotations.

Local Open Scope string_scope.
Local Open Scope list_scope.

(** ** JavaScript values *)

(** The values that reach [setMode] as [flags] or as entries of
    [dimensions].  [JNum z] is the number [z], an integer that a double
    holds exactly; NaN, the infinities and fractions are not among the
    values. *)
Inductive jsval :=
| JUndefined
| JNull
| JBool (b : bool)
| JNum (z : Z)
| JStr (s : string).

(** [a === b] *)
Definition strict_eq (a b : jsval) : bool :=
  match a, b with
  | JUndefined, JUndefined => true
  | JNull, JNull => true
  | JBool x, JBool y => Bool.eqb x y
  | JNum x, JNum y => Z.eqb x y
  | JStr x, JStr y => String.eqb x y
  | _, _ => false
  end.

(** [a || b] on values that are either a function object or missing. *)
Definition js_or {A : Type} (a b : option A) : option A :=
  match a with
  | Some _ => a
  | None => b
  end.

(** Truthiness of a value that is an object reference or missing. *)
Definition truthy {A : Type} (a : option A) : bool :=
  match a with
  | Some _ => true
  | None => false
  end.

(** [arr[i]]: reading past the end of an array gives [undefined]. *)
Definition js_index (arr : list jsval) (i : nat) : jsval :=
  nth i arr JUndefined.

(** ** Conversion of a value to a canvas size

    [canvas.width] and [canvas.height] are IDL attributes of type unsigned
    long that reflect a content attribute.  An assignment converts the
    value to a number (ToNumber), takes the integer part modulo 2^32 (NaN
    and the infinities give 0), and keeps the result when it is at most
    2^31 - 1; otherwise the attribute's default is stored. *)

(** White space and line terminators at the start of a list of bytes (a
    string is read as UTF-8): TAB, LF, VT, FF, CR, SP, U+00A0, U+1680,
    U+2000 to U+200A, U+2028, U+2029, U+202F, U+205F, U+3000 and U+FEFF. *)
Definition space_prefix (l : list ascii) : option (list ascii) :=
  let code c := nat_of_ascii c in
  match l with
  | c :: r =>
      if (Nat.leb 9 (code c) && Nat.leb (code c) 13) || Nat.eqb (code c) 32
      then Some r
      else
        match List.map code l with
        | 194 :: 160 :: _ => Some (skipn 2 l)
        | 225 :: 154 :: 128 :: _ => Some (skipn 3 l)
        | 226 :: 128 :: x :: _ =>
            if (Nat.leb 128 x && Nat.leb x 138) || Nat.eqb x 168
               || Nat.eqb x 169 || Nat.eqb x 175
            then Some (skipn 3 l) else None
        | 226 :: 129 :: 159 :: _ => Some (skipn 3 l)
        | 227 :: 128 :: 128 :: _ => Some (skipn 3 l)
        | 239 :: 187 :: 191 :: _ => Some (skipn 3 l)
        | _ => None
        end
  | [] => None
  end.

(** The same at the end of the list, which is given reversed. *)
Definition space_suffix (l : list ascii) : option (list ascii) :=
  let code c := nat_of_ascii c in
  match l with
  | c :: r =>
      if (Nat.leb 9 (code c) && Nat.leb (code c) 13) || Nat.eqb (code c) 32
      then Some r
      else
        match List.map code l with
        | 160 :: 194 :: _ => Some (skipn 2 l)
        | 128 :: 154 :: 225 :: _ => Some (skipn 3 l)
        | x :: 128 :: 226 :: _ =>
            if (Nat.leb 128 x && Nat.leb x 138) || Nat.eqb x 168
               || Nat.eqb x 169 || Nat.eqb x 175
            then Some (skipn 3 l) else None
        | 159 :: 129 :: 226 :: _ => Some (skipn 3 l)
        | 128 :: 128 :: 227 :: _ => Some (skipn 3 l)
        | 191 :: 187 :: 239 :: _ => Some (skipn 3 l)
        | _ => None
        end
  | [] => None
  end.

(** Stripping with [strip] as long as it applies; [fuel] bounds the number
    of steps and is taken as the length of the list. *)
Fixpoint strip_all (strip : list ascii -> option (list ascii)) (fuel : nat)
    (l : list ascii) : list ascii :=
  match fuel with
  | O => l
  | S k =>
      match strip l with
      | Some r => strip_all strip k r
      | None => l
      end
  end.

Definition trim (l : list ascii) : list ascii :=
  let l1 := strip_all space_prefix (List.length l) l in
  rev (strip_all space_suffix (List.length l1) (rev l1)).

Local Open Scope Z_scope.

(** The value of a digit in the given base. *)
Definition digit_value (base : Z) (c : ascii) : option Z :=
  let n := Z.of_nat (nat_of_ascii c) in
  let v := if (48 <=? n) && (n <=? 57) then Some (n - 48)
           else if (97 <=? n) && (n <=? 102) then Some (n - 87)
           else if (65 <=? n) && (n <=? 70) then Some (n - 55)
           else None in
  match v with
  | Some d => if d <? base then Some d else None
  | None => None
  end.

(** The longest prefix of digits, read on from [acc]: the value, the number
    of digits read, and what follows them. *)
Fixpoint digits (base acc len : Z) (l : list ascii) : Z * Z * list ascii :=
  match l with
  | c :: r =>
      match digit_value base c with
      | Some d => digits base (acc * base + d) (len + 1) r
      | None => (acc, len, l)
      end
  | [] => (acc, len, [])
  end.

(** [m * 10^e] as a fraction. *)
Definition scale10 (m e : Z) : Z * Z :=
  if 0 <=? e then (m * 10 ^ e, 1) else (m, 10 ^ (- e)).

(** StrUnsignedDecimalLiteral other than [Infinity], as the fraction it
    denotes: digits with an optional fraction and an optional exponent, at
    least one digit before the exponent. *)
Definition parse_decimal (l : list ascii) : option (Z * Z) :=
  let '(ip, iplen, r1) := digits 10 0 0 l in
  let '(m, fplen, r2) :=
    match r1 with
    | "."%char :: r => digits 10 ip 0 r
    | _ => (ip, 0, r1)
    end in
  if iplen + fplen =? 0 then None
  else
    match r2 with
    | [] => Some (scale10 m (- fplen))
    | c :: r3 =>
        if Ascii.eqb c "e"%char || Ascii.eqb c "E"%char then
          let '(neg, r4) :=
            match r3 with
            | "+"%char :: r => (false, r)
            | "-"%char :: r => (true, r)
            | _ => (false, r3)
            end in
          let '(ev, elen, r5) := digits 10 0 0 r4 in
          match r5 with
          | [] =>
              if elen =? 0 then None
              else Some (scale10 m ((if neg then - ev else ev) - fplen))
          | _ :: _ => None
          end
        else None
    end.

(** A literal with a radix prefix: digits of the base and nothing else. *)
Definition parse_radix (base : Z) (l : list ascii) : option (Z * Z) :=
  let '(v, len, r) := digits base 0 0 l in
  match r with
  | [] => if len =? 0 then None else Some (v, 1)
  | _ :: _ => None
  end.

(** StrUnsignedDecimalLiteral; [Infinity] is given as 0, which is what the
    conversion to an unsigned long makes of it. *)
Definition parse_unsigned (l : list ascii) : option (Z * Z) :=
  if String.eqb (string_of_list_ascii l) "Infinity" then Some (0, 1)
  else parse_decimal l.

(** StringNumericLiteral after trimming: the sign and the absolute value as
    a fraction; [None] is NaN. *)
Definition parse_numeric (l : list ascii) : option (bool * (Z * Z)) :=
  match l with
  | [] => Some (false, (0, 1))
  | "+"%char :: r => option_map (pair false) (parse_unsigned r)
  | "-"%char :: r => option_map (pair true) (parse_unsigned r)
  | "0"%char :: x :: r =>
      if Ascii.eqb x "x"%char || Ascii.eqb x "X"%char
      then option_map (pair false) (parse_radix 16 r)
      else if Ascii.eqb x "o"%char || Ascii.eqb x "O"%char
      then option_map (pair false) (parse_radix 8 r)
      else if Ascii.eqb x "b"%char || Ascii.eqb x "B"%char
      then option_map (pair false) (parse_radix 2 r)
      else option_map (pair false) (parse_unsigned l)
  | _ => option_map (pair false) (parse_unsigned l)
  end.

(** [n / d] rounded to the nearest integer, ties to the even one, for
    [0 <= n] and [0 < d]. *)
Definition round_div (n d : Z) : Z :=
  let q := n / d in
  match 2 * (n mod d) ?= d with
  | Lt => q
  | Gt => q + 1
  | Eq => if Z.even q then q else q + 1
  end.

(** The integer part of the double nearest to [n / d], for [0 <= n] and
    [0 < d]: the fraction is rounded to 53 significant bits.  A value too
    large for a double comes out as a multiple of 2^32, as good as the 0
    that the conversion makes of infinity. *)
Definition double_integer_part (n d : Z) : Z :=
  if n =? 0 then 0
  else
    let scaled k := if 0 <=? k then (n, d * 2 ^ k) else (n * 2 ^ (- k), d) in
    let k0 := Z.log2 n - Z.log2 d - 52 in
    let k := if fst (scaled k0) <? snd (scaled k0) * 2 ^ 52
             then k0 - 1 else k0 in
    let q := round_div (fst (scaled k)) (snd (scaled k)) in
    if 0 <=? k then q * 2 ^ k else q / 2 ^ (- k).

(** The integer part of ToNumber of a string, 0 for NaN and the
    infinities. *)
Definition string_integer_part (s : string) : Z :=
  match parse_numeric (trim (list_ascii_of_string s)) with
  | Some (neg, (n, d)) =>
      if neg then - double_integer_part n d else double_integer_part n d
  | None => 0
  end.

(** The conversion of a value to an unsigned long. *)
Definition to_uint32 (v : jsval) : Z :=
  match v with
  | JUndefined => 0
  | JNull => 0
  | JBool b => if b then 1 else 0
  | JNum z => z mod 2 ^ 32
  | JStr s => string_integer_part s mod 2 ^ 32
  end.

(** What an assignment of [v] stores in a reflected unsigned long with the
    given default. *)
Definition canvas_size (default : Z) (v : jsval) : Z :=
  if to_uint32 v <=? 2147483647 then to_uint32 v else default.

Local Close Scope Z_scope.

(** ** Elements *)

(** Which of the platform's native functions a method property holds. *)
Inductive vendor := Std | Moz | Webkit.

(** Event callbacks.  [fullScreenChange] is one function object; the click
    handler of [init] is a function expression, so every evaluation yields a
    new closure, told apart by a number. *)
Inductive callback :=
| CbFullScreenChange
| CbToggleClick (closure : nat).

Definition callback_eqb (a b : callback) : bool :=
  match a, b with
  | CbFullScreenChange, CbFullScreenChange => true
  | CbToggleClick x, CbToggleClick y => Nat.eqb x y
  | _, _ => false
  end.

Definition listener := (string * callback)%type.

Definition listener_eqb (a b : listener) : bool :=
  String.eqb (fst a) (fst b) && callback_eqb (snd a) (snd b).

(** [target.addEventListener(type, callback, false)]: a listener already
    registered with the same type and callback is not added again. *)
Definition add_listener (l : listener) (ls : list listener) : list listener :=
  if existsb (listener_eqb l) ls then ls else ls ++ [l].

(** The fullscreen and pointer-lock methods an element exposes; [None] is a
    property that is missing or holds [undefined] (the module only tests
    these properties for truthiness). *)
Record methods := mkMethods {
  requestFullScreen : option vendor;
  mozRequestFullScreen : option vendor;
  webkitRequestFullScreen : option vendor;
  requestPointerLock : option vendor;
  mozRequestPointerLock : option vendor;
  webkitRequestPointerLock : option vendor
}.

(** A DOM element.  [nid] is the identity of the object (what [==] compares
    on two element references) and [tagName] its local name, in lower case
    as [createElement] is given it.  [style_textAlign] is the text-align of
    the inline style, the empty string when it is not set.  The layout
    properties ([clientWidth], [clientHeight] and the bounding rectangle)
    are the platform's. *)
Record element := mkElement {
  nid : nat;
  tagName : string;
  elem_id : string;
  tabindex : option string;
  innerHTML : string;
  style_textAlign : string;
  display : option string;
  width : jsval;
  height : jsval;
  clientWidth : Z;
  clientHeight : Z;
  rectLeft : Z;
  rectTop : Z;
  elem_listeners : list listener;
  elem_methods : methods
}.

Definition set_elem_id (v : string) (e : element) : element :=
  mkElement (nid e) (tagName e) v (tabindex e) (innerHTML e) (style_textAlign e)
    (display e) (width e) (height e) (clientWidth e) (clientHeight e)
    (rectLeft e) (rectTop e) (elem_listeners e) (elem_methods e).

Definition set_tabindex (v : option string) (e : element) : element :=
  mkElement (nid e) (tagName e) (elem_id e) v (innerHTML e) (style_textAlign e)
    (display e) (width e) (height e) (clientWidth e) (clientHeight e)
    (rectLeft e) (rectTop e) (elem_listeners e) (elem_methods e).

Definition set_innerHTML (v : string) (e : element) : element :=
  mkElement (nid e) (tagName e) (elem_id e) (tabindex e) v (style_textAlign e)
    (display e) (width e) (height e) (clientWidth e) (clientHeight e)
    (rectLeft e) (rectTop e) (elem_listeners e) (elem_methods e).

(** [e.style.textAlign] as a value: always a string.  It is given the type
    of the variable [oldWrapperTextAlign], which holds such a string or
    [null]. *)
Definition textAlign (e : element) : option string :=
  Some (style_textAlign e).

(** [e.style.textAlign = v]: an assigned [null] is stored as the empty
    string, which removes the declaration.  The strings the module assigns
    are ["center"] and values read from the style before. *)
Definition set_textAlign (v : option string) (e : element) : element :=
  mkElement (nid e) (tagName e) (elem_id e) (tabindex e) (innerHTML e)
    (match v with
     | Some a => a
     | None => ""
     end)
    (display e) (width e) (height e) (clientWidth e) (clientHeight e)
    (rectLeft e) (rectTop e) (elem_listeners e) (elem_methods e).

Definition set_display (v : option string) (e : element) : element :=
  mkElement (nid e) (tagName e) (elem_id e) (tabindex e) (innerHTML e)
    (style_textAlign e) v (width e) (height e) (clientWidth e) (clientHeight e)
    (rectLeft e) (rectTop e) (elem_listeners e) (elem_methods e).

Definition is_canvas (e : element) : bool := String.eqb (tagName e) "canvas".

(** [e.width = v] and [e.height = v].  On a canvas the property is the
    reflected unsigned long, with the defaults 300 and 150; on an element
    without such a property (a div, say) the assignment creates a property
    that holds the value as it is. *)
Definition set_width (v : jsval) (e : element) : element :=
  mkElement (nid e) (tagName e) (elem_id e) (tabindex e) (innerHTML e)
    (style_textAlign e) (display e)
    (if is_canvas e then JNum (canvas_size 300 v) else v)
    (height e) (clientWidth e) (clientHeight e)
    (rectLeft e) (rectTop e) (elem_listeners e) (elem_methods e).

Definition set_height (v : jsval) (e : element) : element :=
  mkElement (nid e) (tagName e) (elem_id e) (tabindex e) (innerHTML e)
    (style_textAlign e) (display e) (width e)
    (if is_canvas e then JNum (canvas_size 150 v) else v)
    (clientWidth e) (clientHeight e)
    (rectLeft e) (rectTop e) (elem_listeners e) (elem_methods e).

Definition set_elem_listeners (v : list listener) (e : element) : element :=
  mkElement (nid e) (tagName e) (elem_id e) (tabindex e) (innerHTML e)
    (style_textAlign e) (display e) (width e) (height e) (clientWidth e)
    (clientHeight e) (rectLeft e) (rectTop e) v (elem_methods e).

Definition set_elem_methods (v : methods) (e : element) : element :=
  mkElement (nid e) (tagName e) (elem_id e) (tabindex e) (innerHTML e)
    (style_textAlign e) (display e) (width e) (height e) (clientWidth e)
    (clientHeight e) (rectLeft e) (rectTop e) (elem_listeners e) v.

Definition set_requestFullScreen (v : option vendor) (e : element) : element :=
  let m := elem_methods e in
  set_elem_methods
    (mkMethods v (mozRequestFullScreen m) (webkitRequestFullScreen m)
       (requestPointerLock m) (mozRequestPointerLock m)
       (webkitRequestPointerLock m)) e.

Definition set_requestPointerLock (v : option vendor) (e : element) : element :=
  let m := elem_methods e in
  set_elem_methods
    (mkMethods (requestFullScreen m) (mozRequestFullScreen m)
       (webkitRequestFullScreen m) v (mozRequestPointerLock m)
       (webkitRequestPointerLock m)) e.

(** [element.setAttribute(name, value)] for the two attributes the module
    writes. *)
Definition set_attribute (name value : string) (e : element) : element :=
  if String.eqb name "id" then set_elem_id value e
  else if String.eqb name "tabindex" then set_tabindex (Some value) e
  else e.

(** What [document.createElement(tag)] returns: no id, no inline style, no
    listeners, the methods of the platform's prototype and, for a canvas,
    the default size of 300 by 150. *)
Definition new_element (n : nat) (tag : string) (proto : methods) : element :=
  mkElement n tag "" None "" "" (Some "")
    (if String.eqb tag "canvas" then JNum 300 else JUndefined)
    (if String.eqb tag "canvas" then JNum 150 else JUndefined)
    0 0 0 0 [] proto.

Definition has_nid (x : nat) (e : element) : bool := Nat.eqb (nid e) x.
Definition has_id (s : string) (e : element) : bool := String.eqb (elem_id e) s.

(** ** The document tree *)

(** The document is modelled from [document.body] down: a forest of element
    trees, the children of the body.  The body itself always exists and is
    not one of the elements the module looks up. *)
#[local] Unset Elimination Schemes.
Inductive node := Node (e : element) (kids : list node).
#[local] Set Elimination Schemes.

Definition forest := list node.

(** Induction over forests: a property that holds of the empty forest and
    of [Node e ks :: f] whenever it holds of [ks] and of [f] holds of every
    forest. *)
Section forest_induction.
Variable Q : forest -> Prop.
Hypothesis HNil : Q [].
Hypothesis HCons : forall e ks f, Q ks -> Q f -> Q (Node e ks :: f).

Fixpoint forest_ind_step (t : node) : forall f, Q f -> Q (t :: f) :=
  match t with
  | Node e ks =>
      fun f Hf =>
        HCons e ks f
          ((fix kids_ok (l : list node) : Q l :=
              match l with
              | [] => HNil
              | t' :: r => forest_ind_step t' r (kids_ok r)
              end) ks)
          Hf
  end.

Definition forest_ind' (f : forest) : Q f :=
  list_ind Q HNil (fun t r IH => forest_ind_step t r IH) f.
End forest_induction.

Definition root (t : node) : element :=
  match t with Node e _ => e end.

Definition set_root (g : element -> element) (t : node) : node :=
  match t with Node e ks => Node (g e) ks end.

(** A parent reference: the body, or an element of the tree. *)
Inductive parent := PBody | PElem (x : nat).

Definition parent_eqb (p q : parent) : bool :=
  match p, q with
  | PBody, PBody => true
  | PElem x, PElem y => Nat.eqb x y
  | _, _ => false
  end.

Definition first_some {A B : Type} (f : A -> option B) : list A -> option B :=
  fix go (l : list A) : option B :=
    match l with
    | [] => None
    | a :: r => match f a with
                | Some b => Some b
                | None => go r
                end
    end.

(** The elements of a tree in document order. *)
Fixpoint elems_node (t : node) : list element :=
  match t with
  | Node e ks => e :: flat_map elems_node ks
  end.

Definition elems (f : forest) : list element := flat_map elems_node f.

(** How many elements of the forest satisfy [P]. *)
Definition cnt (P : element -> bool) (f : forest) : nat :=
  List.length (filter P (elems f)).

(** The operations below find the element with identity [x] by a traversal
    and act wherever they find it; in a well-formed tree ([wf] below) an
    identity occurs once, so each acts at one place.

    Property assignment through a reference: the element [x] gets [g]
    applied. *)
Fixpoint update_node (x : nat) (g : element -> element) (t : node) : node :=
  match t with
  | Node e ks =>
      Node (if has_nid x e then g e else e) (map (update_node x g) ks)
  end.

Definition update_nid (x : nat) (g : element -> element) (f : forest) : forest :=
  map (update_node x g) f.

(** [n] becomes the last child of the element [x]. *)
Fixpoint append_node (x : nat) (n : node) (t : node) : node :=
  match t with
  | Node e ks =>
      Node e (map (append_node x n) ks ++ (if has_nid x e then [n] else []))
  end.

Definition append_under (p : parent) (n : node) (f : forest) : forest :=
  match p with
  | PBody => f ++ [n]
  | PElem x => map (append_node x n) f
  end.

(** The subtree rooted at the element [x] is taken out of the tree. *)
Fixpoint remove_node (x : nat) (t : node) : list node :=
  match t with
  | Node e ks =>
      if has_nid x e then [] else [Node e (flat_map (remove_node x) ks)]
  end.

Definition remove_nid (x : nat) (f : forest) : forest :=
  flat_map (remove_node x) f.

(** [n] becomes the sibling just before the element [r]. *)
Fixpoint before_node (r : nat) (n : node) (t : node) : list node :=
  match t with
  | Node e ks =>
      (if has_nid r e then [n] else [])
        ++ [Node e (flat_map (before_node r n) ks)]
  end.

Definition insert_before_nid (r : nat) (n : node) (f : forest) : forest :=
  flat_map (before_node r n) f.

(** The first occurrence of the element [x] in document order: its parent
    and the subtree it roots. *)
Fixpoint locate_node (p : parent) (x : nat) (t : node) : option (parent * node) :=
  match t with
  | Node e ks =>
      if has_nid x e then Some (p, t)
      else first_some (locate_node (PElem (nid e)) x) ks
  end.

Definition locate_in (p : parent) (x : nat) (f : forest) : option (parent * node) :=
  first_some (locate_node p x) f.

Definition locate (x : nat) (f : forest) : option (parent * node) :=
  locate_in PBody x f.

(** Dereferencing an element reference. *)
Definition deref (x : nat) (f : forest) : option element :=
  find (has_nid x) (elems f).

(** Is the parent reference to an element of the forest [f]?  And is it to
    a node of the document: the body, or an element of its tree? *)
Definition parent_in (p : parent) (f : forest) : bool :=
  match p with
  | PBody => false
  | PElem x => existsb (has_nid x) (elems f)
  end.

Definition parent_attached (p : parent) (f : forest) : bool :=
  match p with
  | PBody => true
  | PElem x => existsb (has_nid x) (elems f)
  end.

(** ** The document and the module state *)

(** The part of [document] and of the platform the module touches.
    [activeElement] is [None] when the body has the focus.  The two request
    logs record the fire-and-forget calls made to the platform; [proto]
    holds the methods the platform gives every element. *)
Record document := mkDocument {
  body : forest;
  title : string;
  activeElement : option nat;
  next_nid : nat;
  doc_listeners : list listener;
  fullScreenElement : option nat;
  mozFullScreenElement : option nat;
  webkitIsFullScreen : bool;
  webkitDisplayingFullscreen : bool;
  fullscreenRequests : list nat;
  pointerLockRequests : list nat;
  proto : methods
}.

Definition set_body (v : forest) (d : document) : document :=
  mkDocument v (title d) (activeElement d) (next_nid d) (doc_listeners d)
    (fullScreenElement d) (mozFullScreenElement d) (webkitIsFullScreen d)
    (webkitDisplayingFullscreen d) (fullscreenRequests d)
    (pointerLockRequests d) (proto d).

Definition set_title (v : string) (d : document) : document :=
  mkDocument (body d) v (activeElement d) (next_nid d) (doc_listeners d)
    (fullScreenElement d) (mozFullScreenElement d) (webkitIsFullScreen d)
    (webkitDisplayingFullscreen d) (fullscreenRequests d)
    (pointerLockRequests d) (proto d).

Definition set_activeElement (v : option nat) (d : document) : document :=
  mkDocument (body d) (title d) v (next_nid d) (doc_listeners d)
    (fullScreenElement d) (mozFullScreenElement d) (webkitIsFullScreen d)
    (webkitDisplayingFullscreen d) (fullscreenRequests d)
    (pointerLockRequests d) (proto d).

Definition set_next_nid (v : nat) (d : document) : document :=
  mkDocument (body d) (title d) (activeElement d) v (doc_listeners d)
    (fullScreenElement d) (mozFullScreenElement d) (webkitIsFullScreen d)
    (webkitDisplayingFullscreen d) (fullscreenRequests d)
    (pointerLockRequests d) (proto d).

Definition set_doc_listeners (v : list listener) (d : document) : document :=
  mkDocument (body d) (title d) (activeElement d) (next_nid d) v
    (fullScreenElement d) (mozFullScreenElement d) (webkitIsFullScreen d)
    (webkitDisplayingFullscreen d) (fullscreenRequests d)
    (pointerLockRequests d) (proto d).

Definition set_fullscreen_flags (fse moz : option nat) (wis wdisp : bool)
    (d : document) : document :=
  mkDocument (body d) (title d) (activeElement d) (next_nid d)
    (doc_listeners d) fse moz wis wdisp (fullscreenRequests d)
    (pointerLockRequests d) (proto d).

Definition set_fullscreenRequests (v : list nat) (d : document) : document :=
  mkDocument (body d) (title d) (activeElement d) (next_nid d)
    (doc_listeners d) (fullScreenElement d) (mozFullScreenElement d)
    (webkitIsFullScreen d) (webkitDisplayingFullscreen d) v
    (pointerLockRequests d) (proto d).

Definition set_pointerLockRequests (v : list nat) (d : document) : document :=
  mkDocument (body d) (title d) (activeElement d) (next_nid d)
    (doc_listeners d) (fullScreenElement d) (mozFullScreenElement d)
    (webkitIsFullScreen d) (webkitDisplayingFullscreen d)
    (fullscreenRequests d) v (proto d).

(** The drawing context [canvas.getContext('2d')] hands out. *)
Inductive context := Context2d (canvas : nat).

(** Modelled from the spec: the Surface type of [require('../gamejs')] is not
    part of this file.  The spec gives it a constructor taking
    [[width, height]], mutable bindings to a rendering target and to its
    drawing context, and two toggles that enable and disable smoothing;
    [smoothing] records the toggle applied last, [None] before any. *)
Record surface := mkSurface {
  surf_size : list jsval;
  _canvas : option nat;
  _context : option context;
  smoothing : option bool
}.

Definition set__canvas (v : option nat) (s : surface) : surface :=
  mkSurface (surf_size s) v (_context s) (smoothing s).

Definition set__context (v : option context) (s : surface) : surface :=
  mkSurface (surf_size s) (_canvas s) v (smoothing s).

Definition set_smoothing (v : option bool) (s : surface) : surface :=
  mkSurface (surf_size s) (_canvas s) (_context s) v.

(** The module's globals [SURFACE], [_SURFACE_SMOOTHING] and
    [oldWrapperTextAlign], the Surface objects allocated so far (a reference
    to a Surface is its index), the number of closures created, and the
    document. *)
Record state := mkState {
  SURFACE : option nat;
  _SURFACE_SMOOTHING : bool;
  oldWrapperTextAlign : option string;
  surfaces : list surface;
  closures : nat;
  doc : document
}.

Definition set_SURFACE (v : option nat) (s : state) : state :=
  mkState v (_SURFACE_SMOOTHING s) (oldWrapperTextAlign s) (surfaces s)
    (closures s) (doc s).

Definition set__SURFACE_SMOOTHING (v : bool) (s : state) : state :=
  mkState (SURFACE s) v (oldWrapperTextAlign s) (surfaces s) (closures s)
    (doc s).

Definition set_oldWrapperTextAlign (v : option string) (s : state) : state :=
  mkState (SURFACE s) (_SURFACE_SMOOTHING s) v (surfaces s) (closures s)
    (doc s).

Definition set_surfaces (v : list surface) (s : state) : state :=
  mkState (SURFACE s) (_SURFACE_SMOOTHING s) (oldWrapperTextAlign s) v
    (closures s) (doc s).

Definition set_closures (v : nat) (s : state) : state :=
  mkState (SURFACE s) (_SURFACE_SMOOTHING s) (oldWrapperTextAlign s)
    (surfaces s) v (doc s).

Definition set_doc (v : document) (s : state) : state :=
  mkState (SURFACE s) (_SURFACE_SMOOTHING s) (oldWrapperTextAlign s)
    (surfaces s) (closures s) v.

Definition on_doc (g : document -> document) (s : state) : state :=
  set_doc (g (doc s)) s.

Definition on_body (g : forest -> forest) (s : state) : state :=
  on_doc (fun d => set_body (g (body d)) d) s.

(** The constants of the file. *)
Definition CANVAS_ID : string := "gjs-canvas".
Definition LOADER_ID : string := "gjs-loader".
Definition DISABLE_SMOOTHING : jsval := JNum 2.
Definition TOGGLE_ID : string := "gjs-fullscreen-toggle".
Definition WRAPPER_ID : string := "gjs-canvas-wrapper".

(** ** Computations: state and exceptions *)

Inductive error := TypeError | HierarchyRequestError | NotFoundError.

(** A call either returns a value or throws; both leave a state behind. *)
Inductive result (A : Type) :=
| Ok (a : A) (s : state)
| Throw (err : error) (s : state).
Arguments Ok {A} a s.
Arguments Throw {A} err s.

Definition M (A : Type) : Type := state -> result A.

Definition ret {A : Type} (a : A) : M A := fun s => Ok a s.

Definition bind {A B : Type} (m : M A) (k : A -> M B) : M B :=
  fun s =>
    match m s with
    | Ok a s' => k a s'
    | Throw e s' => Throw e s'
    end.

Definition throw {A : Type} (e : error) : M A := fun s => Throw e s.
Definition gets {A : Type} (f : state -> A) : M A := fun s => Ok (f s) s.
Definition modify (g : state -> state) : M unit := fun s => Ok tt (g s).

Declare Scope js_scope.
Delimit Scope js_scope with js.
Notation "x <- m ;; k" := (bind m (fun x => k))
  (at level 61, m at next level, right associativity) : js_scope.
Notation "m ;; k" := (bind m (fun _ => k))
  (at level 61, right associativity) : js_scope.
Local Open Scope js_scope.

(** The state a call leaves behind, returned or thrown. *)
Definition final {A : Type} (r : result A) : state :=
  match r with
  | Ok _ s => s
  | Throw _ s => s
  end.

(** ** DOM operations *)

(** [document.getElementById(s)]: the first element in document order whose
    id is [s], or [null]. *)
Definition getElementById (s : string) : M (option nat) :=
  gets (fun st => option_map nid (find (has_id s) (elems (body (doc st))))).

(** [document.createElement(tag)]: a new element, not yet in the tree. *)
Definition createElement (tag : string) : M node :=
  fun st =>
    let d := doc st in
    Ok (Node (new_element (next_nid d) tag (proto d)) [])
       (set_doc (set_next_nid (S (next_nid d)) d) st).

(** Reading a property through a reference.  Every reference the module
    holds is to an element of the tree; a reference to none reads as a
    property of [null] would. *)
Definition prop {A : Type} (get : element -> A) (x : nat) : M A :=
  fun st =>
    match deref x (body (doc st)) with
    | Some e => Ok (get e) st
    | None => Throw TypeError st
    end.

(** Writing a property through a reference. *)
Definition assign (x : nat) (g : element -> element) : M unit :=
  modify (on_body (update_nid x g)).

Definition setAttribute (x : nat) (name value : string) : M unit :=
  assign x (set_attribute name value).

(** [x.focus()] *)
Definition focus (x : nat) : M unit :=
  modify (on_doc (set_activeElement (Some x))).

(** [x.parentNode], for a use that calls a method on it at once: a [null]
    parent makes that call a TypeError. *)
Definition parentNode (x : nat) : M parent :=
  fun st =>
    match locate x (body (doc st)) with
    | Some (p, _) => Ok p st
    | None => Throw TypeError st
    end.

(** The child handed to [appendChild] or [insertBefore]: an element just
    created and still outside the tree, or one inside it. *)
Inductive child := Detached (n : node) | Attached (x : nat).

(** Taking a subtree out of the document takes the focus away from the
    elements in it. *)
Definition blur_removed (sub : node) (a : option nat) : option nat :=
  match a with
  | Some x => if existsb (has_nid x) (elems_node sub) then None else Some x
  | None => None
  end.

(** [p.appendChild(c)].  An element of the tree is first taken out of its
    place; appending an element below itself is a HierarchyRequestError. *)
Definition appendChild (p : parent) (c : child) : M unit :=
  fun st =>
    let b := body (doc st) in
    match c with
    | Detached n =>
        if parent_attached p b
        then Ok tt (on_body (append_under p n) st)
        else Throw TypeError st
    | Attached x =>
        match locate x b with
        | None => Throw TypeError st
        | Some (_, sub) =>
            if parent_in p [sub] then Throw HierarchyRequestError st
            else if parent_attached p (remove_nid x b)
            then Ok tt
                   (on_doc (fun d =>
                      set_activeElement (blur_removed sub (activeElement d))
                        (set_body (append_under p sub (remove_nid x b)) d))
                      st)
            else Throw TypeError st
        end
    end.

(** [p.insertBefore(n, r)] for a new element [n]: [r] has to be a child of
    [p], otherwise the call is a NotFoundError. *)
Definition insertBefore (p : parent) (n : node) (r : nat) : M unit :=
  fun st =>
    match locate r (body (doc st)) with
    | Some (q, _) =>
        if parent_eqb p q
        then Ok tt (on_body (insert_before_nid r n) st)
        else Throw NotFoundError st
    | None => Throw NotFoundError st
    end.

(** [x.addEventListener(type, cb, false)] on an element and on the
    document. *)
Definition addEventListener (x : nat) (type : string) (cb : callback) : M unit :=
  assign x (fun e => set_elem_listeners (add_listener (type, cb) (elem_listeners e)) e).

Definition document_addEventListener (type : string) (cb : callback) : M unit :=
  modify (on_doc (fun d =>
    set_doc_listeners (add_listener (type, cb) (doc_listeners d)) d)).

(** Evaluating a function expression allocates a closure. *)
Definition new_closure : M nat :=
  fun st => Ok (closures st) (set_closures (S (closures st)) st).

(** [x.getContext(kind)].  Only a canvas has the method: on any other
    element the call is a TypeError.  A canvas gives its 2d context, and
    [null] for any other kind. *)
Definition getContext (x : nat) (kind : string) : M (option context) :=
  fun st =>
    match deref x (body (doc st)) with
    | Some e =>
        if is_canvas e
        then Ok (if String.eqb kind "2d" then Some (Context2d x) else None) st
        else Throw TypeError st
    | None => Throw TypeError st
    end.

(** ** Surface objects *)

(** The list [l] with [g] applied at index [i]; unchanged past its end. *)
Definition update_at {A : Type} (i : nat) (g : A -> A) (l : list A) : list A :=
  firstn i l ++ match nth_error l i with
                | Some a => g a :: skipn (S i) l
                | None => []
                end.

(** Modelled from the spec: the Surface constructor is not part of this
    file.  [new Surface(size)] allocates a fresh object with the given size
    and returns the reference to it. *)
Definition new_Surface (size : list jsval) : M nat :=
  fun st =>
    Ok (List.length (surfaces st))
       (set_surfaces (surfaces st ++ [mkSurface size None None None]) st).

(** The object the global [SURFACE] refers to, for [SURFACE.x] accesses. *)
Definition the_SURFACE : M nat :=
  s <- gets SURFACE ;;
  match s with
  | Some r => ret r
  | None => throw TypeError
  end.

(** Writing a property of the Surface object [r]. *)
Definition surface_assign (r : nat) (g : surface -> surface) : M unit :=
  modify (fun st => set_surfaces (update_at r g (surfaces st)) st).

(** Modelled from the spec: [_smooth] and [_noSmooth] are methods of the
    Surface type, not part of this file; they are its two toggles, enabling
    and disabling smoothing on the Surface they are called on. *)
Definition Surface_smooth (r : nat) : M unit :=
  surface_assign r (set_smoothing (Some true)).

(** Modelled from the spec: see [Surface_smooth]. *)
Definition Surface_noSmooth (r : nat) : M unit :=
  surface_assign r (set_smoothing (Some false)).

(** ** The functions of display.js *)

(** [getCanvas] (lines 46-57) *)
Definition getCanvas : M nat :=
  found <- getElementById CANVAS_ID ;;
  displayCanvas <-
    match found with
    | Some c => ret c
    | None =>
        n <- createElement "canvas" ;;
        let n := set_root (set_attribute "id" CANVAS_ID) n in
        appendChild PBody (Detached n) ;;
        ret (nid (root n))
    end ;;
  setAttribute displayCanvas "tabindex" "1" ;;
  focus displayCanvas ;;
  ret displayCanvas.

(** [getFullScreenToggle] (lines 60-73) *)
Definition getFullScreenToggle : M nat :=
  found <- getElementById "gjs-fullscreen-toggle" ;;
  match found with
  | Some b => ret b
  | None =>
      n <- createElement "button" ;;
      let n := set_root (set_innerHTML "Fullscreen") n in
      let n := set_root (set_elem_id "gjs-fullscreen-toggle") n in
      canvas <- getCanvas ;;
      p <- parentNode canvas ;;
      insertBefore p n canvas ;;
      p' <- parentNode canvas ;;
      br <- createElement "br" ;;
      insertBefore p' br canvas ;;
      ret (nid (root n))
  end.

(** [getFullScreenWrapper] (lines 75-88) *)
Definition getFullScreenWrapper : M nat :=
  found <- getElementById "gjs-canvas-wrapper" ;;
  match found with
  | Some w => ret w
  | None =>
      n <- createElement "div" ;;
      let n := set_root (set_elem_id "gjs-canvas-wrapper") n in
      canvas <- getCanvas ;;
      p <- parentNode canvas ;;
      appendChild p (Detached n) ;;
      appendChild (PElem (nid (root n))) (Attached canvas) ;;
      ret (nid (root n))
  end.

(** [isFullScreen] (lines 134-136), as the truth value its callers test. *)
Definition fullscreen_on (st : state) : bool :=
  let d := doc st in
  truthy (fullScreenElement d) || truthy (mozFullScreenElement d)
  || webkitIsFullScreen d || webkitDisplayingFullscreen d.

Definition isFullScreen : M bool := gets fullscreen_on.

(** [enableFullScreen] (lines 143-151) *)
Definition enableFullScreen : M bool :=
  wrapper <- getFullScreenWrapper ;;
  m <- prop elem_methods wrapper ;;
  assign wrapper
    (set_requestFullScreen
       (js_or (requestFullScreen m)
          (js_or (mozRequestFullScreen m) (webkitRequestFullScreen m)))) ;;
  f <- prop (fun e => requestFullScreen (elem_methods e)) wrapper ;;
  match f with
  | None => ret false
  | Some _ =>
      modify (on_doc (fun d =>
        set_fullscreenRequests (fullscreenRequests d ++ [wrapper]) d)) ;;
      ret true
  end.

(** [enablePointerLock] (lines 153-159) *)
Definition enablePointerLock : M unit :=
  wrapper <- getFullScreenWrapper ;;
  m <- prop elem_methods wrapper ;;
  assign wrapper
    (set_requestPointerLock
       (js_or (requestPointerLock m)
          (js_or (mozRequestPointerLock m) (webkitRequestPointerLock m)))) ;;
  f <- prop (fun e => requestPointerLock (elem_methods e)) wrapper ;;
  match f with
  | Some _ =>
      modify (on_doc (fun d =>
        set_pointerLockRequests (pointerLockRequests d ++ [wrapper]) d))
  | None => ret tt
  end.

(** [fullScreenChange] (lines 90-104) *)
Definition fullScreenChange : M unit :=
  fs <- isFullScreen ;;
  if fs then
    enablePointerLock ;;
    w <- getFullScreenWrapper ;;
    a <- prop textAlign w ;;
    modify (set_oldWrapperTextAlign a) ;;
    w' <- getFullScreenWrapper ;;
    assign w' (set_textAlign (Some "center"))
  else
    w <- getFullScreenWrapper ;;
    old <- gets oldWrapperTextAlign ;;
    assign w (set_textAlign old).

(** [exports.init] (lines 110-132) *)
Definition init : M unit :=
  getFullScreenWrapper ;;
  fullScreenToggle <- getFullScreenToggle ;;
  k <- new_closure ;;
  addEventListener fullScreenToggle "click" (CbToggleClick k) ;;
  document_addEventListener "fullscreenchange" CbFullScreenChange ;;
  document_addEventListener "webkitfullscreenchange" CbFullScreenChange ;;
  document_addEventListener "mozfullscreenchange" CbFullScreenChange ;;
  getCanvas ;;
  loader <- getElementById "gjs-loader" ;;
  match loader with
  | Some l => assign l (set_display (Some "none"))
  | None => ret tt
  end.

(** [exports._hasFocus] (lines 162-164): the left operand of [==] is read
    before [getCanvas()] is called. *)
Definition _hasFocus : M bool :=
  a <- gets (fun st => activeElement (doc st)) ;;
  c <- getCanvas ;;
  ret (match a with
       | Some x => Nat.eqb x c
       | None => false
       end).

(** [exports._isSmoothingEnabled] (lines 167-169) *)
Definition _isSmoothingEnabled : M bool :=
  gets (fun st => Bool.eqb (_SURFACE_SMOOTHING st) true).

(** [getSurface] (lines 215-228) *)
Definition getSurface : M (option nat) :=
  s <- gets SURFACE ;;
  match s with
  | None =>
      canvas <- getCanvas ;;
      cw <- prop clientWidth canvas ;;
      ch <- prop clientHeight canvas ;;
      r <- new_Surface [JNum cw; JNum ch] ;;
      modify (set_SURFACE (Some r)) ;;
      r1 <- the_SURFACE ;;
      surface_assign r1 (set__canvas (Some canvas)) ;;
      ctx <- getContext canvas "2d" ;;
      r2 <- the_SURFACE ;;
      surface_assign r2 (set__context ctx) ;;
      sm <- gets _SURFACE_SMOOTHING ;;
      if sm then r3 <- the_SURFACE ;; Surface_smooth r3
      else r3 <- the_SURFACE ;; Surface_noSmooth r3
  | Some _ => ret tt
  end ;;
  gets SURFACE.

(** [exports.setMode] (lines 178-184) *)
Definition setMode (dimensions : list jsval) (flags : jsval) : M (option nat) :=
  canvas <- getCanvas ;;
  assign canvas (set_width (js_index dimensions 0)) ;;
  assign canvas (set_height (js_index dimensions 1)) ;;
  modify (set__SURFACE_SMOOTHING (negb (strict_eq flags DISABLE_SMOOTHING))) ;;
  getSurface.

(** [exports.setCaption] (lines 191-193) *)
Definition setCaption (title' : string) (icon : jsval) : M unit :=
  modify (on_doc (set_title title')).

(** [exports._getCanvasOffset] (lines 206-209) *)
Definition _getCanvasOffset : M (list Z) :=
  c <- getCanvas ;;
  left <- prop rectLeft c ;;
  top <- prop rectTop c ;;
  ret [left; top].

(** ** Events and program runs *)

(** Running one registered callback.  The click handler of [init] calls
    [enableFullScreen()] and then [event.preventDefault()]. *)
Definition run_callback (cb : callback) : M unit :=
  match cb with
  | CbFullScreenChange => fullScreenChange
  | CbToggleClick _ => enableFullScreen ;; ret tt
  end.

(** Delivering an event of the given type to a list of listeners; a
    listener that throws does not keep the others from running. *)
Fixpoint deliver (type : string) (ls : list listener) (st : state) : state :=
  match ls with
  | [] => st
  | (t, cb) :: rest =>
      if String.eqb t type
      then deliver type rest (final (run_callback cb st))
      else deliver type rest st
  end.

(** What can happen in a run of a program that uses the module: a call of
    one of its exports, or the platform delivering an event, changing its
    fullscreen state, or moving the focus to an element of the tree. *)
Inductive op :=
| OInit
| OSetMode (dimensions : list jsval) (flags : jsval)
| OSetCaption (title' : string) (icon : jsval)
| OGetSurface
| OHasFocus
| OIsSmoothingEnabled
| OGetCanvasOffset
| OClickToggle
| ODocumentEvent (type : string)
| OFullscreenFlags (fse moz : option nat) (wis wdisp : bool)
| OFocus (target : option nat).

Definition click_toggle (st : state) : state :=
  match find (has_id TOGGLE_ID) (elems (body (doc st))) with
  | Some b => deliver "click" (elem_listeners b) st
  | None => st
  end.

Definition user_focus (target : option nat) (st : state) : state :=
  match target with
  | None => on_doc (set_activeElement None) st
  | Some x =>
      if existsb (has_nid x) (elems (body (doc st)))
      then on_doc (set_activeElement (Some x)) st
      else st
  end.

Definition step (o : op) (st : state) : state :=
  match o with
  | OInit => final (init st)
  | OSetMode d f => final (setMode d f st)
  | OSetCaption t i => final (setCaption t i st)
  | OGetSurface => final (getSurface st)
  | OHasFocus => final (_hasFocus st)
  | OIsSmoothingEnabled => final (_isSmoothingEnabled st)
  | OGetCanvasOffset => final (_getCanvasOffset st)
  | OClickToggle => click_toggle st
  | ODocumentEvent type => deliver type (doc_listeners (doc st)) st
  | OFullscreenFlags fse moz wis wdisp =>
      on_doc (set_fullscreen_flags fse moz wis wdisp) st
  | OFocus target => user_focus target st
  end.

Definition run (ops : list op) (st : state) : state :=
  fold_left (fun s o => step o s) ops st.

(** [n] calls of [init] in a row. *)
Fixpoint repeat_init (n : nat) : M unit :=
  match n with
  | O => ret tt
  | S k => init ;; repeat_init k
  end.

(** ** States used as examples *)

Definition no_methods : methods := mkMethods None None None None None None.

(** A page with an empty body, on a platform without fullscreen or pointer
    lock, before the module has run. *)
Definition empty_document : document :=
  mkDocument [] "" None 0 [] None None false false [] [] no_methods.

Definition initial_state : state :=
  mkState None true None [] 0 empty_document.

(** ** Predicates on states *)

Definition one (P : element -> bool) (e : element) : nat :=
  if P e then 1 else 0.

(** The number of elements of the document that carry the id [s]. *)
Definition cnt_id (s : string) (st : state) : nat :=
  cnt (has_id s) (body (doc st)).

(** A predicate that looks at the identity and the id of an element only. *)
Definition id_pred (P : element -> bool) : Prop :=
  forall e e', nid e = nid e' -> elem_id e = elem_id e' -> P e = P e'.

(** An assignment that leaves the identity and the id of an element alone. *)
Definition keeps_id (g : element -> element) : Prop :=
  forall e, nid (g e) = nid e /\ elem_id (g e) = elem_id e.

Definition stub (n : nat) (s : string) : element :=
  set_elem_id s (new_element n "" no_methods).

(** Well-formed states: every element object occurs once in the tree, the
    identities not yet handed out are unused, and the focus is on an object
    that was handed out.  In a browser these hold of every document; here
    they hold of the initial states and are kept by every operation
    ([wf_run]). *)
Record wf (st : state) : Prop := mkWf {
  wf_unique : forall y, cnt (has_nid y) (body (doc st)) <= 1;
  wf_fresh : forall y, next_nid (doc st) <= y ->
                       cnt (has_nid y) (body (doc st)) = 0;
  wf_active : forall a, activeElement (doc st) = Some a ->
                        a < next_nid (doc st)
}.

(** The element carrying the id [s], as [getElementById] finds it. *)
Definition element_by_id (s : string) (st : state) : option element :=
  find (has_id s) (elems (body (doc st))).

(** The canvas exists, carries [tabindex="1"] and has the focus. *)
Definition canvas_focused (st : state) : Prop :=
  exists e, element_by_id CANVAS_ID st = Some e
            /\ tabindex e = Some "1"
            /\ activeElement (doc st) = Some (nid e).

(** The element with the id of the canvas, when the page comes with one, is
    a canvas: what [getCanvas] returns has the properties of a canvas. *)
Definition canvas_usable (st : state) : bool :=
  match element_by_id CANVAS_ID st with
  | Some e => is_canvas e
  | None => true
  end.

(** The [style.textAlign] of the wrapper element, when there is one. *)
Definition wrapper_textAlign (st : state) : option (option string) :=
  option_map textAlign (element_by_id WRAPPER_ID st).

(** The platform leaves fullscreen: all four indicators go off. *)
Definition platform_exit_fullscreen (st : state) : state :=
  on_doc (set_fullscreen_flags None None false false) st.

(** The module's own variables and objects agree in two states. *)
Definition same_module (a b : state) : Prop :=
  SURFACE a = SURFACE b
  /\ _SURFACE_SMOOTHING a = _SURFACE_SMOOTHING b
  /\ oldWrapperTextAlign a = oldWrapperTextAlign b
  /\ surfaces a = surfaces b
  /\ closures a = closures b.

(** What [getCanvas] does to the canvas [c] once it has it: the tabindex
    attribute and the focus. *)
Definition canvas_touch (c : nat) (st : state) : state :=
  on_doc (set_activeElement (Some c))
    (on_body (update_nid c (set_attribute "tabindex" "1")) st).

(** The state after [getCanvas] had to create the canvas. *)
Definition canvas_created (st : state) : state :=
  let k := next_nid (doc st) in
  on_body
    (fun b => b ++ [Node (set_attribute "id" CANVAS_ID
                            (new_element k "canvas" (proto (doc st)))) []])
    (on_doc (set_next_nid (S k)) st).

(** The Surface [getSurface] builds when there is none yet. *)
Definition fresh_surface (c : nat) (e : element) (sm : bool) : surface :=
  mkSurface [JNum (clientWidth e); JNum (clientHeight e)]
    (Some c) (Some (Context2d c)) (Some sm).

(** The pointer-lock and fullscreen methods a wrapper resolves to, and the
    platform request that is logged when there is one. *)
Definition pointer_lock_method (e : element) : option vendor :=
  let m := elem_methods e in
  js_or (requestPointerLock m)
    (js_or (mozRequestPointerLock m) (webkitRequestPointerLock m)).

Definition fullscreen_method (e : element) : option vendor :=
  let m := elem_methods e in
  js_or (requestFullScreen m)
    (js_or (mozRequestFullScreen m) (webkitRequestFullScreen m)).

Definition log_pointer_lock (x : nat) (v : option vendor) (st : state) : state :=
  match v with
  | Some _ =>
      on_doc (fun d =>
        set_pointerLockRequests (pointerLockRequests d ++ [x]) d) st
  | None => st
  end.

Definition log_fullscreen (x : nat) (v : option vendor) (st : state) : state :=
  match v with
  | Some _ =>
      on_doc (fun d =>
        set_fullscreenRequests (fullscreenRequests d ++ [x]) d) st
  | None => st
  end.

(** A decision procedure for [wf], for concrete states. *)
Fixpoint nodupb (l : list nat) : bool :=
  match l with
  | [] => true
  | x :: r => negb (existsb (Nat.eqb x) r) && nodupb r
  end.

Definition wf_check (st : state) : bool :=
  let d := doc st in
  let ids := map nid (elems (body d)) in
  nodupb ids
  && forallb (fun x => Nat.ltb x (next_nid d)) ids
  && match activeElement d with
     | Some a => Nat.ltb a (next_nid d)
     | None => true
     end.

(** A platform with the webkit-prefixed fullscreen and pointer-lock
    methods, before the module has run. *)
Definition webkit_methods : methods :=
  mkMethods None None (Some Webkit) None None (Some Webkit).

Definition webkit_state : state :=
  mkState None true None [] 0
    (mkDocument [] "" None 0 [] None None false false [] [] webkit_methods).

(** The page after [init], and the same page with the wrapper aligned to
    the left. *)
Definition loaded_state : state := final (init initial_state).

Definition aligned_state : state :=
  on_body (update_nid 0 (set_textAlign (Some "left"))) loaded_state.

(** The webkit page after [init], once the platform reports fullscreen. *)
Definition fullscreen_state : state :=
  step (OFullscreenFlags None None true false) (final (init webkit_state)).

Definition wrapper_of (st : state) : element :=
  match element_by_id WRAPPER_ID st with
  | Some e => e
  | None => stub 0 ""
  end.

(** A computation that takes well-formed states to well-formed states,
    whether it returns or throws. *)
Definition wf_pres {A : Type} (m : M A) : Prop :=
  forall st, wf st -> wf (final (m st)).

(** Does the operation deliver an event to listeners? *)
Definition is_event (o : op) : bool :=
  match o with
  | OClickToggle | ODocumentEvent _ => true
  | _ => false
  end.

(** A run in which no event is delivered while the platform reports
    fullscreen: the change handler never takes its fullscreen branch. *)
Fixpoint never_entered (ops : list op) (st : state) : bool :=
  match ops with
  | [] => true
  | o :: rest =>
      (negb (is_event o) || negb (fullscreen_on st))
      && never_entered rest (step o st)
  end.

(** The four indicators [isFullScreen] reads, and the two logs of requests
    made to the platform. *)
Definition fullscreen_indicators (st : state)
    : option nat * option nat * bool * bool :=
  let d := doc st in
  (fullScreenElement d, mozFullScreenElement d, webkitIsFullScreen d,
   webkitDisplayingFullscreen d).

Definition platform_requests (st : state) : list nat * list nat :=
  (fullscreenRequests (doc st), pointerLockRequests (doc st)).

(** Operations of a run by kind. *)
Definition is_flags_op (o : op) : bool :=
  match o with
  | OFullscreenFlags _ _ _ _ => true
  | _ => false
  end.

Definition is_setMode (o : op) : bool :=
  match o with
  | OSetMode _ _ => true
  | _ => false
  end.

(** The state after [init] has registered its listeners: a new click
    handler on the toggle [b] and the change handler on the document. *)
Definition registered (b : nat) (st : state) : state :=
  on_doc (fun d =>
    set_doc_listeners
      (add_listener ("mozfullscreenchange", CbFullScreenChange)
         (doc_listeners d)) d)
    (on_doc (fun d =>
       set_doc_listeners
         (add_listener ("webkitfullscreenchange", CbFullScreenChange)
            (doc_listeners d)) d)
       (on_doc (fun d =>
          set_doc_listeners
            (add_listener ("fullscreenchange", CbFullScreenChange)
               (doc_listeners d)) d)
          (on_body
             (update_nid b (fun e =>
                set_elem_listeners
                  (add_listener ("click", CbToggleClick (closures st))
                     (elem_listeners e)) e))
             (set_closures (S (closures st)) st)))).

(** The state after the last statement of [init]. *)
Definition hide_loader (st : state) : state :=
  match element_by_id LOADER_ID st with
  | Some l => on_body (update_nid (nid l) (set_display (Some "none"))) st
  | None => st
  end.

Definition is_init (o : op) : bool :=
  match o with
  | OInit => true
  | _ => false
  end.


(** A page that comes with a loader and a canvas. *)
Definition loader_state : state :=
  mkState None true None [] 0
    (mkDocument
       [Node (set_elem_id LOADER_ID (new_element 0 "div" no_methods)) [];
        Node (set_elem_id CANVAS_ID (new_element 1 "canvas" no_methods)) []]
       "" None 2 [] None None false false [] [] no_methods).

(** The listeners on the fullscreen toggle, when the page has one. *)
Definition toggle_listeners (st : state) : list listener :=
  match element_by_id TOGGLE_ID st with
  | Some b => elem_listeners b
  | None => []
  end.

(** The click handlers among them are closures allocated before. *)
Definition closures_allocated (st : state) : bool :=
  forallb (fun l => match snd l with
                    | CbToggleClick k => Nat.ltb k (closures st)
                    | CbFullScreenChange => true
                    end) (toggle_listeners st).

(** The click handlers that [n] calls of [init] register when the next
    closure is number [k]. *)
Definition click_handlers (k n : nat) : list listener :=
  map (fun i => ("click", CbToggleClick (k + i))) (seq 0 n).

Definition is_click (l : listener) : bool := String.eqb (fst l) "click".

(** Every click listener of the list is a click handler of [init]. *)
Definition clicks_from_init (ls : list listener) : bool :=
  forallb (fun l => negb (is_click l)
                    || match snd l with
                       | CbToggleClick _ => true
                       | CbFullScreenChange => false
                       end) ls.

(** A component of the state that a computation leaves as it was, whether
    it returns or throws. *)
Definition keeps {A B : Type} (proj : state -> B) (m : M A) : Prop :=
  forall st, proj (final (m st)) = proj st.

(** * Properties of the document tree *)

Lemma cnt_nil P : cnt P [] = 0.
Proof. reflexivity. Qed.

Lemma cnt_cons P e ks f :
  cnt P (Node e ks :: f) = one P e + cnt P ks + cnt P f.
Proof.
  unfold cnt, elems, one. simpl. rewrite filter_app.
  destruct (P e); simpl; rewrite length_app; lia.
Qed.

Lemma cnt_app P f g : cnt P (f ++ g) = cnt P f + cnt P g.
Proof.
  unfold cnt, elems. rewrite flat_map_app, filter_app, length_app. reflexivity.
Qed.

Lemma cnt_single P e ks : cnt P [Node e ks] = one P e + cnt P ks.
Proof. rewrite cnt_cons, cnt_nil. lia. Qed.


Lemma elems_cons e ks f : elems (Node e ks :: f) = e :: elems ks ++ elems f.
Proof. reflexivity. Qed.

Lemma update_nid_cons x g e ks f :
  update_nid x g (Node e ks :: f)
  = Node (if has_nid x e then g e else e) (update_nid x g ks) :: update_nid x g f.
Proof. reflexivity. Qed.

Lemma append_node_cons x n e ks f :
  map (append_node x n) (Node e ks :: f)
  = Node e (map (append_node x n) ks ++ (if has_nid x e then [n] else []))
      :: map (append_node x n) f.
Proof. reflexivity. Qed.

Lemma remove_nid_cons x e ks f :
  remove_nid x (Node e ks :: f)
  = (if has_nid x e then [] else [Node e (remove_nid x ks)]) ++ remove_nid x f.
Proof. unfold remove_nid. simpl. destruct (has_nid x e); reflexivity. Qed.

Lemma insert_before_nid_cons r n e ks f :
  insert_before_nid r n (Node e ks :: f)
  = (if has_nid r e then [n] else [])
      ++ Node e (insert_before_nid r n ks) :: insert_before_nid r n f.
Proof.
  unfold insert_before_nid. simpl. rewrite <- app_assoc. reflexivity.
Qed.

Lemma locate_in_cons p x e ks f :
  locate_in p x (Node e ks :: f)
  = if has_nid x e then Some (p, Node e ks)
    else match locate_in (PElem (nid e)) x ks with
         | Some r => Some r
         | None => locate_in p x f
         end.
Proof. unfold locate_in. simpl. destruct (has_nid x e); reflexivity. Qed.

Lemma first_some_app {A B} (g : A -> option B) l1 l2 :
  first_some g (l1 ++ l2)
  = match first_some g l1 with
    | Some r => Some r
    | None => first_some g l2
    end.
Proof.
  induction l1 as [|a l1 IH]; simpl; [reflexivity|].
  destruct (g a); [reflexivity | exact IH].
Qed.

Lemma elems_update x g f :
  elems (update_nid x g f)
  = map (fun e => if has_nid x e then g e else e) (elems f).
Proof.
  induction f as [|e ks f IHk IHf] using forest_ind'; [reflexivity|].
  rewrite update_nid_cons, !elems_cons, IHk, IHf. simpl.
  rewrite map_app. reflexivity.
Qed.

Lemma filter_map_length {A} (P : A -> bool) (h : A -> A) l :
  (forall a, P (h a) = P a) ->
  List.length (filter P (map h l)) = List.length (filter P l).
Proof.
  intros H. induction l as [|a l IH]; simpl; [reflexivity|].
  rewrite H. destruct (P a); simpl; rewrite IH; reflexivity.
Qed.

Lemma cnt_update P x g f :
  (forall e, P (g e) = P e) -> cnt P (update_nid x g f) = cnt P f.
Proof.
  intros H. unfold cnt. rewrite elems_update. apply filter_map_length.
  intros e. destruct (has_nid x e); [apply H | reflexivity].
Qed.

Lemma cnt_append_node P x n (f : forest) :
  cnt P (map (append_node x n) f) = cnt P f + cnt (has_nid x) f * cnt P [n].
Proof.
  induction f as [|e ks f IHk IHf] using forest_ind'; [reflexivity|].
  rewrite append_node_cons, !cnt_cons, cnt_app, IHk, IHf.
  unfold one. destruct (has_nid x e); rewrite ?cnt_nil; destruct (P e); nia.
Qed.

Lemma cnt_insert_before P r n f :
  cnt P (insert_before_nid r n f) = cnt P f + cnt (has_nid r) f * cnt P [n].
Proof.
  induction f as [|e ks f IHk IHf] using forest_ind'; [reflexivity|].
  rewrite insert_before_nid_cons, cnt_app, !cnt_cons, IHk, IHf.
  unfold one. destruct (has_nid r e); rewrite ?cnt_nil; destruct (P e); nia.
Qed.

Lemma locate_in_none p x f :
  locate_in p x f = None <-> cnt (has_nid x) f = 0.
Proof.
  revert p. induction f as [|e ks f IHk IHf] using forest_ind'; intros p.
  - split; reflexivity.
  - rewrite locate_in_cons, cnt_cons. unfold one.
    destruct (has_nid x e).
    + split; [discriminate | lia].
    + specialize (IHk (PElem (nid e))). specialize (IHf p).
      destruct (locate_in (PElem (nid e)) x ks).
      * split; [discriminate|]. intros H.
        assert (cnt (has_nid x) ks = 0) as H0 by lia.
        apply IHk in H0. discriminate.
      * destruct IHk as [IHk _]. rewrite (IHk eq_refl), IHf. simpl. reflexivity.
Qed.

Lemma locate_in_some p x f q sub :
  locate_in p x f = Some (q, sub) ->
  has_nid x (root sub) = true
  /\ (forall P, cnt P [sub] <= cnt P f)
  /\ (q = p \/ exists y, q = PElem y
                         /\ 1 + cnt (has_nid y) [sub] <= cnt (has_nid y) f).
Proof.
  revert p q sub.
  induction f as [|e ks f IHk IHf] using forest_ind'; intros p q sub.
  - discriminate.
  - rewrite locate_in_cons. destruct (has_nid x e) eqn:Ex.
    + intros H. injection H as <- <-. split; [exact Ex|]. split.
      * intros P. rewrite cnt_single, cnt_cons. lia.
      * left. reflexivity.
    + destruct (locate_in (PElem (nid e)) x ks) as [[q' sub']|] eqn:Ek.
      * intros H. injection H as -> ->.
        destruct (IHk _ _ _ Ek) as (Hr & Hle & Hp). split; [exact Hr|]. split.
        -- intros P. rewrite cnt_cons. specialize (Hle P). lia.
        -- right. destruct Hp as [-> | (y & -> & Hy)].
           ++ exists (nid e). split; [reflexivity|].
              rewrite cnt_cons. unfold one, has_nid at 2.
              rewrite Nat.eqb_refl. specialize (Hle (has_nid (nid e))). lia.
           ++ exists y. split; [reflexivity|]. rewrite cnt_cons. lia.
      * intros H. destruct (IHf _ _ _ H) as (Hr & Hle & Hp).
        split; [exact Hr|]. split.
        -- intros P. rewrite cnt_cons. specialize (Hle P). lia.
        -- destruct Hp as [-> | (y & -> & Hy)]; [left; reflexivity|].
           right. exists y. split; [reflexivity|]. rewrite cnt_cons. lia.
Qed.

Lemma remove_nid_absent x f : cnt (has_nid x) f = 0 -> remove_nid x f = f.
Proof.
  induction f as [|e ks f IHk IHf] using forest_ind'; [reflexivity|].
  rewrite cnt_cons, remove_nid_cons. unfold one.
  destruct (has_nid x e); [lia|]. intros H.
  rewrite IHk, IHf by lia. reflexivity.
Qed.

Lemma cnt_remove P p x f q sub :
  cnt (has_nid x) f <= 1 ->
  locate_in p x f = Some (q, sub) ->
  cnt P f = cnt P (remove_nid x f) + cnt P [sub].
Proof.
  revert p q sub.
  induction f as [|e ks f IHk IHf] using forest_ind'; intros p q sub.
  - discriminate.
  - rewrite locate_in_cons, remove_nid_cons, (cnt_cons (has_nid x)).
    unfold one at 1. destruct (has_nid x e) eqn:Ex.
    + intros Hu H. injection H as <- <-.
      rewrite remove_nid_absent by lia. rewrite cnt_single, cnt_cons. simpl. lia.
    + intros Hu. destruct (locate_in (PElem (nid e)) x ks) as [r|] eqn:Ek.
      * intros H. injection H as ->.
        assert (cnt (has_nid x) ks <> 0) as Hk.
        { intros H0. apply (locate_in_none (PElem (nid e))) in H0. congruence. }
        rewrite (remove_nid_absent x f) by lia.
        rewrite cnt_app, cnt_single, cnt_cons.
        rewrite (IHk _ _ _ ltac:(lia) Ek). lia.
      * intros H. apply locate_in_none in Ek.
        rewrite (remove_nid_absent x ks Ek).
        rewrite cnt_app, cnt_single, cnt_cons.
        rewrite (IHf _ _ _ ltac:(lia) H). lia.
Qed.

Lemma locate_in_append_node p c x n (f : forest) :
  cnt (has_nid c) [n] = 0 ->
  locate_in p c (map (append_node x n) f)
  = option_map (fun qs => (fst qs, append_node x n (snd qs))) (locate_in p c f).
Proof.
  intros Hn. revert p.
  induction f as [|e ks f IHk IHf] using forest_ind'; intros p; [reflexivity|].
  rewrite append_node_cons, !locate_in_cons.
  destruct (has_nid c e); [reflexivity|].
  unfold locate_in at 1. rewrite first_some_app.
  fold (locate_in (PElem (nid e)) c (map (append_node x n) ks)).
  rewrite IHk.
  destruct (locate_in (PElem (nid e)) c ks) as [r|]; [reflexivity|]. simpl.
  assert (first_some (locate_node (PElem (nid e)) c)
            (if has_nid x e then [n] else []) = None) as ->.
  { destruct (has_nid x e); [|reflexivity].
    apply (locate_in_none (PElem (nid e)) c [n]). exact Hn. }
  apply IHf.
Qed.

(** * Lists of elements *)

Lemma find_none_length {A} (P : A -> bool) l :
  find P l = None <-> List.length (filter P l) = 0.
Proof.
  induction l as [|a l IH]; simpl; [tauto|].
  destruct (P a); simpl; [split; [discriminate | lia] | exact IH].
Qed.

Lemma existsb_length {A} (P : A -> bool) l :
  existsb P l = true <-> 1 <= List.length (filter P l).
Proof.
  induction l as [|a l IH]; simpl; [split; [discriminate | lia]|].
  destruct (P a); simpl; [split; [lia | reflexivity] | exact IH].
Qed.

Lemma existsb_false_length {A} (P : A -> bool) l :
  existsb P l = false <-> List.length (filter P l) = 0.
Proof.
  destruct (existsb P l) eqn:E.
  - apply existsb_length in E. split; [discriminate | lia].
  - split; [|reflexivity]. intros _.
    destruct (List.length (filter P l)) eqn:L; [reflexivity|].
    assert (existsb P l = true) by (apply existsb_length; lia). congruence.
Qed.

Lemma find_map {A} (P : A -> bool) (h : A -> A) l :
  (forall a, P (h a) = P a) ->
  find P (map h l) = option_map h (find P l).
Proof.
  intros H. induction l as [|a l IH]; simpl; [reflexivity|].
  rewrite H. destruct (P a); [reflexivity | exact IH].
Qed.

Lemma find_app_none {A} (P : A -> bool) l l' :
  find P l = None -> find P (l ++ l') = find P l'.
Proof.
  induction l as [|a l IH]; simpl; [reflexivity|].
  destruct (P a); [discriminate | exact IH].
Qed.

Lemma unique_find (l : list element) e :
  (forall y, List.length (filter (has_nid y) l) <= 1) ->
  In e l -> find (has_nid (nid e)) l = Some e.
Proof.
  induction l as [|a l IH]; intros Hu Hin; [contradiction|]. simpl.
  destruct (has_nid (nid e) a) eqn:Ea.
  - destruct Hin as [-> | Hin]; [reflexivity|]. exfalso.
    specialize (Hu (nid e)). simpl in Hu. rewrite Ea in Hu. simpl in Hu.
    assert (1 <= List.length (filter (has_nid (nid e)) l)); [|lia].
    apply existsb_length, existsb_exists. exists e. split; [exact Hin|].
    apply Nat.eqb_refl.
  - destruct Hin as [-> | Hin].
    + unfold has_nid in Ea. rewrite Nat.eqb_refl in Ea. discriminate.
    + apply IH; [|exact Hin]. intros y. specialize (Hu y). simpl in Hu.
      destruct (has_nid y a); simpl in Hu; lia.
Qed.

(** * Predicates and assignments that respect identity and id *)

Lemma id_pred_has_id s : id_pred (has_id s).
Proof. intros e e' _ H. unfold has_id. rewrite H. reflexivity. Qed.

Lemma id_pred_has_nid y : id_pred (has_nid y).
Proof. intros e e' H _. unfold has_nid. rewrite H. reflexivity. Qed.

Lemma id_pred_stub P e : id_pred P -> P e = P (stub (nid e) (elem_id e)).
Proof. intros H. apply H; reflexivity. Qed.

Lemma keeps_id_pred P g e : id_pred P -> keeps_id g -> P (g e) = P e.
Proof. intros HP Hg. destruct (Hg e). apply HP; assumption. Qed.

Lemma keeps_id_tabindex v : keeps_id (set_attribute "tabindex" v).
Proof. intros e. split; reflexivity. Qed.

Lemma keeps_id_width v : keeps_id (set_width v).
Proof. intros e. split; reflexivity. Qed.

Lemma keeps_id_height v : keeps_id (set_height v).
Proof. intros e. split; reflexivity. Qed.

Lemma keeps_id_textAlign v : keeps_id (set_textAlign v).
Proof. intros e. split; reflexivity. Qed.

Lemma keeps_id_display v : keeps_id (set_display v).
Proof. intros e. split; reflexivity. Qed.

Lemma keeps_id_requestFullScreen v : keeps_id (set_requestFullScreen v).
Proof. intros e. split; reflexivity. Qed.

Lemma keeps_id_requestPointerLock v : keeps_id (set_requestPointerLock v).
Proof. intros e. split; reflexivity. Qed.

Lemma keeps_id_listeners (h : element -> list listener) :
  keeps_id (fun e => set_elem_listeners (h e) e).
Proof. intros e. split; reflexivity. Qed.

Lemma cnt_update_id P x g f :
  id_pred P -> keeps_id g -> cnt P (update_nid x g f) = cnt P f.
Proof.
  intros HP Hg. apply cnt_update. intros e. apply keeps_id_pred; assumption.
Qed.

Lemma element_by_id_assign s x g st :
  keeps_id g ->
  element_by_id s (on_body (update_nid x g) st)
  = option_map (fun e => if has_nid x e then g e else e) (element_by_id s st).
Proof.
  intros Hg. unfold element_by_id. simpl. rewrite elems_update.
  apply find_map. intros e. destruct (has_nid x e); [|reflexivity].
  apply keeps_id_pred; [apply id_pred_has_id | exact Hg].
Qed.

Lemma deref_assign y x g f :
  keeps_id g ->
  deref y (update_nid x g f)
  = option_map (fun e => if has_nid x e then g e else e) (deref y f).
Proof.
  intros Hg. unfold deref. rewrite elems_update.
  apply find_map. intros e. destruct (has_nid x e); [|reflexivity].
  apply keeps_id_pred; [apply id_pred_has_nid | exact Hg].
Qed.

Lemma element_by_id_in s st e :
  element_by_id s st = Some e ->
  In e (elems (body (doc st))) /\ elem_id e = s.
Proof.
  intros H. apply find_some in H. destruct H as [Hin He]. split; [exact Hin|].
  apply String.eqb_eq. exact He.
Qed.

Lemma deref_present x f : 1 <= cnt (has_nid x) f -> exists e, deref x f = Some e /\ nid e = x.
Proof.
  intros H. unfold deref. destruct (find (has_nid x) (elems f)) as [e|] eqn:E.
  - exists e. split; [reflexivity|]. apply find_some in E. apply Nat.eqb_eq, E.
  - apply find_none_length in E. unfold cnt in H. lia.
Qed.

Lemma in_cnt x e f : In e (elems f) -> nid e = x -> 1 <= cnt (has_nid x) f.
Proof.
  intros Hin Hx. apply existsb_length, existsb_exists. exists e.
  split; [exact Hin|]. apply Nat.eqb_eq. exact Hx.
Qed.

Lemma deref_unique st e :
  wf st -> In e (elems (body (doc st))) ->
  deref (nid e) (body (doc st)) = Some e.
Proof.
  intros Hwf Hin. apply unique_find; [|exact Hin]. apply (wf_unique _ Hwf).
Qed.

(** * getCanvas *)

Lemma getCanvas_eq st :
  getCanvas st
  = match element_by_id CANVAS_ID st with
    | Some e => Ok (nid e) (canvas_touch (nid e) st)
    | None =>
        Ok (next_nid (doc st))
           (canvas_touch (next_nid (doc st)) (canvas_created st))
    end.
Proof.
  unfold getCanvas, bind, getElementById, gets, element_by_id.
  destruct (find (has_id CANVAS_ID) (elems (body (doc st)))); reflexivity.
Qed.

Lemma elems_snoc f e : elems (f ++ [Node e []]) = elems f ++ [e].
Proof.
  unfold elems. rewrite flat_map_app. reflexivity.
Qed.

Lemma canvas_created_by_id st :
  element_by_id CANVAS_ID st = None ->
  element_by_id CANVAS_ID (canvas_created st)
  = Some (set_attribute "id" CANVAS_ID
            (new_element (next_nid (doc st)) "canvas" (proto (doc st)))).
Proof.
  intros H. unfold element_by_id, canvas_created in *. simpl.
  rewrite elems_snoc, (find_app_none _ _ _ H). reflexivity.
Qed.

Lemma canvas_touch_focused c st e :
  element_by_id CANVAS_ID st = Some e -> nid e = c ->
  canvas_focused (canvas_touch c st)
  /\ element_by_id CANVAS_ID (canvas_touch c st)
     = Some (set_attribute "tabindex" "1" e).
Proof.
  intros He Hc.
  assert (element_by_id CANVAS_ID (canvas_touch c st)
          = Some (set_attribute "tabindex" "1" e)) as Hfind.
  { unfold canvas_touch.
    change (element_by_id CANVAS_ID (on_doc ?g ?s))
      with (element_by_id CANVAS_ID s).
    rewrite element_by_id_assign by apply keeps_id_tabindex.
    rewrite He. simpl. unfold has_nid. rewrite Hc, Nat.eqb_refl. reflexivity. }
  split; [|exact Hfind].
  exists (set_attribute "tabindex" "1" e). split; [exact Hfind|].
  split; [reflexivity|]. simpl. rewrite Hc. reflexivity.
Qed.

(** [getCanvas] always returns, and leaves the canvas in the document,
    focusable and focused; the module's variables are not touched. *)
Lemma getCanvas_focused st :
  exists c st',
    getCanvas st = Ok c st'
    /\ canvas_focused st'
    /\ activeElement (doc st') = Some c
    /\ same_module st st'
    /\ (exists e, element_by_id CANVAS_ID st' = Some e /\ nid e = c)
    /\ (exists e, deref c (body (doc st')) = Some e).
Proof.
  rewrite getCanvas_eq.
  destruct (element_by_id CANVAS_ID st) as [e|] eqn:E.
  - exists (nid e), (canvas_touch (nid e) st).
    destruct (canvas_touch_focused (nid e) st e E eq_refl) as [Hf Hid].
    split; [reflexivity|]. split; [exact Hf|]. split; [reflexivity|].
    split; [repeat split|]. split.
    + eexists. split; [exact Hid | reflexivity].
    + apply element_by_id_in in Hid. destruct Hid as [Hin _].
      destruct (deref_present (nid e) (body (doc (canvas_touch (nid e) st))))
        as (e' & He' & _); [|exists e'; exact He'].
      eapply in_cnt; [exact Hin | reflexivity].
  - pose proof (canvas_created_by_id st E) as Hc.
    set (k := next_nid (doc st)) in *.
    destruct (canvas_touch_focused k (canvas_created st) _ Hc eq_refl)
      as [Hf Hid].
    exists k, (canvas_touch k (canvas_created st)).
    split; [reflexivity|]. split; [exact Hf|]. split; [reflexivity|].
    split; [repeat split|]. split.
    + eexists. split; [exact Hid | reflexivity].
    + apply element_by_id_in in Hid. destruct Hid as [Hin _].
      destruct (deref_present k (body (doc (canvas_touch k (canvas_created st)))))
        as (e' & He' & _); [|exists e'; exact He'].
      eapply in_cnt; [exact Hin | reflexivity].
Qed.

Lemma wf_assign st x g :
  wf st -> keeps_id g -> wf (on_body (update_nid x g) st).
Proof.
  intros [Hu Hf Ha] Hg. constructor; simpl.
  - intros y. rewrite cnt_update_id; [apply Hu | apply id_pred_has_nid | exact Hg].
  - intros y Hy. rewrite cnt_update_id; [apply Hf, Hy | apply id_pred_has_nid | exact Hg].
  - exact Ha.
Qed.

Lemma wf_focus st c :
  wf st -> 1 <= cnt (has_nid c) (body (doc st)) ->
  wf (on_doc (set_activeElement (Some c)) st).
Proof.
  intros [Hu Hf Ha] Hc. constructor; simpl; [exact Hu | exact Hf |].
  intros a H. injection H as <-.
  destruct (Nat.lt_ge_cases c (next_nid (doc st))) as [Hlt | Hge]; [exact Hlt|].
  specialize (Hf c Hge). lia.
Qed.

Lemma wf_canvas_touch st c :
  wf st -> 1 <= cnt (has_nid c) (body (doc st)) -> wf (canvas_touch c st).
Proof.
  intros Hwf Hc. unfold canvas_touch. apply wf_focus.
  - apply wf_assign; [exact Hwf | apply keeps_id_tabindex].
  - simpl. rewrite cnt_update_id;
      [exact Hc | apply id_pred_has_nid | apply keeps_id_tabindex].
Qed.

Lemma cnt_canvas_touch P c st :
  id_pred P ->
  cnt P (body (doc (canvas_touch c st))) = cnt P (body (doc st)).
Proof.
  intros HP. simpl. apply cnt_update_id; [exact HP | apply keeps_id_tabindex].
Qed.

Lemma cnt_snoc P f e : cnt P (f ++ [Node e []]) = cnt P f + one P e.
Proof. rewrite cnt_app, cnt_single, cnt_nil. lia. Qed.

Lemma one_has_nid y e : one (has_nid y) e = if Nat.eqb (nid e) y then 1 else 0.
Proof. reflexivity. Qed.

Lemma wf_canvas_created st : wf st -> wf (canvas_created st).
Proof.
  intros [Hu Hf Ha]. constructor; simpl.
  - intros y. rewrite cnt_snoc, one_has_nid. simpl.
    destruct (Nat.eqb_spec (next_nid (doc st)) y) as [<- | Hne].
    + rewrite Hf by lia. lia.
    + specialize (Hu y). lia.
  - intros y Hy. rewrite cnt_snoc, one_has_nid. simpl.
    destruct (Nat.eqb_spec (next_nid (doc st)) y) as [<- | Hne]; [lia|].
    rewrite Hf by lia. reflexivity.
  - intros a H. specialize (Ha a H). lia.
Qed.

Lemma cnt_id_zero s st : cnt_id s st = 0 <-> element_by_id s st = None.
Proof. unfold cnt_id, cnt, element_by_id. symmetry. apply find_none_length. Qed.

(** What [getCanvas] does to a well-formed state: it returns, the state
    stays well-formed, and the only element it may add is the canvas, when
    there was none. *)
Lemma getCanvas_spec st :
  wf st ->
  exists c st',
    getCanvas st = Ok c st'
    /\ wf st'
    /\ next_nid (doc st) <= next_nid (doc st')
    /\ c < next_nid (doc st')
    /\ 1 <= cnt (has_nid c) (body (doc st'))
    /\ canvas_focused st'
    /\ (forall P, id_pred P ->
          cnt P (body (doc st'))
          = cnt P (body (doc st))
            + if Nat.eqb (cnt_id CANVAS_ID st) 0
              then one P (stub (next_nid (doc st)) CANVAS_ID) else 0).
Proof.
  intros Hwf. rewrite getCanvas_eq.
  destruct (element_by_id CANVAS_ID st) as [e|] eqn:E.
  - assert (1 <= cnt (has_nid (nid e)) (body (doc st))) as Hc.
    { apply element_by_id_in in E. eapply in_cnt; [apply E | reflexivity]. }
    assert (cnt_id CANVAS_ID st <> 0) as Hz.
    { intros H. apply cnt_id_zero in H. congruence. }
    exists (nid e), (canvas_touch (nid e) st).
    split; [reflexivity|]. split; [apply wf_canvas_touch; assumption|].
    split; [simpl; lia|]. split.
    { destruct (Nat.lt_ge_cases (nid e) (next_nid (doc st))) as [Hlt|Hge];
        [exact Hlt|]. pose proof (wf_fresh _ Hwf _ Hge). lia. }
    split. { rewrite cnt_canvas_touch by apply id_pred_has_nid. exact Hc. }
    split. { apply (canvas_touch_focused _ _ _ E eq_refl). }
    intros P HP. rewrite cnt_canvas_touch by exact HP.
    destruct (Nat.eqb_spec (cnt_id CANVAS_ID st) 0); lia.
  - pose proof (canvas_created_by_id st E) as Hc.
    set (k := next_nid (doc st)) in *.
    assert (forall P, id_pred P ->
              cnt P (body (doc (canvas_created st)))
              = cnt P (body (doc st)) + one P (stub k CANVAS_ID)) as Hcnt.
    { intros P HP. simpl. rewrite cnt_snoc. f_equal. unfold one.
      rewrite (id_pred_stub P _ HP). reflexivity. }
    assert (cnt (has_nid k) (body (doc (canvas_created st))) = 1) as Hk.
    { rewrite Hcnt by apply id_pred_has_nid. rewrite (wf_fresh _ Hwf k) by (unfold k; lia).
      rewrite one_has_nid. simpl. rewrite Nat.eqb_refl. reflexivity. }
    exists k, (canvas_touch k (canvas_created st)).
    split; [reflexivity|].
    split; [apply wf_canvas_touch; [apply wf_canvas_created, Hwf | lia]|].
    split; [simpl; lia|]. split; [simpl; unfold k; lia|].
    split. { rewrite cnt_canvas_touch by apply id_pred_has_nid. lia. }
    split. { apply (canvas_touch_focused _ _ _ Hc eq_refl). }
    intros P HP. rewrite cnt_canvas_touch by exact HP. rewrite Hcnt by exact HP.
    apply cnt_id_zero in E. rewrite E. reflexivity.
Qed.

(** * Moving elements in the tree *)

Lemma parent_eqb_refl p : parent_eqb p p = true.
Proof. destruct p; simpl; [reflexivity | apply Nat.eqb_refl]. Qed.

Lemma locate_present c f :
  1 <= cnt (has_nid c) f -> exists p sub, locate c f = Some (p, sub).
Proof.
  intros H. unfold locate. destruct (locate_in PBody c f) as [[p sub]|] eqn:E.
  - exists p, sub. reflexivity.
  - apply locate_in_none in E. lia.
Qed.

Lemma locate_parent_attached c f p sub :
  locate c f = Some (p, sub) -> parent_attached p f = true.
Proof.
  intros H. apply locate_in_some in H. destruct H as (_ & _ & Hp).
  destruct Hp as [-> | (y & -> & Hy)]; [reflexivity|].
  simpl. apply existsb_length. fold (cnt (has_nid y) f). lia.
Qed.

(** Appending a new childless element below the parent of [c]. *)
Lemma append_at_parent c f p sub w :
  (forall y, cnt (has_nid y) f <= 1) ->
  cnt (has_nid (nid w)) f = 0 ->
  locate c f = Some (p, sub) ->
  (forall P, cnt P (append_under p (Node w []) f) = cnt P f + one P w)
  /\ exists sub2,
       locate c (append_under p (Node w []) f) = Some (p, sub2)
       /\ cnt (has_nid (nid w)) [sub2] = 0.
Proof.
  intros Hu Hw Hloc. unfold locate in *.
  pose proof (locate_in_some _ _ _ _ _ Hloc) as (Hroot & Hle & Hp).
  assert (cnt (has_nid c) [Node w []] = 0) as Hcw.
  { rewrite cnt_single, cnt_nil, one_has_nid.
    destruct (Nat.eqb_spec (nid w) c) as [<- | _]; [|reflexivity].
    exfalso. apply (locate_in_none PBody) in Hw. rewrite Hw in Hloc. discriminate. }
  destruct p as [|y]; simpl.
  - split.
    + intros P. rewrite cnt_snoc. reflexivity.
    + exists sub. unfold locate_in in *. rewrite first_some_app, Hloc.
      split; [reflexivity|]. specialize (Hle (has_nid (nid w))). lia.
  - destruct Hp as [Hp | (y' & Hy' & Hle')]; [discriminate|].
    injection Hy' as <-.
    assert (cnt (has_nid y) f = 1) as Hy1 by (specialize (Hu y); lia).
    assert (cnt (has_nid y) [sub] = 0) as Hy0 by lia.
    split.
    + intros P. rewrite cnt_append_node, Hy1, cnt_single, cnt_nil. lia.
    + exists (append_node y (Node w []) sub).
      rewrite locate_in_append_node by exact Hcw. rewrite Hloc.
      split; [reflexivity|].
      change [append_node y (Node w []) sub]
        with (map (append_node y (Node w [])) [sub]).
      rewrite cnt_append_node, Hy0. specialize (Hle (has_nid (nid w))). lia.
Qed.

(** Moving the subtree of [c] below [k], an element outside that subtree. *)
Lemma move_below c k f q sub :
  cnt (has_nid c) f <= 1 ->
  locate c f = Some (q, sub) ->
  cnt (has_nid k) f = 1 ->
  cnt (has_nid k) [sub] = 0 ->
  parent_in (PElem k) [sub] = false
  /\ parent_attached (PElem k) (remove_nid c f) = true
  /\ forall P, cnt P (append_under (PElem k) sub (remove_nid c f)) = cnt P f.
Proof.
  intros Hc Hloc Hk Hks. unfold locate in Hloc.
  pose proof (fun P => cnt_remove P _ _ _ _ _ Hc Hloc) as Hrem.
  assert (cnt (has_nid k) (remove_nid c f) = 1) as Hk'.
  { specialize (Hrem (has_nid k)). lia. }
  split; [|split].
  - simpl. apply existsb_false_length. fold (cnt (has_nid k) [sub]).
    unfold cnt, elems in *. simpl in *. exact Hks.
  - simpl. apply existsb_length. fold (cnt (has_nid k) (remove_nid c f)). lia.
  - intros P. simpl. rewrite cnt_append_node, Hk'. specialize (Hrem P). lia.
Qed.

(** Inserting a new childless element just before [c]. *)
Lemma insert_before_present c f w P :
  cnt (has_nid c) f = 1 ->
  cnt P (insert_before_nid c (Node w []) f) = cnt P f + one P w.
Proof.
  intros Hc. rewrite cnt_insert_before, Hc, cnt_single, cnt_nil. lia.
Qed.

Lemma blur_removed_lt sub a k :
  (forall x, a = Some x -> x < k) ->
  forall x, blur_removed sub a = Some x -> x < k.
Proof.
  intros H x. destruct a as [y|]; simpl; [|discriminate].
  destruct (existsb (has_nid y) (elems_node sub)); [discriminate|].
  intros E. injection E as <-. apply H. reflexivity.
Qed.

Lemma wf_bump st :
  wf st -> wf (set_doc (set_next_nid (S (next_nid (doc st))) (doc st)) st).
Proof.
  intros [Hu Hf Ha]. constructor; simpl.
  - exact Hu.
  - intros y Hy. apply Hf. lia.
  - intros a H. specialize (Ha a H). lia.
Qed.

Lemma one_stub P n s e :
  id_pred P -> nid e = n -> elem_id e = s -> one P e = one P (stub n s).
Proof.
  intros HP <- <-. unfold one. rewrite (id_pred_stub P e HP). reflexivity.
Qed.

(** * getFullScreenWrapper *)

Lemma getFullScreenWrapper_found st e :
  element_by_id WRAPPER_ID st = Some e ->
  getFullScreenWrapper st = Ok (nid e) st.
Proof.
  intros H. unfold getFullScreenWrapper, bind, getElementById, gets.
  unfold element_by_id, WRAPPER_ID in H. rewrite H. reflexivity.
Qed.

Lemma getFullScreenWrapper_spec st :
  wf st ->
  exists w st',
    getFullScreenWrapper st = Ok w st'
    /\ wf st'
    /\ next_nid (doc st) <= next_nid (doc st')
    /\ (forall P, id_pred P ->
          cnt P (body (doc st'))
          = cnt P (body (doc st))
            + if Nat.eqb (cnt_id WRAPPER_ID st) 0
              then one P (stub (next_nid (doc st)) WRAPPER_ID)
                   + (if Nat.eqb (cnt_id CANVAS_ID st) 0
                      then one P (stub (S (next_nid (doc st))) CANVAS_ID)
                      else 0)
              else 0).
Proof.
  intros Hwf.
  destruct (element_by_id WRAPPER_ID st) as [e|] eqn:E.
  - exists (nid e), st. rewrite (getFullScreenWrapper_found _ _ E).
    split; [reflexivity|]. split; [exact Hwf|]. split; [lia|].
    intros P _.
    assert (cnt_id WRAPPER_ID st <> 0) as Hz.
    { intros H. apply cnt_id_zero in H. congruence. }
    destruct (Nat.eqb_spec (cnt_id WRAPPER_ID st) 0); lia.
  - pose proof E as Ez. apply cnt_id_zero in Ez. rewrite Ez. simpl Nat.eqb.
    unfold getFullScreenWrapper, bind, getElementById, gets.
    unfold element_by_id, WRAPPER_ID in E. rewrite E.
    unfold createElement. cbn [option_map]. cbv beta iota zeta.
    set (k := next_nid (doc st)).
    set (st0 := set_doc (set_next_nid (S k) (doc st)) st).
    set (w := set_elem_id "gjs-canvas-wrapper" (new_element k "div" (proto (doc st)))).
    change (set_root (set_elem_id "gjs-canvas-wrapper")
              (Node (new_element k "div" (proto (doc st))) []))
      with (Node w []).
    change (nid (root (Node w []))) with k.
    destruct (getCanvas_spec st0 (wf_bump st Hwf))
      as (c & st1 & E1 & Hwf1 & Hn1 & Hc1 & Hcp & _ & Hcnt1).
    rewrite E1.
    assert (cnt (has_nid k) (body (doc st1)) = 0) as Hk1.
    { rewrite Hcnt1 by apply id_pred_has_nid.
      change (body (doc st0)) with (body (doc st)).
      rewrite (wf_fresh _ Hwf k) by (unfold k; lia).
      destruct (Nat.eqb (cnt_id CANVAS_ID st0) 0); [|reflexivity].
      rewrite one_has_nid.
      change (nid (stub (next_nid (doc st0)) CANVAS_ID)) with (S k).
      destruct (Nat.eqb_spec (S k) k); [lia | reflexivity]. }
    destruct (locate_present c _ Hcp) as (p & sub & Hloc).
    unfold parentNode. rewrite Hloc.
    unfold appendChild at 1. cbv beta iota.
    rewrite (locate_parent_attached _ _ _ _ Hloc).
    destruct (append_at_parent c (body (doc st1)) p sub w
                (wf_unique _ Hwf1) Hk1 Hloc) as (Hcnt2 & sub2 & Hloc2 & Hsub2).
    set (st2 := on_body (append_under p (Node w [])) st1).
    unfold appendChild.
    change (body (doc st2)) with (append_under p (Node w []) (body (doc st1))).
    rewrite Hloc2.
    assert (cnt (has_nid c) (append_under p (Node w []) (body (doc st1))) <= 1) as Hc2.
    { rewrite Hcnt2, one_has_nid. change (nid w) with k.
      destruct (Nat.eqb_spec k c) as [<- | _]; [lia|].
      pose proof (wf_unique _ Hwf1 c). lia. }
    assert (cnt (has_nid k) (append_under p (Node w []) (body (doc st1))) = 1) as Hk2.
    { rewrite Hcnt2, Hk1, one_has_nid. change (nid w) with k.
      rewrite Nat.eqb_refl. reflexivity. }
    destruct (move_below c k _ p sub2 Hc2 Hloc2 Hk2 Hsub2) as (Hin & Hatt & Hcnt3).
    rewrite Hin, Hatt.
    eexists. eexists. split; [reflexivity|].
    assert (forall P, id_pred P ->
              cnt P (append_under (PElem k) sub2
                       (remove_nid c (append_under p (Node w []) (body (doc st1)))))
              = cnt P (body (doc st)) + (one P (stub k WRAPPER_ID)
                 + (if Nat.eqb (cnt_id CANVAS_ID st) 0
                    then one P (stub (S k) CANVAS_ID) else 0))) as Hfinal.
    { intros P HP. rewrite Hcnt3, Hcnt2, (Hcnt1 P HP).
      change (body (doc st0)) with (body (doc st)).
      change (cnt_id CANVAS_ID st0) with (cnt_id CANVAS_ID st).
      change (next_nid (doc st0)) with (S k).
      rewrite (one_stub P k WRAPPER_ID w HP eq_refl eq_refl). lia. }
    split; [|split].
    + constructor; simpl.
      * intros y. rewrite Hcnt3, Hcnt2, one_has_nid. change (nid w) with k.
        destruct (Nat.eqb_spec k y) as [<- | _]; [lia|].
        pose proof (wf_unique _ Hwf1 y). lia.
      * intros y Hy. rewrite Hcnt3, Hcnt2, one_has_nid. change (nid w) with k.
        rewrite (wf_fresh _ Hwf1 y Hy).
        change (next_nid (doc st0)) with (S k) in Hn1.
        destruct (Nat.eqb_spec k y); [lia | reflexivity].
      * apply blur_removed_lt. apply (wf_active _ Hwf1).
    + simpl. change (next_nid (doc st0)) with (S k) in Hn1. lia.
    + intros P HP. simpl. apply Hfinal. exact HP.
Qed.

(** * getFullScreenToggle *)

Lemma getFullScreenToggle_found st e :
  element_by_id TOGGLE_ID st = Some e ->
  getFullScreenToggle st = Ok (nid e) st.
Proof.
  intros H. unfold getFullScreenToggle, bind, getElementById, gets.
  unfold element_by_id, TOGGLE_ID in H. rewrite H. reflexivity.
Qed.

Lemma getFullScreenToggle_spec st :
  wf st ->
  exists b st' kb,
    getFullScreenToggle st = Ok b st'
    /\ wf st'
    /\ next_nid (doc st) <= next_nid (doc st')
    /\ (forall P, id_pred P ->
          cnt P (body (doc st'))
          = cnt P (body (doc st))
            + if Nat.eqb (cnt_id TOGGLE_ID st) 0
              then one P (stub (next_nid (doc st)) TOGGLE_ID)
                   + one P (stub kb "")
                   + (if Nat.eqb (cnt_id CANVAS_ID st) 0
                      then one P (stub (S (next_nid (doc st))) CANVAS_ID)
                      else 0)
              else 0).
Proof.
  intros Hwf.
  destruct (element_by_id TOGGLE_ID st) as [e|] eqn:E.
  - exists (nid e), st, 0. rewrite (getFullScreenToggle_found _ _ E).
    split; [reflexivity|]. split; [exact Hwf|]. split; [lia|].
    intros P _.
    assert (cnt_id TOGGLE_ID st <> 0) as Hz.
    { intros H. apply cnt_id_zero in H. congruence. }
    destruct (Nat.eqb_spec (cnt_id TOGGLE_ID st) 0); lia.
  - pose proof E as Ez. apply cnt_id_zero in Ez. rewrite Ez. simpl Nat.eqb.
    unfold getFullScreenToggle, bind, getElementById, gets.
    unfold element_by_id, TOGGLE_ID in E. rewrite E.
    unfold createElement. cbn [option_map]. cbv beta iota zeta.
    set (k := next_nid (doc st)).
    set (st0 := set_doc (set_next_nid (S k) (doc st)) st).
    set (w := set_elem_id "gjs-fullscreen-toggle"
                (set_innerHTML "Fullscreen"
                   (new_element k "button" (proto (doc st))))).
    change (set_root (set_elem_id "gjs-fullscreen-toggle")
              (set_root (set_innerHTML "Fullscreen")
                 (Node (new_element k "button" (proto (doc st))) [])))
      with (Node w []).
    change (nid (root (Node w []))) with k.
    destruct (getCanvas_spec st0 (wf_bump st Hwf))
      as (c & st1 & E1 & Hwf1 & Hn1 & Hc1 & Hcp & _ & Hcnt1).
    rewrite E1.
    change (next_nid (doc st0)) with (S k) in *.
    assert (cnt (has_nid k) (body (doc st1)) = 0) as Hk1.
    { rewrite Hcnt1 by apply id_pred_has_nid.
      change (body (doc st0)) with (body (doc st)).
      rewrite (wf_fresh _ Hwf k) by (unfold k; lia).
      destruct (Nat.eqb (cnt_id CANVAS_ID st0) 0); [|reflexivity].
      rewrite one_has_nid.
      change (nid (stub (S k) CANVAS_ID)) with (S k).
      destruct (Nat.eqb_spec (S k) k); [lia | reflexivity]. }
    assert (cnt (has_nid c) (body (doc st1)) = 1) as Hc1'.
    { pose proof (wf_unique _ Hwf1 c). lia. }
    destruct (locate_present c _ Hcp) as (p & sub & Hloc).
    unfold parentNode at 1. rewrite Hloc.
    unfold insertBefore at 1. rewrite Hloc, parent_eqb_refl.
    set (b2 := insert_before_nid c (Node w []) (body (doc st1))).
    assert (forall P, cnt P b2 = cnt P (body (doc st1)) + one P w) as Hcnt2.
    { intros P. apply insert_before_present. exact Hc1'. }
    assert (cnt (has_nid c) b2 = 1) as Hc2.
    { rewrite Hcnt2, Hc1', one_has_nid. change (nid w) with k.
      destruct (Nat.eqb_spec k c) as [<- | _]; [lia | reflexivity]. }
    destruct (locate_present c b2 ltac:(lia)) as (p2 & sub2 & Hloc2).
    unfold parentNode.
    change (body (doc (on_body (insert_before_nid c (Node w [])) st1))) with b2.
    rewrite Hloc2.
    set (kb := next_nid (doc st1)).
    change (next_nid (doc (on_body (insert_before_nid c (Node w [])) st1)))
      with kb.
    change (proto (doc (on_body (insert_before_nid c (Node w [])) st1)))
      with (proto (doc st1)).
    set (br := new_element kb "br" (proto (doc st1))).
    unfold insertBefore.
    match goal with
    | |- context [locate c (body (doc ?s))] =>
        change (body (doc s)) with b2
    end.
    rewrite Hloc2, parent_eqb_refl.
    eexists. eexists. exists kb. split; [reflexivity|].
    assert (forall P, cnt P (insert_before_nid c (Node br []) b2)
                      = cnt P (body (doc st1)) + one P w + one P br) as Hcnt3.
    { intros P. rewrite insert_before_present by exact Hc2.
      rewrite Hcnt2. reflexivity. }
    split; [|split].
    + constructor; simpl.
      * intros y. rewrite Hcnt3, !one_has_nid.
        change (nid w) with k. change (nid br) with kb.
        pose proof (wf_unique _ Hwf1 y) as Hy1.
        pose proof (wf_fresh _ Hwf1 kb (Nat.le_refl _)) as Hkb.
        destruct (Nat.eqb_spec k y) as [Hky | _];
          destruct (Nat.eqb_spec kb y) as [Hkby | _];
          try (rewrite <- Hky in * ); try (rewrite <- Hkby in * );
          unfold kb in *; lia.
      * intros y Hy. rewrite Hcnt3, !one_has_nid.
        change (nid w) with k. change (nid br) with kb.
        rewrite (wf_fresh _ Hwf1 y) by (fold kb; lia).
        destruct (Nat.eqb_spec k y); destruct (Nat.eqb_spec kb y);
          unfold kb in *; lia.
      * intros a H. pose proof (wf_active _ Hwf1 a H). fold kb in H0. lia.
    + simpl. fold kb. unfold kb. lia.
    + intros P HP. simpl. rewrite Hcnt3, (Hcnt1 P HP).
      change (body (doc st0)) with (body (doc st)).
      change (cnt_id CANVAS_ID st0) with (cnt_id CANVAS_ID st).
      rewrite (one_stub P k TOGGLE_ID w HP eq_refl eq_refl).
      rewrite (one_stub P kb "" br HP eq_refl eq_refl). lia.
Qed.

(** * init *)

Lemma canvas_focused_assign st x g :
  canvas_focused st -> keeps_id g -> (forall e, tabindex (g e) = tabindex e) ->
  canvas_focused (on_body (update_nid x g) st).
Proof.
  intros (e & He & Ht & Ha) Hg Htab.
  exists (if has_nid x e then g e else e).
  rewrite element_by_id_assign by exact Hg. rewrite He.
  split; [reflexivity|]. split.
  - destruct (has_nid x e); [rewrite Htab|]; exact Ht.
  - simpl. rewrite Ha. destruct (has_nid x e); [|reflexivity].
    destruct (Hg e) as [-> _]. reflexivity.
Qed.

Lemma one_has_id_stub s n s' :
  one (has_id s) (stub n s') = if String.eqb s' s then 1 else 0.
Proof. reflexivity. Qed.

(** On a well-formed state [init] returns; afterwards the state is still
    well-formed, the canvas has the focus, and each of the three elements
    exists: one was added where there was none, none where there was one. *)
Lemma init_spec st :
  wf st ->
  exists st',
    init st = Ok tt st'
    /\ wf st'
    /\ canvas_focused st'
    /\ cnt_id CANVAS_ID st' = Nat.max 1 (cnt_id CANVAS_ID st)
    /\ cnt_id WRAPPER_ID st' = Nat.max 1 (cnt_id WRAPPER_ID st)
    /\ cnt_id TOGGLE_ID st' = Nat.max 1 (cnt_id TOGGLE_ID st).
Proof.
  intros Hwf. unfold init, bind.
  destruct (getFullScreenWrapper_spec st Hwf) as (w & st1 & E1 & Hwf1 & _ & Hcnt1).
  rewrite E1.
  destruct (getFullScreenToggle_spec st1 Hwf1)
    as (b & st2 & kb & E2 & Hwf2 & _ & Hcnt2).
  rewrite E2.
  unfold new_closure, addEventListener, document_addEventListener, assign, modify.
  set (g := fun e : element =>
              set_elem_listeners
                (add_listener ("click", CbToggleClick (closures st2))
                   (elem_listeners e)) e).
  set (st3 := on_doc _ (on_doc _ (on_doc _
                (on_body (update_nid b g) (set_closures _ st2))))).
  assert (wf st3) as Hwf3.
  { assert (wf (on_body (update_nid b g) st2)) as [Hu Hf Ha].
    { apply wf_assign; [exact Hwf2 | apply keeps_id_listeners]. }
    constructor; [exact Hu | exact Hf | exact Ha]. }
  assert (forall P, id_pred P ->
            cnt P (body (doc st3)) = cnt P (body (doc st2))) as Hcnt3.
  { intros P HP. simpl. apply cnt_update_id; [exact HP | apply keeps_id_listeners]. }
  destruct (getCanvas_spec st3 Hwf3)
    as (c & st4 & E4 & Hwf4 & _ & _ & _ & Hfoc4 & Hcnt4).
  rewrite E4. unfold getElementById, gets.
  assert (exists st5,
            match option_map nid
                    (find (has_id "gjs-loader") (elems (body (doc st4)))) with
            | Some l => fun s => Ok tt (on_body (update_nid l (set_display (Some "none"))) s)
            | None => ret tt
            end st4 = Ok tt st5
            /\ wf st5 /\ canvas_focused st5
            /\ forall P, id_pred P ->
                 cnt P (body (doc st5)) = cnt P (body (doc st4)))
    as (st5 & E5 & Hwf5 & Hfoc5 & Hcnt5).
  { destruct (find (has_id "gjs-loader") (elems (body (doc st4)))) as [l|];
      cbn [option_map].
    - eexists. split; [reflexivity|]. split; [|split].
      + apply wf_assign; [exact Hwf4 | apply keeps_id_display].
      + apply canvas_focused_assign;
          [exact Hfoc4 | apply keeps_id_display | reflexivity].
      + intros P HP. simpl.
        apply cnt_update_id; [exact HP | apply keeps_id_display].
    - exists st4. split; [reflexivity|]. split; [exact Hwf4|].
      split; [exact Hfoc4|]. reflexivity. }
  exists st5. split; [exact E5|]. split; [exact Hwf5|]. split; [exact Hfoc5|].
  unfold cnt_id in *.
  pose proof (Hcnt1 _ (id_pred_has_id CANVAS_ID)) as C1.
  pose proof (Hcnt1 _ (id_pred_has_id WRAPPER_ID)) as W1.
  pose proof (Hcnt1 _ (id_pred_has_id TOGGLE_ID)) as T1.
  pose proof (Hcnt2 _ (id_pred_has_id CANVAS_ID)) as C2.
  pose proof (Hcnt2 _ (id_pred_has_id WRAPPER_ID)) as W2.
  pose proof (Hcnt2 _ (id_pred_has_id TOGGLE_ID)) as T2.
  pose proof (Hcnt4 _ (id_pred_has_id CANVAS_ID)) as C4.
  pose proof (Hcnt4 _ (id_pred_has_id WRAPPER_ID)) as W4.
  pose proof (Hcnt4 _ (id_pred_has_id TOGGLE_ID)) as T4.
  rewrite !(Hcnt5 _ (id_pred_has_id _)).
  rewrite !(Hcnt3 _ (id_pred_has_id _)) in *.
  rewrite !one_has_id_stub in *.
  change (String.eqb WRAPPER_ID CANVAS_ID) with false in *.
  change (String.eqb WRAPPER_ID WRAPPER_ID) with true in *.
  change (String.eqb WRAPPER_ID TOGGLE_ID) with false in *.
  change (String.eqb CANVAS_ID CANVAS_ID) with true in *.
  change (String.eqb CANVAS_ID WRAPPER_ID) with false in *.
  change (String.eqb CANVAS_ID TOGGLE_ID) with false in *.
  change (String.eqb TOGGLE_ID CANVAS_ID) with false in *.
  change (String.eqb TOGGLE_ID WRAPPER_ID) with false in *.
  change (String.eqb TOGGLE_ID TOGGLE_ID) with true in *.
  change (String.eqb "" CANVAS_ID) with false in *.
  change (String.eqb "" WRAPPER_ID) with false in *.
  change (String.eqb "" TOGGLE_ID) with false in *.
  cbv beta iota in *.
  repeat match goal with
         | H : context [Nat.eqb ?a 0] |- _ => destruct (Nat.eqb_spec a 0)
         end; lia.
Qed.

(** * What the DOM-facing functions leave alone *)

(** The functions that work on the document change its tree, the focus and
    the identities handed out, log requests to the platform and allocate
    closures.  A component of the state that depends on none of these is
    kept by all of them. *)
Section keeps.
Context {B : Type} (proj : state -> B).
Hypothesis proj_dom : forall b a n st,
  proj (set_doc
          (set_next_nid n (set_activeElement a (set_body b (doc st)))) st)
  = proj st.
Hypothesis proj_requests : forall fs pl st,
  proj (set_doc
          (set_pointerLockRequests pl (set_fullscreenRequests fs (doc st))) st)
  = proj st.
Hypothesis proj_closures : forall n st, proj (set_closures n st) = proj st.

Lemma keeps_bind {A C} (m : M A) (k : A -> M C) :
  keeps proj m -> (forall a, keeps proj (k a)) -> keeps proj (bind m k).
Proof.
  intros Hm Hk st. unfold bind. specialize (Hm st).
  destruct (m st) as [a s'|e s']; simpl in *; [|exact Hm].
  rewrite (Hk a s'). exact Hm.
Qed.

Lemma keeps_ret {A} (a : A) : keeps proj (ret a).
Proof. intros st. reflexivity. Qed.

Lemma keeps_gets {A} (f : state -> A) : keeps proj (gets f).
Proof. intros st. reflexivity. Qed.

Lemma proj_on_body g st : proj (on_body g st) = proj st.
Proof.
  exact (proj_dom (g (body (doc st))) (activeElement (doc st))
           (next_nid (doc st)) st).
Qed.

Lemma keeps_assign x g : keeps proj (assign x g).
Proof. intros st. apply proj_on_body. Qed.

Lemma keeps_focus x : keeps proj (focus x).
Proof.
  intros st.
  exact (proj_dom (body (doc st)) (Some x) (next_nid (doc st)) st).
Qed.

Lemma keeps_prop {A} (get : element -> A) x : keeps proj (prop get x).
Proof.
  intros st. unfold prop. destruct (deref x (body (doc st))); reflexivity.
Qed.

Lemma keeps_getContext x kind : keeps proj (getContext x kind).
Proof.
  intros st. unfold getContext. destruct (deref x (body (doc st))) as [e|];
    [destruct (is_canvas e)|]; reflexivity.
Qed.

Lemma keeps_getElementById s : keeps proj (getElementById s).
Proof. intros st. reflexivity. Qed.

Lemma keeps_createElement tag : keeps proj (createElement tag).
Proof.
  intros st.
  exact (proj_dom (body (doc st)) (activeElement (doc st))
           (S (next_nid (doc st))) st).
Qed.

Lemma keeps_parentNode x : keeps proj (parentNode x).
Proof.
  intros st. unfold parentNode.
  destruct (locate x (body (doc st))) as [[p sub]|]; reflexivity.
Qed.

Lemma keeps_appendChild p c : keeps proj (appendChild p c).
Proof.
  intros st. unfold appendChild. destruct c as [n|x].
  - destruct (parent_attached p (body (doc st)));
      [apply proj_on_body | reflexivity].
  - destruct (locate x (body (doc st))) as [[q sub]|]; [|reflexivity].
    destruct (parent_in p [sub]); [reflexivity|].
    destruct (parent_attached p (remove_nid x (body (doc st))));
      [|reflexivity].
    exact (proj_dom (append_under p sub (remove_nid x (body (doc st))))
             (blur_removed sub (activeElement (doc st)))
             (next_nid (doc st)) st).
Qed.

Lemma keeps_insertBefore p n r : keeps proj (insertBefore p n r).
Proof.
  intros st. unfold insertBefore.
  destruct (locate r (body (doc st))) as [[q sub]|]; [|reflexivity].
  destruct (parent_eqb p q); [apply proj_on_body | reflexivity].
Qed.

Lemma keeps_new_closure : keeps proj new_closure.
Proof. intros st. apply proj_closures. Qed.

Lemma keeps_request_fullscreen x :
  keeps proj
    (modify (on_doc (fun d =>
       set_fullscreenRequests (fullscreenRequests d ++ [x]) d))).
Proof.
  intros st.
  exact (proj_requests (fullscreenRequests (doc st) ++ [x])
           (pointerLockRequests (doc st)) st).
Qed.

Lemma keeps_request_pointer_lock x :
  keeps proj
    (modify (on_doc (fun d =>
       set_pointerLockRequests (pointerLockRequests d ++ [x]) d))).
Proof.
  intros st.
  exact (proj_requests (fullscreenRequests (doc st))
           (pointerLockRequests (doc st) ++ [x]) st).
Qed.

Ltac keeps_step :=
  first
    [ apply keeps_bind; [|intros]
    | apply keeps_ret
    | apply keeps_gets
    | apply keeps_assign
    | apply keeps_focus
    | apply keeps_prop
    | apply keeps_getElementById
    | apply keeps_createElement
    | apply keeps_parentNode
    | apply keeps_appendChild
    | apply keeps_insertBefore
    | apply keeps_new_closure
    | apply keeps_request_fullscreen
    | apply keeps_request_pointer_lock
    | match goal with
      | |- keeps _ (match ?x with _ => _ end) => destruct x
      end ].

Lemma keeps_getCanvas : keeps proj getCanvas.
Proof.
  unfold getCanvas, setAttribute. cbv zeta. repeat keeps_step.
Qed.

Lemma keeps_getFullScreenToggle : keeps proj getFullScreenToggle.
Proof.
  unfold getFullScreenToggle. cbv zeta.
  repeat first [apply keeps_getCanvas | keeps_step].
Qed.

Lemma keeps_getFullScreenWrapper : keeps proj getFullScreenWrapper.
Proof.
  unfold getFullScreenWrapper. cbv zeta.
  repeat first [apply keeps_getCanvas | keeps_step].
Qed.

Lemma keeps_enableFullScreen : keeps proj enableFullScreen.
Proof.
  unfold enableFullScreen.
  repeat first [apply keeps_getFullScreenWrapper | keeps_step].
Qed.

Lemma keeps_enablePointerLock : keeps proj enablePointerLock.
Proof.
  unfold enablePointerLock.
  repeat first [apply keeps_getFullScreenWrapper | keeps_step].
Qed.

Lemma keeps__hasFocus : keeps proj _hasFocus.
Proof. unfold _hasFocus. repeat first [apply keeps_getCanvas | keeps_step]. Qed.

Lemma keeps__getCanvasOffset : keeps proj _getCanvasOffset.
Proof.
  unfold _getCanvasOffset. repeat first [apply keeps_getCanvas | keeps_step].
Qed.

(** [init] also registers listeners on the document. *)
Section keeps_init.
Hypothesis proj_listeners : forall ls st,
  proj (set_doc (set_doc_listeners ls (doc st)) st) = proj st.

Lemma keeps_document_addEventListener type cb :
  keeps proj (document_addEventListener type cb).
Proof. intros st. apply proj_listeners. Qed.

Lemma keeps_init : keeps proj init.
Proof.
  unfold init, addEventListener.
  repeat first [ apply keeps_getFullScreenWrapper
               | apply keeps_getFullScreenToggle
               | apply keeps_getCanvas
               | apply keeps_document_addEventListener
               | keeps_step ].
Qed.
End keeps_init.

(** The change handler also writes [oldWrapperTextAlign]. *)
Section keeps_fullScreenChange.
Hypothesis proj_old : forall a st, proj (set_oldWrapperTextAlign a st) = proj st.

Lemma keeps_fullScreenChange : keeps proj fullScreenChange.
Proof.
  unfold fullScreenChange, isFullScreen.
  repeat first [ apply keeps_getFullScreenWrapper
               | apply keeps_enablePointerLock
               | keeps_step
               | intros st; apply proj_old ].
Qed.

Lemma keeps_run_callback cb : keeps proj (run_callback cb).
Proof.
  destruct cb; simpl;
    [apply keeps_fullScreenChange|].
  apply keeps_bind; [apply keeps_enableFullScreen | intros; apply keeps_ret].
Qed.

Lemma deliver_keeps type ls st : proj (deliver type ls st) = proj st.
Proof.
  revert st. induction ls as [|[t cb] ls IH]; intros st; simpl; [reflexivity|].
  destruct (String.eqb t type); rewrite IH; [apply keeps_run_callback | reflexivity].
Qed.
End keeps_fullScreenChange.

(** [getSurface] and [setMode] also write the Surface variables. *)
Section keeps_getSurface.
Hypothesis proj_SURFACE : forall v st, proj (set_SURFACE v st) = proj st.
Hypothesis proj_surfaces : forall v st, proj (set_surfaces v st) = proj st.
Hypothesis proj_smoothing :
  forall v st, proj (set__SURFACE_SMOOTHING v st) = proj st.

Lemma keeps_surface_assign r g : keeps proj (surface_assign r g).
Proof. intros st. apply proj_surfaces. Qed.

Lemma keeps_the_SURFACE : keeps proj the_SURFACE.
Proof. unfold the_SURFACE, throw. repeat keeps_step. intros st. reflexivity. Qed.

Lemma keeps_getSurface : keeps proj getSurface.
Proof.
  unfold getSurface, Surface_smooth, Surface_noSmooth.
  repeat first [ apply keeps_getCanvas
               | apply keeps_getContext
               | apply keeps_the_SURFACE
               | apply keeps_surface_assign
               | keeps_step
               | intros st; apply proj_surfaces
               | intros st; apply proj_SURFACE ].
Qed.

Lemma keeps_setMode d f : keeps proj (setMode d f).
Proof.
  unfold setMode.
  repeat first [ apply keeps_getCanvas
               | apply keeps_getSurface
               | keeps_step
               | intros st; apply proj_smoothing ].
Qed.
End keeps_getSurface.
End keeps.

(** * getSurface *)

Lemma update_at_last {A} (g : A -> A) l a :
  update_at (List.length l) g (l ++ [a]) = l ++ [g a].
Proof.
  induction l as [|b l IH]; [reflexivity|].
  unfold update_at in *. simpl. f_equal. exact IH.
Qed.

Lemma prop_found {A} (get : element -> A) x st e :
  deref x (body (doc st)) = Some e -> prop get x st = Ok (get e) st.
Proof. intros H. unfold prop. rewrite H. reflexivity. Qed.

Lemma getSurface_cached st r :
  SURFACE st = Some r -> getSurface st = Ok (Some r) st.
Proof.
  intros H. unfold getSurface, bind, gets. rewrite H. simpl. rewrite H.
  reflexivity.
Qed.

(** What [getCanvas] returns on a page whose canvas is a canvas. *)
Lemma getCanvas_usable st :
  wf st ->
  canvas_usable st = true ->
  exists c st1 e,
    getCanvas st = Ok c st1
    /\ element_by_id CANVAS_ID st1 = Some e
    /\ nid e = c
    /\ deref c (body (doc st1)) = Some e
    /\ is_canvas e = true.
Proof.
  intros Hwf Hu.
  destruct (getCanvas_spec st Hwf) as (c & st1 & E1 & Hwf1 & _).
  exists c, st1. rewrite E1. rewrite getCanvas_eq in E1.
  unfold canvas_usable in Hu.
  destruct (element_by_id CANVAS_ID st) as [e0|] eqn:E0.
  - injection E1 as <- <-.
    destruct (canvas_touch_focused (nid e0) st e0 E0 eq_refl) as [_ Hid].
    exists (set_attribute "tabindex" "1" e0).
    split; [reflexivity|]. split; [exact Hid|]. split; [reflexivity|].
    split; [|exact Hu].
    apply (deref_unique _ (set_attribute "tabindex" "1" e0) Hwf1).
    apply (element_by_id_in _ _ _ Hid).
  - injection E1 as <- <-.
    pose proof (canvas_created_by_id st E0) as Hc.
    destruct (canvas_touch_focused (next_nid (doc st)) (canvas_created st) _
                Hc eq_refl) as [_ Hid].
    eexists. split; [reflexivity|]. split; [exact Hid|].
    split; [reflexivity|]. split; [|reflexivity].
    match type of Hid with
    | _ = Some ?e => apply (deref_unique _ e Hwf1)
    end.
    apply (element_by_id_in _ _ _ Hid).
Qed.

(** [getSurface] without a Surface yet.  On a canvas it returns the new
    Surface, complete; on any other element it throws at [getContext] and
    leaves the Surface sized and bound to the element, without a context
    and without smoothing. *)
Lemma getSurface_fresh_cases st :
  SURFACE st = None ->
  exists c st1 e,
    getCanvas st = Ok c st1
    /\ deref c (body (doc st1)) = Some e
    /\ getSurface st
       = if is_canvas e
         then Ok (Some (List.length (surfaces st)))
                (set_surfaces
                   (surfaces st ++ [fresh_surface c e (_SURFACE_SMOOTHING st)])
                   (set_SURFACE (Some (List.length (surfaces st))) st1))
         else Throw TypeError
                (set_surfaces
                   (surfaces st
                      ++ [mkSurface [JNum (clientWidth e); JNum (clientHeight e)]
                            (Some c) None None])
                   (set_SURFACE (Some (List.length (surfaces st))) st1)).
Proof.
  intros H.
  destruct (getCanvas_focused st) as (c & st1 & E1 & _ & _ & Hsame & _ & e & He).
  exists c, st1, e. split; [exact E1|]. split; [exact He|].
  destruct Hsame as (_ & Hsm & _ & Hsurf & _).
  unfold getSurface, bind, gets. rewrite H, E1.
  rewrite !(prop_found _ _ _ _ He).
  unfold new_Surface, modify, the_SURFACE, bind, gets, getContext, ret,
    surface_assign, modify.
  cbn [SURFACE set_SURFACE set_surfaces surfaces _SURFACE_SMOOTHING doc].
  rewrite He, <- Hsurf, update_at_last.
  destruct (is_canvas e); [|reflexivity].
  cbn [SURFACE set_SURFACE set_surfaces surfaces _SURFACE_SMOOTHING doc].
  rewrite <- Hsm, update_at_last.
  destruct (_SURFACE_SMOOTHING st);
    unfold Surface_smooth, Surface_noSmooth, surface_assign, modify;
    cbn [SURFACE set_SURFACE set_surfaces surfaces _SURFACE_SMOOTHING];
    rewrite !update_at_last; reflexivity.
Qed.

Lemma getSurface_fresh st :
  wf st ->
  canvas_usable st = true ->
  SURFACE st = None ->
  exists c st1 e,
    getCanvas st = Ok c st1
    /\ deref c (body (doc st1)) = Some e
    /\ getSurface st
       = Ok (Some (List.length (surfaces st)))
            (set_surfaces
               (surfaces st ++ [fresh_surface c e (_SURFACE_SMOOTHING st)])
               (set_SURFACE (Some (List.length (surfaces st))) st1)).
Proof.
  intros Hwf Hu H.
  destruct (getSurface_fresh_cases st H) as (c & st1 & e & E1 & He & Hs).
  destruct (getCanvas_usable st Hwf Hu) as (c' & st1' & e' & E1' & _ & _ & He' & Hc).
  rewrite E1 in E1'. injection E1' as <- <-.
  rewrite He in He'. injection He' as <-.
  rewrite Hc in Hs. exists c, st1, e.
  split; [exact E1|]. split; [exact He | exact Hs].
Qed.

(** Whether it returns or throws, [getSurface] leaves the global referring
    to a Surface: the one it referred to, or one newly allocated. *)
Lemma getSurface_final st :
  match SURFACE st with
  | Some r => final (getSurface st) = st
  | None =>
      SURFACE (final (getSurface st)) = Some (List.length (surfaces st))
      /\ exists s, surfaces (final (getSurface st)) = surfaces st ++ [s]
  end.
Proof.
  destruct (SURFACE st) as [r|] eqn:E.
  - rewrite (getSurface_cached st r E). reflexivity.
  - destruct (getSurface_fresh_cases st E) as (c & st1 & e & _ & _ & Hs).
    rewrite Hs. destruct (is_canvas e); cbn [final];
      (split; [reflexivity | eexists; reflexivity]).
Qed.

(** On a page whose canvas is a canvas, [getSurface] returns the Surface
    the global refers to, and the global refers to one afterwards. *)
Lemma getSurface_total st :
  wf st ->
  canvas_usable st = true ->
  exists r st', getSurface st = Ok (Some r) st' /\ SURFACE st' = Some r.
Proof.
  intros Hwf Hu. destruct (SURFACE st) as [r|] eqn:E.
  - exists r, st. split; [apply getSurface_cached; exact E | exact E].
  - destruct (getSurface_fresh st Hwf Hu E) as (c & st1 & e & _ & _ & Hs).
    eexists. eexists. split; [exact Hs | reflexivity].
Qed.

Lemma setMode_cached d f st r :
  SURFACE st = Some r ->
  exists st', setMode d f st = Ok (Some r) st' /\ SURFACE st' = Some r
              /\ surfaces st' = surfaces st.
Proof.
  intros H. unfold setMode, bind.
  destruct (getCanvas_focused st) as (c & st1 & E1 & _ & _ & Hsame & _).
  rewrite E1. unfold assign, modify.
  destruct Hsame as (HS & _ & _ & Hsurf & _).
  eexists. split.
  - apply getSurface_cached. simpl. rewrite <- HS. exact H.
  - split; simpl; [rewrite <- HS; exact H | symmetry; exact Hsurf].
Qed.

(** * The Surface is a singleton *)

Lemma SURFACE_step o st r : SURFACE st = Some r -> SURFACE (step o st) = Some r.
Proof.
  intros H. destruct o; simpl.
  - rewrite (keeps_init SURFACE); [exact H | reflexivity ..].
  - destruct (setMode_cached dimensions flags st r H) as (st' & E & H' & _).
    rewrite E. exact H'.
  - exact H.
  - rewrite (getSurface_cached st r H). exact H.
  - rewrite (keeps__hasFocus SURFACE); [exact H | reflexivity ..].
  - exact H.
  - rewrite (keeps__getCanvasOffset SURFACE); [exact H | reflexivity ..].
  - unfold click_toggle.
    destruct (find (has_id TOGGLE_ID) (elems (body (doc st)))); [|exact H].
    rewrite (deliver_keeps SURFACE); [exact H | reflexivity ..].
  - rewrite (deliver_keeps SURFACE); [exact H | reflexivity ..].
  - exact H.
  - unfold user_focus. destruct target as [x|]; [|exact H].
    destruct (existsb (has_nid x) (elems (body (doc st)))); exact H.
Qed.

Lemma SURFACE_run ops st r : SURFACE st = Some r -> SURFACE (run ops st) = Some r.
Proof.
  revert st. induction ops as [|o ops IH]; intros st H; [exact H|].
  simpl. apply IH, SURFACE_step, H.
Qed.

(** C1. On a page whose canvas is a canvas, [getSurface] returns the
    Surface the global [SURFACE] refers to afterwards: the one it referred
    to before, with nothing changed, or one allocated by this call.  Every
    later call of [getSurface], after any run of the program, returns that
    same object and changes nothing, and so does the [getSurface] inside
    [setMode]. *)
Theorem getSurface_singleton st ops :
  wf st ->
  canvas_usable st = true ->
  exists r st1,
    getSurface st = Ok (Some r) st1
    /\ SURFACE st1 = Some r
    /\ match SURFACE st with
       | Some r0 => r = r0 /\ st1 = st
       | None =>
           r = List.length (surfaces st)
           /\ exists s, surfaces st1 = surfaces st ++ [s]
       end
    /\ SURFACE (run ops st1) = Some r
    /\ getSurface (run ops st1) = Ok (Some r) (run ops st1)
    /\ forall d f,
         exists st2,
           setMode d f (run ops st1) = Ok (Some r) st2
           /\ SURFACE st2 = Some r.
Proof.
  intros Hwf Hu.
  assert (exists r st1,
            getSurface st = Ok (Some r) st1
            /\ SURFACE st1 = Some r
            /\ match SURFACE st with
               | Some r0 => r = r0 /\ st1 = st
               | None =>
                   r = List.length (surfaces st)
                   /\ exists s, surfaces st1 = surfaces st ++ [s]
               end) as (r & st1 & E & H & Hm).
  { destruct (SURFACE st) as [r0|] eqn:ES.
    - exists r0, st. split; [apply getSurface_cached, ES|].
      split; [exact ES|]. split; reflexivity.
    - destruct (getSurface_fresh st Hwf Hu ES) as (c & st1 & e & _ & _ & Hs).
      eexists. eexists. split; [exact Hs|]. split; [reflexivity|].
      split; [reflexivity|]. eexists. reflexivity. }
  exists r, st1. split; [exact E|]. split; [exact H|]. split; [exact Hm|].
  pose proof (SURFACE_run ops st1 r H) as Hrun. split; [exact Hrun|]. split.
  - apply getSurface_cached, Hrun.
  - intros d f. destruct (setMode_cached d f _ r Hrun) as (st2 & E2 & H2 & _).
    exists st2. split; [exact E2 | exact H2].
Qed.

(** * setMode *)

Lemma is_canvas_set_width v e : is_canvas (set_width v e) = is_canvas e.
Proof. reflexivity. Qed.

Lemma is_canvas_set_height v e : is_canvas (set_height v e) = is_canvas e.
Proof. reflexivity. Qed.

(** The state [setMode] hands to [getSurface]: the canvas resized and the
    smoothing flag set. *)
Lemma setMode_steps w h flags st :
  exists c st1 e1,
    getCanvas st = Ok c st1
    /\ same_module st st1
    /\ element_by_id CANVAS_ID st1 = Some e1
    /\ nid e1 = c
    /\ setMode [w; h] flags st
       = getSurface
           (set__SURFACE_SMOOTHING (negb (strict_eq flags DISABLE_SMOOTHING))
              (on_body (update_nid c (set_height h))
                 (on_body (update_nid c (set_width w)) st1)))
    /\ element_by_id CANVAS_ID
         (set__SURFACE_SMOOTHING (negb (strict_eq flags DISABLE_SMOOTHING))
            (on_body (update_nid c (set_height h))
               (on_body (update_nid c (set_width w)) st1)))
       = Some (set_height h (set_width w e1)).
Proof.
  destruct (getCanvas_focused st)
    as (c & st1 & E1 & _ & _ & Hsame & (e1 & Hid1 & Hn1) & _).
  exists c, st1, e1. split; [exact E1|]. split; [exact Hsame|].
  split; [exact Hid1|]. split; [exact Hn1|]. split.
  - unfold setMode, bind. rewrite E1. reflexivity.
  - change (element_by_id CANVAS_ID (set__SURFACE_SMOOTHING ?b ?s))
      with (element_by_id CANVAS_ID s).
    rewrite !element_by_id_assign by (apply keeps_id_height || apply keeps_id_width).
    rewrite Hid1. unfold has_nid. cbn [option_map].
    rewrite Hn1, Nat.eqb_refl. cbn [nid set_width].
    rewrite Hn1, Nat.eqb_refl. reflexivity.
Qed.

(** On a well-formed page whose canvas is a canvas, that state is again
    such a page. *)
Lemma setMode_steps_usable w h flags st :
  wf st ->
  canvas_usable st = true ->
  exists c st1 e1,
    getCanvas st = Ok c st1
    /\ same_module st st1
    /\ element_by_id CANVAS_ID st1 = Some e1
    /\ nid e1 = c
    /\ is_canvas e1 = true
    /\ setMode [w; h] flags st
       = getSurface
           (set__SURFACE_SMOOTHING (negb (strict_eq flags DISABLE_SMOOTHING))
              (on_body (update_nid c (set_height h))
                 (on_body (update_nid c (set_width w)) st1)))
    /\ element_by_id CANVAS_ID
         (set__SURFACE_SMOOTHING (negb (strict_eq flags DISABLE_SMOOTHING))
            (on_body (update_nid c (set_height h))
               (on_body (update_nid c (set_width w)) st1)))
       = Some (set_height h (set_width w e1))
    /\ wf (set__SURFACE_SMOOTHING (negb (strict_eq flags DISABLE_SMOOTHING))
            (on_body (update_nid c (set_height h))
               (on_body (update_nid c (set_width w)) st1)))
    /\ canvas_usable
         (set__SURFACE_SMOOTHING (negb (strict_eq flags DISABLE_SMOOTHING))
            (on_body (update_nid c (set_height h))
               (on_body (update_nid c (set_width w)) st1)))
       = true.
Proof.
  intros Hwf Hu.
  destruct (setMode_steps w h flags st)
    as (c & st1 & e1 & E1 & Hsame & Hid1 & Hn1 & Eset & Hid4).
  destruct (getCanvas_usable st Hwf Hu)
    as (c' & st1' & e1' & E1' & Hid1' & _ & _ & Hc).
  rewrite E1 in E1'. injection E1' as <- <-.
  rewrite Hid1 in Hid1'. injection Hid1' as <-.
  destruct (getCanvas_spec st Hwf) as (c2 & st2 & E2 & Hwf1 & _).
  rewrite E1 in E2. injection E2 as <- <-.
  exists c, st1, e1. split; [exact E1|]. split; [exact Hsame|].
  split; [exact Hid1|]. split; [exact Hn1|]. split; [exact Hc|].
  split; [exact Eset|]. split; [exact Hid4|]. split.
  - assert (wf (on_body (update_nid c (set_height h))
                  (on_body (update_nid c (set_width w)) st1))) as [Hu' Hf' Ha'].
    { apply wf_assign; [|apply keeps_id_height].
      apply wf_assign; [exact Hwf1 | apply keeps_id_width]. }
    constructor; [exact Hu' | exact Hf' | exact Ha'].
  - unfold canvas_usable. rewrite Hid4. exact Hc.
Qed.

Lemma canvas_size_in_range default n :
  (0 <= n <= 2147483647)%Z -> canvas_size default (JNum n) = n.
Proof.
  intros H. unfold canvas_size, to_uint32.
  rewrite Z.mod_small by (change (2 ^ 32)%Z with 4294967296%Z; lia).
  destruct (Z.leb_spec n 2147483647); [reflexivity | lia].
Qed.

(** What [setMode] does, and which Surface it returns. *)
Lemma setMode_spec w h flags st :
  wf st ->
  canvas_usable st = true ->
  exists r st' c,
    setMode [w; h] flags st = Ok (Some r) st'
    /\ element_by_id CANVAS_ID st' = Some c
    /\ width c = JNum (canvas_size 300 w)
    /\ height c = JNum (canvas_size 150 h)
    /\ _SURFACE_SMOOTHING st' = negb (strict_eq flags DISABLE_SMOOTHING)
    /\ SURFACE st' = Some r
    /\ match SURFACE st with
       | Some r0 => r = r0 /\ surfaces st' = surfaces st
       | None =>
           r = List.length (surfaces st)
           /\ List.length (surfaces st') = S (List.length (surfaces st))
       end.
Proof.
  intros Hwf Hu.
  destruct (setMode_steps_usable w h flags st Hwf Hu)
    as (c & st1 & e1 & E1 & Hsame & Hid1 & Hn1 & Hc & Eset & Hid4 & Hwf4 & Hu4).
  set (st4 := set__SURFACE_SMOOTHING _ _) in *.
  destruct Hsame as (HS & _ & _ & Hsurf & _).
  assert (SURFACE st4 = SURFACE st) as HS4 by (symmetry; exact HS).
  assert (surfaces st4 = surfaces st) as Hsurf4 by (symmetry; exact Hsurf).
  assert (width (set_height h (set_width w e1)) = JNum (canvas_size 300 w)) as Hw.
  { cbn [width set_height set_width]. rewrite Hc. reflexivity. }
  assert (height (set_height h (set_width w e1)) = JNum (canvas_size 150 h)) as Hh.
  { cbn [height set_height]. rewrite is_canvas_set_width, Hc. reflexivity. }
  rewrite Eset. destruct (SURFACE st) as [r0|] eqn:ES.
  - exists r0, st4, (set_height h (set_width w e1)).
    split; [apply getSurface_cached; exact HS4|]. split; [exact Hid4|].
    split; [exact Hw|]. split; [exact Hh|].
    repeat split; try reflexivity; assumption.
  - destruct (getSurface_fresh st4 Hwf4 Hu4 HS4) as (c5 & st5 & e5 & E5 & _ & Hs).
    rewrite getCanvas_eq, Hid4 in E5. injection E5 as <- <-.
    destruct (canvas_touch_focused _ st4 _ Hid4 eq_refl) as [_ Hid5].
    eexists. eexists. exists (set_attribute "tabindex" "1" (set_height h (set_width w e1))).
    split; [exact Hs|]. split; [exact Hid5|].
    split; [exact Hw|]. split; [exact Hh|].
    repeat split; try reflexivity.
    + exact (f_equal (@List.length _) Hsurf4).
    + cbn [surfaces set_surfaces]. rewrite length_app. cbn [List.length].
      pose proof (f_equal (@List.length _) Hsurf4) as Hlen. lia.
Qed.

(** C2, as the claim states it, fails: a canvas takes as its size only
    integers from 0 to 2^31 - 1.  After [setMode([-5, 2147483648])] the
    canvas has its default size, 300 by 150. *)
Lemma setMode_out_of_range :
  exists r st' c,
    setMode [JNum (-5); JNum 2147483648] JUndefined initial_state = Ok r st'
    /\ element_by_id CANVAS_ID st' = Some c
    /\ width c = JNum 300
    /\ height c = JNum 150
    /\ width c <> JNum (-5)
    /\ height c <> JNum 2147483648.
Proof.
  vm_compute. eexists. eexists. eexists.
  split; [reflexivity|]. split; [reflexivity|]. split; [reflexivity|].
  split; [reflexivity|]. split; discriminate.
Qed.

(** C2, amended. On a page whose canvas is a canvas [setMode([w, h], flags)]
    returns; afterwards the canvas has the width and the height that the
    conversion to a canvas size makes of [w] and [h], which are [w] and [h]
    themselves when these are integers from 0 to 2^31 - 1; the smoothing
    flag is [flags !== DISABLE_SMOOTHING], and the value returned is the
    Surface the global refers to: the one that existed before the call, or
    one newly allocated by it. *)
Theorem setMode_sets_size_and_smoothing w h flags st :
  wf st ->
  canvas_usable st = true ->
  exists r st' c,
    setMode [w; h] flags st = Ok (Some r) st'
    /\ element_by_id CANVAS_ID st' = Some c
    /\ width c = JNum (canvas_size 300 w)
    /\ height c = JNum (canvas_size 150 h)
    /\ (forall n, w = JNum n -> (0 <= n <= 2147483647)%Z -> width c = w)
    /\ (forall n, h = JNum n -> (0 <= n <= 2147483647)%Z -> height c = h)
    /\ _SURFACE_SMOOTHING st' = negb (strict_eq flags DISABLE_SMOOTHING)
    /\ SURFACE st' = Some r
    /\ match SURFACE st with
       | Some r0 => r = r0 /\ surfaces st' = surfaces st
       | None =>
           r = List.length (surfaces st)
           /\ List.length (surfaces st') = S (List.length (surfaces st))
       end.
Proof.
  intros Hwf Hu.
  destruct (setMode_spec w h flags st Hwf Hu)
    as (r & st' & c & E & Hc & Hw & Hh & Hrest).
  exists r, st', c. split; [exact E|]. split; [exact Hc|].
  split; [exact Hw|]. split; [exact Hh|]. split; [|split; [|exact Hrest]].
  - intros n -> Hn. rewrite Hw, (canvas_size_in_range 300 n Hn). reflexivity.
  - intros n -> Hn. rewrite Hh, (canvas_size_in_range 150 n Hn). reflexivity.
Qed.

(** The example of the spec: after [setMode([640, 480])] the canvas reports
    width 640 and height 480. *)
Lemma setMode_640_480 st :
  wf st ->
  canvas_usable st = true ->
  exists r st' c,
    setMode [JNum 640; JNum 480] JUndefined st = Ok r st'
    /\ element_by_id CANVAS_ID st' = Some c
    /\ width c = JNum 640 /\ height c = JNum 480.
Proof.
  intros Hwf Hu.
  destruct (setMode_spec (JNum 640) (JNum 480) JUndefined st Hwf Hu)
    as (r & st' & c & E & Hc & Hw & Hh & _).
  exists (Some r), st', c. repeat split; assumption.
Qed.

(** C3, as the claim states it, fails: a Surface created with smoothing
    enabled keeps it when [setMode] is later called with
    [DISABLE_SMOOTHING]. *)
Lemma setMode_disable_after_getSurface :
  let st0 := final (getSurface initial_state) in
  exists st1 st2 s,
    setMode [JNum 640; JNum 480] DISABLE_SMOOTHING st0 = Ok (Some 0) st1
    /\ getSurface st1 = Ok (Some 0) st2
    /\ nth_error (surfaces st2) 0 = Some s
    /\ smoothing s = Some true
    /\ smoothing s <> Some false.
Proof.
  vm_compute. eexists. eexists. eexists.
  split; [reflexivity|]. split; [reflexivity|]. split; [reflexivity|].
  split; [reflexivity | discriminate].
Qed.

(** [setMode] followed by [getSurface]: the same Surface and no further
    change; a new Surface gets the smoothing the flag asks for, an existing
    one is returned as it is while the module's flag is updated. *)
Lemma setMode_then_getSurface w h flags st :
  wf st ->
  canvas_usable st = true ->
  exists r st1,
    setMode [w; h] flags st = Ok (Some r) st1
    /\ getSurface st1 = Ok (Some r) st1
    /\ SURFACE st1 = Some r
    /\ _SURFACE_SMOOTHING st1 = negb (strict_eq flags DISABLE_SMOOTHING)
    /\ match SURFACE st with
       | None =>
           r = List.length (surfaces st)
           /\ exists s, surfaces st1 = surfaces st ++ [s]
                        /\ nth_error (surfaces st1) r = Some s
                        /\ smoothing s
                           = Some (negb (strict_eq flags DISABLE_SMOOTHING))
       | Some r0 => r = r0 /\ surfaces st1 = surfaces st
       end.
Proof.
  intros Hwf Hu.
  destruct (setMode_steps_usable w h flags st Hwf Hu)
    as (c & st1 & e1 & E1 & Hsame & Hid1 & Hn1 & Hc & Eset & Hid4 & Hwf4 & Hu4).
  set (st4 := set__SURFACE_SMOOTHING _ _) in *.
  destruct Hsame as (HS & _ & _ & Hsurf & _).
  assert (SURFACE st4 = SURFACE st) as HS4 by (symmetry; exact HS).
  assert (surfaces st4 = surfaces st) as Hsurf4 by (symmetry; exact Hsurf).
  rewrite Eset. destruct (SURFACE st) as [r0|] eqn:ES.
  - exists r0, st4.
    split; [apply getSurface_cached; exact HS4|].
    split; [apply getSurface_cached; exact HS4|].
    split; [exact HS4|]. split; [reflexivity|].
    split; [reflexivity | exact Hsurf4].
  - destruct (getSurface_fresh st4 Hwf4 Hu4 HS4) as (c5 & st5 & e5 & E5 & _ & Hs).
    rewrite getCanvas_eq, Hid4 in E5. injection E5 as <- <-.
    eexists. eexists. split; [exact Hs|].
    split; [apply getSurface_cached; reflexivity|].
    split; [reflexivity|]. split; [reflexivity|].
    split; [exact (f_equal (@List.length _) Hsurf4)|].
    eexists. split; [|split].
    + cbn [surfaces set_surfaces]. rewrite Hsurf4. reflexivity.
    + cbn [surfaces set_surfaces]. rewrite nth_error_app2 by lia.
      rewrite Nat.sub_diag. reflexivity.
    + reflexivity.
Qed.

(** C3, amended. On a page whose canvas is a canvas,
    [setMode([w, h], flags)] followed by [getSurface()] yields the Surface
    [setMode] returned, and [setMode] has set the module's smoothing flag.
    When no Surface existed before the call, that Surface is allocated by
    [setMode], with smoothing disabled for [DISABLE_SMOOTHING] and with
    smoothing enabled when the flag is omitted.  When one existed, it is
    the one returned and no Surface object is changed. *)
Theorem setMode_then_getSurface_smoothing w h st :
  wf st ->
  canvas_usable st = true ->
  (exists r st1,
     setMode [w; h] DISABLE_SMOOTHING st = Ok (Some r) st1
     /\ getSurface st1 = Ok (Some r) st1
     /\ SURFACE st1 = Some r
     /\ _SURFACE_SMOOTHING st1 = false
     /\ match SURFACE st with
        | None =>
            r = List.length (surfaces st)
            /\ exists s, surfaces st1 = surfaces st ++ [s]
                         /\ nth_error (surfaces st1) r = Some s
                         /\ smoothing s = Some false
        | Some r0 => r = r0 /\ surfaces st1 = surfaces st
        end)
  /\ (exists r st1,
        setMode [w; h] JUndefined st = Ok (Some r) st1
        /\ getSurface st1 = Ok (Some r) st1
        /\ SURFACE st1 = Some r
        /\ _SURFACE_SMOOTHING st1 = true
        /\ match SURFACE st with
           | None =>
               r = List.length (surfaces st)
               /\ exists s, surfaces st1 = surfaces st ++ [s]
                            /\ nth_error (surfaces st1) r = Some s
                            /\ smoothing s = Some true
           | Some r0 => r = r0 /\ surfaces st1 = surfaces st
           end).
Proof.
  intros Hwf Hu. split.
  - exact (setMode_then_getSurface w h DISABLE_SMOOTHING st Hwf Hu).
  - exact (setMode_then_getSurface w h JUndefined st Hwf Hu).
Qed.

(** * The fullscreen state machine *)

Lemma has_nid_self e : has_nid (nid e) e = true.
Proof. apply Nat.eqb_refl. Qed.

Lemma wrapper_deref st e :
  wf st -> element_by_id WRAPPER_ID st = Some e ->
  deref (nid e) (body (doc st)) = Some e.
Proof.
  intros Hwf H. apply deref_unique; [exact Hwf|].
  apply (element_by_id_in _ _ _ H).
Qed.

Lemma assign_by_id s st e g :
  keeps_id g -> element_by_id s st = Some e ->
  element_by_id s (on_body (update_nid (nid e) g) st) = Some (g e).
Proof.
  intros Hg H. rewrite element_by_id_assign by exact Hg.
  rewrite H. simpl. rewrite has_nid_self. reflexivity.
Qed.

Lemma assign_deref st e g :
  keeps_id g -> deref (nid e) (body (doc st)) = Some e ->
  deref (nid e) (body (doc (on_body (update_nid (nid e) g) st))) = Some (g e).
Proof.
  intros Hg H. simpl. rewrite deref_assign by exact Hg.
  rewrite H. simpl. rewrite has_nid_self. reflexivity.
Qed.

Lemma enablePointerLock_found st e :
  wf st -> element_by_id WRAPPER_ID st = Some e ->
  enablePointerLock st
  = Ok tt
      (log_pointer_lock (nid e) (pointer_lock_method e)
         (on_body
            (update_nid (nid e)
               (set_requestPointerLock (pointer_lock_method e))) st)).
Proof.
  intros Hwf H. pose proof (wrapper_deref _ _ Hwf H) as Hd.
  unfold enablePointerLock, bind.
  rewrite (getFullScreenWrapper_found _ _ H), (prop_found _ _ _ _ Hd).
  unfold assign, modify.
  rewrite (prop_found _ _ _ _
             (assign_deref st e _ (keeps_id_requestPointerLock _) Hd)).
  fold (pointer_lock_method e). cbn [elem_methods set_requestPointerLock
    set_elem_methods requestPointerLock].
  destruct (pointer_lock_method e); reflexivity.
Qed.

Lemma log_pointer_lock_body x v st :
  body (doc (log_pointer_lock x v st)) = body (doc st).
Proof. destruct v; reflexivity. Qed.

Lemma isFullScreen_eq st : isFullScreen st = Ok (fullscreen_on st) st.
Proof. reflexivity. Qed.

Lemma fullscreen_on_exit st :
  fullscreen_on (platform_exit_fullscreen st) = false.
Proof. reflexivity. Qed.

(** The handler when the platform reports fullscreen. *)
Lemma fullScreenChange_enter st e :
  wf st -> element_by_id WRAPPER_ID st = Some e ->
  fullscreen_on st = true ->
  fullScreenChange st
  = Ok tt
      (on_body (update_nid (nid e) (set_textAlign (Some "center")))
         (set_oldWrapperTextAlign (textAlign e)
            (log_pointer_lock (nid e) (pointer_lock_method e)
               (on_body
                  (update_nid (nid e)
                     (set_requestPointerLock (pointer_lock_method e))) st)))).
Proof.
  intros Hwf H Hfs. pose proof (wrapper_deref _ _ Hwf H) as Hd.
  unfold fullScreenChange, bind. rewrite isFullScreen_eq, Hfs.
  rewrite (enablePointerLock_found _ _ Hwf H).
  set (v := pointer_lock_method e).
  set (sa := on_body (update_nid (nid e) (set_requestPointerLock v)) st).
  set (sb := log_pointer_lock (nid e) v sa).
  assert (element_by_id WRAPPER_ID sb = Some (set_requestPointerLock v e)) as Hb.
  { unfold element_by_id, sb. rewrite log_pointer_lock_body.
    apply (assign_by_id WRAPPER_ID st e);
      [apply keeps_id_requestPointerLock | exact H]. }
  assert (deref (nid e) (body (doc sb)) = Some (set_requestPointerLock v e)) as Hdb.
  { unfold sb. rewrite log_pointer_lock_body.
    apply assign_deref; [apply keeps_id_requestPointerLock | exact Hd]. }
  rewrite (getFullScreenWrapper_found _ _ Hb).
  change (nid (set_requestPointerLock v e)) with (nid e).
  rewrite (prop_found _ _ _ _ Hdb).
  unfold modify.
  assert (element_by_id WRAPPER_ID
            (set_oldWrapperTextAlign (textAlign (set_requestPointerLock v e)) sb)
          = Some (set_requestPointerLock v e)) as Hb' by exact Hb.
  rewrite (getFullScreenWrapper_found _ _ Hb'). reflexivity.
Qed.

(** The handler when the platform reports no fullscreen. *)
Lemma fullScreenChange_exit st e :
  element_by_id WRAPPER_ID st = Some e ->
  fullscreen_on st = false ->
  fullScreenChange st
  = Ok tt (on_body (update_nid (nid e)
                      (set_textAlign (oldWrapperTextAlign st))) st).
Proof.
  intros H Hfs. unfold fullScreenChange, bind. rewrite isFullScreen_eq, Hfs.
  rewrite (getFullScreenWrapper_found _ _ H). reflexivity.
Qed.

(** C4. With the wrapper's [style.textAlign] at [a], the change handler run
    in fullscreen records [a], centres the wrapper and asks for pointer lock
    when the wrapper has a method for it; run again once the platform has
    left fullscreen, it puts [a] back. *)
Theorem fullscreen_round_trip st e a :
  wf st ->
  element_by_id WRAPPER_ID st = Some e ->
  textAlign e = a ->
  fullscreen_on st = true ->
  exists st1,
    fullScreenChange st = Ok tt st1
    /\ oldWrapperTextAlign st1 = a
    /\ wrapper_textAlign st1 = Some (Some "center")
    /\ pointerLockRequests (doc st1)
       = pointerLockRequests (doc st)
           ++ (if truthy (pointer_lock_method e) then [nid e] else [])
    /\ exists st2,
         fullScreenChange (platform_exit_fullscreen st1) = Ok tt st2
         /\ wrapper_textAlign st2 = Some a.
Proof.
  intros Hwf H <- Hfs. rewrite (fullScreenChange_enter _ _ Hwf H Hfs).
  set (v := pointer_lock_method e).
  set (sa := on_body (update_nid (nid e) (set_requestPointerLock v)) st).
  set (sb := set_oldWrapperTextAlign (textAlign e) (log_pointer_lock (nid e) v sa)).
  assert (element_by_id WRAPPER_ID sb = Some (set_requestPointerLock v e)) as Hb.
  { unfold element_by_id, sb. cbn [doc set_oldWrapperTextAlign].
    rewrite log_pointer_lock_body.
    apply (assign_by_id WRAPPER_ID st e);
      [apply keeps_id_requestPointerLock | exact H]. }
  pose proof (assign_by_id WRAPPER_ID sb _ (set_textAlign (Some "center"))
                (keeps_id_textAlign _) Hb) as H1.
  change (nid (set_requestPointerLock v e)) with (nid e) in H1.
  eexists. split; [reflexivity|]. split; [reflexivity|]. split.
  { unfold wrapper_textAlign. rewrite H1. reflexivity. }
  split.
  { unfold sb, sa. destruct v; simpl; [reflexivity|].
    rewrite app_nil_r. reflexivity. }
  set (s1 := on_body (update_nid (nid e) (set_textAlign (Some "center"))) sb) in *.
  assert (element_by_id WRAPPER_ID (platform_exit_fullscreen s1)
          = Some (set_textAlign (Some "center") (set_requestPointerLock v e)))
    as H1' by exact H1.
  rewrite (fullScreenChange_exit _ _ H1' (fullscreen_on_exit s1)).
  eexists. split; [reflexivity|].
  unfold wrapper_textAlign.
  rewrite (assign_by_id WRAPPER_ID _ _ _ (keeps_id_textAlign _) H1').
  reflexivity.
Qed.

(** The handler run outside fullscreen with nothing saved: the [null] is
    assigned, and the style takes it as the empty string. *)
Lemma fullScreenChange_exit_null st e :
  element_by_id WRAPPER_ID st = Some e ->
  fullscreen_on st = false ->
  oldWrapperTextAlign st = None ->
  exists st',
    fullScreenChange st = Ok tt st'
    /\ st' = on_body (update_nid (nid e) (set_textAlign None)) st
    /\ wrapper_textAlign st' = Some (Some "")
    /\ (textAlign e <> Some "" ->
        wrapper_textAlign st' <> wrapper_textAlign st)
    /\ (textAlign e = Some "" ->
        wrapper_textAlign st' = wrapper_textAlign st).
Proof.
  intros H Hfs Hold. rewrite (fullScreenChange_exit _ _ H Hfs), Hold.
  eexists. split; [reflexivity|]. split; [reflexivity|].
  assert (wrapper_textAlign
            (on_body (update_nid (nid e) (set_textAlign None)) st)
          = Some (Some "")) as Hn.
  { unfold wrapper_textAlign.
    rewrite (assign_by_id WRAPPER_ID _ _ _ (keeps_id_textAlign _) H).
    reflexivity. }
  split; [exact Hn|]. rewrite Hn.
  unfold wrapper_textAlign. rewrite H. cbn [option_map]. split.
  - intros Ha Hb. apply Ha. congruence.
  - intros Ha. congruence.
Qed.

(** * Requesting fullscreen *)

Lemma update_nid_same x g (f : forest) :
  (forall e, In e (elems f) -> has_nid x e = true -> g e = e) ->
  update_nid x g f = f.
Proof.
  induction f as [|e ks f IHk IHf] using forest_ind'; intros H; [reflexivity|].
  rewrite update_nid_cons. rewrite elems_cons in H.
  rewrite IHk, IHf.
  - destruct (has_nid x e) eqn:E; [|reflexivity].
    rewrite (H e); [reflexivity | left; reflexivity | exact E].
  - intros e' Hin. apply H. right. apply in_or_app. right. exact Hin.
  - intros e' Hin. apply H. right. apply in_or_app. left. exact Hin.
Qed.

Lemma on_body_same g st :
  g (body (doc st)) = body (doc st) -> on_body g st = st.
Proof.
  intros H. unfold on_body, on_doc. rewrite H.
  destruct st as [s sm o ss cl d]. destruct d. reflexivity.
Qed.

Lemma same_nid_same_element st e e' :
  wf st -> In e (elems (body (doc st))) -> In e' (elems (body (doc st))) ->
  has_nid (nid e) e' = true -> e' = e.
Proof.
  intros Hwf Hin Hin' Hn. apply Nat.eqb_eq in Hn.
  pose proof (deref_unique st e Hwf Hin) as H1.
  pose proof (deref_unique st e' Hwf Hin') as H2.
  rewrite Hn in H2. congruence.
Qed.

Lemma enableFullScreen_found st e :
  wf st -> element_by_id WRAPPER_ID st = Some e ->
  enableFullScreen st
  = Ok (truthy (fullscreen_method e))
      (log_fullscreen (nid e) (fullscreen_method e)
         (on_body
            (update_nid (nid e)
               (set_requestFullScreen (fullscreen_method e))) st)).
Proof.
  intros Hwf H. pose proof (wrapper_deref _ _ Hwf H) as Hd.
  unfold enableFullScreen, bind.
  rewrite (getFullScreenWrapper_found _ _ H), (prop_found _ _ _ _ Hd).
  unfold assign, modify.
  rewrite (prop_found _ _ _ _
             (assign_deref st e _ (keeps_id_requestFullScreen _) Hd)).
  fold (fullscreen_method e). cbn [elem_methods set_requestFullScreen
    set_elem_methods requestFullScreen].
  destruct (fullscreen_method e); reflexivity.
Qed.

(** C5. When the wrapper has none of the three fullscreen-request methods,
    [enableFullScreen] returns [false] without throwing, and the state after
    the call is the state before it; so is it after the click handler. *)
Theorem enableFullScreen_without_api st e :
  wf st ->
  element_by_id WRAPPER_ID st = Some e ->
  requestFullScreen (elem_methods e) = None ->
  mozRequestFullScreen (elem_methods e) = None ->
  webkitRequestFullScreen (elem_methods e) = None ->
  enableFullScreen st = Ok false st
  /\ forall k, run_callback (CbToggleClick k) st = Ok tt st.
Proof.
  intros Hwf H H1 H2 H3.
  assert (enableFullScreen st = Ok false st) as E.
  { rewrite (enableFullScreen_found _ _ Hwf H).
    unfold fullscreen_method. rewrite H1, H2, H3. simpl.
    rewrite on_body_same; [reflexivity|].
    apply update_nid_same. intros e' Hin Hn.
    rewrite (same_nid_same_element st e e' Hwf
               (proj1 (element_by_id_in _ _ _ H)) Hin Hn).
    destruct e as [n t i tb ih ta di wi he cw ch rl rt ls m].
    destruct m as [m1 m2 m3 m4 m5 m6]. simpl in H1. subst m1. reflexivity. }
  split; [exact E|]. intros k. simpl. unfold bind. rewrite E. reflexivity.
Qed.

(** * The focus *)



(** * setCaption *)

(** C8. [setCaption(title, icon)] sets [document.title] to [title]; every
    other component of the document and of the module is as before, and the
    icon makes no difference. *)
Theorem setCaption_sets_title_only t icon st :
  exists st',
    setCaption t icon st = Ok tt st'
    /\ title (doc st') = t
    /\ st' = on_doc (set_title t) st
    /\ same_module st st'
    /\ body (doc st') = body (doc st)
    /\ activeElement (doc st') = activeElement (doc st)
    /\ next_nid (doc st') = next_nid (doc st)
    /\ doc_listeners (doc st') = doc_listeners (doc st)
    /\ fullScreenElement (doc st') = fullScreenElement (doc st)
    /\ mozFullScreenElement (doc st') = mozFullScreenElement (doc st)
    /\ webkitIsFullScreen (doc st') = webkitIsFullScreen (doc st)
    /\ webkitDisplayingFullscreen (doc st')
       = webkitDisplayingFullscreen (doc st)
    /\ fullscreenRequests (doc st') = fullscreenRequests (doc st)
    /\ pointerLockRequests (doc st') = pointerLockRequests (doc st)
    /\ proto (doc st') = proto (doc st)
    /\ forall icon', setCaption t icon' st = setCaption t icon st.
Proof.
  exists (on_doc (set_title t) st). repeat split.
Qed.

(** * Operations that go through getCanvas *)




Lemma setMode_returns d f st :
  wf st ->
  canvas_usable st = true ->
  exists r st', setMode d f st = Ok (Some r) st'.
Proof.
  intros Hwf Hu.
  destruct (setMode_spec (js_index d 0) (js_index d 1) f st Hwf Hu)
    as (r & st' & c & E & _).
  exists r, st'. exact E.
Qed.

Lemma _getCanvasOffset_focuses st :
  exists r st', _getCanvasOffset st = Ok r st' /\ canvas_focused st'.
Proof.
  unfold _getCanvasOffset, bind.
  destruct (getCanvas_focused st) as (c & st1 & E1 & Hf1 & _ & _ & _ & e & He).
  rewrite E1, !(prop_found _ _ _ _ He).
  eexists. eexists. split; [reflexivity | exact Hf1].
Qed.

Lemma _hasFocus_focuses st :
  exists b st', _hasFocus st = Ok b st' /\ canvas_focused st'.
Proof.
  unfold _hasFocus, bind, gets.
  destruct (getCanvas_focused st) as (c & st1 & E1 & Hf1 & _).
  rewrite E1. eexists. eexists. split; [reflexivity | exact Hf1].
Qed.



(** * Well-formed states *)

Lemma absent_no_match (l : list element) y :
  existsb (Nat.eqb y) (map nid l) = false ->
  List.length (filter (has_nid y) l) = 0.
Proof.
  induction l as [|e l IH]; simpl; [reflexivity|].
  unfold has_nid at 1. rewrite (Nat.eqb_sym (nid e) y).
  destruct (Nat.eqb y (nid e)); simpl; [discriminate | exact IH].
Qed.

Lemma nodupb_unique (l : list element) y :
  nodupb (map nid l) = true -> List.length (filter (has_nid y) l) <= 1.
Proof.
  induction l as [|e l IH]; simpl; [lia|].
  intros H. apply andb_true_iff in H. destruct H as [Hx Hr].
  unfold has_nid at 1. destruct (Nat.eqb_spec (nid e) y) as [<- | _].
  - simpl. rewrite absent_no_match; [lia|].
    apply negb_true_iff. exact Hx.
  - apply IH, Hr.
Qed.

Lemma bounded_fresh (l : list element) k y :
  forallb (fun x => Nat.ltb x k) (map nid l) = true -> k <= y ->
  List.length (filter (has_nid y) l) = 0.
Proof.
  intros H Hy. induction l as [|e l IH]; simpl in *; [reflexivity|].
  apply andb_true_iff in H. destruct H as [He Hr].
  apply Nat.ltb_lt in He. unfold has_nid at 1.
  destruct (Nat.eqb_spec (nid e) y); [lia | apply IH, Hr].
Qed.

Lemma wf_check_sound st : wf_check st = true -> wf st.
Proof.
  unfold wf_check. intros H.
  apply andb_true_iff in H. destruct H as [H Ha].
  apply andb_true_iff in H. destruct H as [Hu Hf].
  constructor.
  - intros y. apply nodupb_unique, Hu.
  - intros y Hy. eapply bounded_fresh; [exact Hf | exact Hy].
  - intros a E. rewrite E in Ha. apply Nat.ltb_lt, Ha.
Qed.

Lemma wf_initial_state : wf initial_state.
Proof. apply wf_check_sound. reflexivity. Qed.

(** * init, repeated *)

Lemma repeat_init_spec n st :
  wf st ->
  exists st',
    repeat_init n st = Ok tt st'
    /\ wf st'
    /\ (1 <= n ->
        cnt_id CANVAS_ID st' = Nat.max 1 (cnt_id CANVAS_ID st)
        /\ cnt_id WRAPPER_ID st' = Nat.max 1 (cnt_id WRAPPER_ID st)
        /\ cnt_id TOGGLE_ID st' = Nat.max 1 (cnt_id TOGGLE_ID st))
    /\ (n = 0 -> st' = st).
Proof.
  revert st. induction n as [|n IH]; intros st Hwf.
  - exists st. split; [reflexivity|]. split; [exact Hwf|].
    split; [lia | reflexivity].
  - destruct (init_spec st Hwf) as (st1 & E1 & Hwf1 & _ & C1 & W1 & T1).
    destruct (IH st1 Hwf1) as (st2 & E2 & Hwf2 & Hpos & Hzero).
    exists st2. cbn [repeat_init]. unfold bind. rewrite E1.
    split; [exact E2|]. split; [exact Hwf2|]. split; [|discriminate].
    intros _. destruct n as [|n].
    + rewrite (Hzero eq_refl). repeat split; assumption.
    + destruct (Hpos (le_n_S 0 n (Nat.le_0_l n))) as (C2 & W2 & T2). lia.
Qed.

(** C6. From a well-formed page that holds at most one element with each of
    the three ids, [n >= 1] calls of [init] all return and leave exactly one
    canvas, one wrapper and one fullscreen toggle. *)
Theorem init_idempotent_elements n st :
  wf st ->
  cnt_id CANVAS_ID st <= 1 ->
  cnt_id WRAPPER_ID st <= 1 ->
  cnt_id TOGGLE_ID st <= 1 ->
  1 <= n ->
  exists st',
    repeat_init n st = Ok tt st'
    /\ cnt_id CANVAS_ID st' = 1
    /\ cnt_id WRAPPER_ID st' = 1
    /\ cnt_id TOGGLE_ID st' = 1.
Proof.
  intros Hwf Hc Hw Ht Hn.
  destruct (repeat_init_spec n st Hwf) as (st' & E & _ & Hpos & _).
  destruct (Hpos Hn) as (C & W & T).
  exists st'. split; [exact E|]. lia.
Qed.

(** * Instances *)

(** The round trip is one run of the handler in fullscreen followed by one
    outside it.  A second run in fullscreen (the handler is registered for
    three event names) records the centred alignment instead. *)
Lemma fullscreen_entered_twice :
  exists st1 st2,
    fullScreenChange fullscreen_state = Ok tt st1
    /\ fullScreenChange st1 = Ok tt st2
    /\ oldWrapperTextAlign st1 = Some ""
    /\ oldWrapperTextAlign st2 = Some "center".
Proof.
  vm_compute. eexists. eexists. repeat split.
Qed.

Lemma fullscreen_round_trip_witness :
  wf fullscreen_state
  /\ exists st1,
       fullScreenChange fullscreen_state = Ok tt st1
       /\ oldWrapperTextAlign st1 = Some ""
       /\ wrapper_textAlign st1 = Some (Some "center")
       /\ pointerLockRequests (doc st1)
          = pointerLockRequests (doc fullscreen_state)
              ++ (if truthy (pointer_lock_method (wrapper_of fullscreen_state))
                  then [nid (wrapper_of fullscreen_state)] else [])
       /\ exists st2,
            fullScreenChange (platform_exit_fullscreen st1) = Ok tt st2
            /\ wrapper_textAlign st2 = Some (Some "").
Proof.
  assert (wf fullscreen_state) as Hwf
    by (apply wf_check_sound; vm_compute; reflexivity).
  split; [exact Hwf|].
  apply (fullscreen_round_trip fullscreen_state (wrapper_of fullscreen_state)
           (Some "") Hwf);
    vm_compute; reflexivity.
Defined.

Lemma enableFullScreen_without_api_witness :
  wf loaded_state
  /\ enableFullScreen loaded_state = Ok false loaded_state
  /\ forall k, run_callback (CbToggleClick k) loaded_state = Ok tt loaded_state.
Proof.
  assert (wf loaded_state) as Hwf
    by (apply wf_check_sound; vm_compute; reflexivity).
  split; [exact Hwf|].
  apply (enableFullScreen_without_api loaded_state (wrapper_of loaded_state) Hwf);
    vm_compute; reflexivity.
Defined.

Lemma init_idempotent_elements_witness :
  wf initial_state
  /\ exists st',
       repeat_init 3 initial_state = Ok tt st'
       /\ cnt_id CANVAS_ID st' = 1
       /\ cnt_id WRAPPER_ID st' = 1
       /\ cnt_id TOGGLE_ID st' = 1.
Proof.
  assert (wf initial_state) as Hwf
    by (apply wf_check_sound; vm_compute; reflexivity).
  split; [exact Hwf|].
  apply (init_idempotent_elements 3 initial_state Hwf);
    vm_compute; repeat constructor.
Defined.



Lemma getSurface_singleton_witness :
  exists r st1,
    getSurface initial_state = Ok (Some r) st1
    /\ SURFACE st1 = Some r
    /\ match SURFACE initial_state with
       | Some r0 => r = r0 /\ st1 = initial_state
       | None =>
           r = List.length (surfaces initial_state)
           /\ exists s, surfaces st1 = surfaces initial_state ++ [s]
       end
    /\ SURFACE (run [OInit; OClickToggle; OFocus None] st1) = Some r
    /\ getSurface (run [OInit; OClickToggle; OFocus None] st1)
       = Ok (Some r) (run [OInit; OClickToggle; OFocus None] st1)
    /\ forall d f,
         exists st2,
           setMode d f (run [OInit; OClickToggle; OFocus None] st1)
           = Ok (Some r) st2
           /\ SURFACE st2 = Some r.
Proof.
  apply (getSurface_singleton initial_state [OInit; OClickToggle; OFocus None]).
  - apply wf_check_sound. vm_compute. reflexivity.
  - reflexivity.
Defined.

Lemma setMode_sets_size_and_smoothing_witness :
  exists r st' c,
    setMode [JNum 640; JNum 480] DISABLE_SMOOTHING loaded_state
    = Ok (Some r) st'
    /\ element_by_id CANVAS_ID st' = Some c
    /\ width c = JNum (canvas_size 300 (JNum 640))
    /\ height c = JNum (canvas_size 150 (JNum 480))
    /\ (forall n, JNum 640 = JNum n -> (0 <= n <= 2147483647)%Z ->
        width c = JNum 640)
    /\ (forall n, JNum 480 = JNum n -> (0 <= n <= 2147483647)%Z ->
        height c = JNum 480)
    /\ _SURFACE_SMOOTHING st'
       = negb (strict_eq DISABLE_SMOOTHING DISABLE_SMOOTHING)
    /\ SURFACE st' = Some r
    /\ match SURFACE loaded_state with
       | Some r0 => r = r0 /\ surfaces st' = surfaces loaded_state
       | None =>
           r = List.length (surfaces loaded_state)
           /\ List.length (surfaces st')
              = S (List.length (surfaces loaded_state))
       end.
Proof.
  apply (setMode_sets_size_and_smoothing (JNum 640) (JNum 480)
           DISABLE_SMOOTHING loaded_state).
  - apply wf_check_sound. vm_compute. reflexivity.
  - reflexivity.
Defined.

Lemma setMode_then_getSurface_smoothing_witness :
  (exists r st1,
     setMode [JNum 640; JNum 480] DISABLE_SMOOTHING initial_state
     = Ok (Some r) st1
     /\ getSurface st1 = Ok (Some r) st1
     /\ SURFACE st1 = Some r
     /\ _SURFACE_SMOOTHING st1 = false
     /\ match SURFACE initial_state with
        | None =>
            r = List.length (surfaces initial_state)
            /\ exists s, surfaces st1 = surfaces initial_state ++ [s]
                         /\ nth_error (surfaces st1) r = Some s
                         /\ smoothing s = Some false
        | Some r0 => r = r0 /\ surfaces st1 = surfaces initial_state
        end)
  /\ (exists r st1,
        setMode [JNum 640; JNum 480] JUndefined initial_state = Ok (Some r) st1
        /\ getSurface st1 = Ok (Some r) st1
        /\ SURFACE st1 = Some r
        /\ _SURFACE_SMOOTHING st1 = true
        /\ match SURFACE initial_state with
           | None =>
               r = List.length (surfaces initial_state)
               /\ exists s, surfaces st1 = surfaces initial_state ++ [s]
                            /\ nth_error (surfaces st1) r = Some s
                            /\ smoothing s = Some true
           | Some r0 => r = r0 /\ surfaces st1 = surfaces initial_state
           end).
Proof.
  apply (setMode_then_getSurface_smoothing (JNum 640) (JNum 480) initial_state).
  - apply wf_check_sound. vm_compute. reflexivity.
  - reflexivity.
Defined.

(** * Well-formedness is an invariant of every run *)

Lemma wf_same_dom st st' :
  body (doc st') = body (doc st) ->
  next_nid (doc st') = next_nid (doc st) ->
  activeElement (doc st') = activeElement (doc st) ->
  wf st -> wf st'.
Proof.
  intros Hb Hn Ha [Hu Hf Hact].
  constructor; rewrite ?Hb, ?Hn, ?Ha; assumption.
Qed.

Lemma wf_pres_bind {A C} (m : M A) (k : A -> M C) :
  wf_pres m -> (forall a, wf_pres (k a)) -> wf_pres (bind m k).
Proof.
  intros Hm Hk st Hwf. unfold bind. specialize (Hm st Hwf).
  destruct (m st) as [a s'|e s']; simpl in *; [apply Hk, Hm | exact Hm].
Qed.

Lemma wf_pres_ret {A} (a : A) : wf_pres (ret a).
Proof. intros st H. exact H. Qed.

Lemma wf_pres_gets {A} (f : state -> A) : wf_pres (gets f).
Proof. intros st H. exact H. Qed.

Lemma wf_pres_throw {A} e : wf_pres (@throw A e).
Proof. intros st H. exact H. Qed.

Lemma wf_pres_prop {A} (get : element -> A) x : wf_pres (prop get x).
Proof.
  intros st H. unfold prop. destruct (deref x (body (doc st))); exact H.
Qed.

Lemma wf_pres_getContext x kind : wf_pres (getContext x kind).
Proof.
  intros st H. unfold getContext.
  destruct (deref x (body (doc st))) as [e|]; [destruct (is_canvas e)|];
    exact H.
Qed.

Lemma wf_pres_assign x g : keeps_id g -> wf_pres (assign x g).
Proof. intros Hg st H. apply wf_assign; assumption. Qed.

Lemma wf_pres_modify g :
  (forall st, body (doc (g st)) = body (doc st)
              /\ next_nid (doc (g st)) = next_nid (doc st)
              /\ activeElement (doc (g st)) = activeElement (doc st)) ->
  wf_pres (modify g).
Proof.
  intros Hg st H. destruct (Hg st) as (Hb & Hn & Ha).
  exact (wf_same_dom st (g st) Hb Hn Ha H).
Qed.

Lemma wf_pres_getCanvas : wf_pres getCanvas.
Proof.
  intros st H. destruct (getCanvas_spec st H) as (c & st' & E & Hwf & _).
  rewrite E. exact Hwf.
Qed.

Lemma wf_pres_getFullScreenWrapper : wf_pres getFullScreenWrapper.
Proof.
  intros st H.
  destruct (getFullScreenWrapper_spec st H) as (c & st' & E & Hwf & _).
  rewrite E. exact Hwf.
Qed.

Lemma wf_pres_init : wf_pres init.
Proof.
  intros st H. destruct (init_spec st H) as (st' & E & Hwf & _).
  rewrite E. exact Hwf.
Qed.

Lemma wf_pres_new_Surface size : wf_pres (new_Surface size).
Proof.
  intros st H. apply (wf_same_dom st); [reflexivity | reflexivity | reflexivity | exact H].
Qed.

Lemma wf_pres_the_SURFACE : wf_pres the_SURFACE.
Proof.
  apply wf_pres_bind; [apply wf_pres_gets|].
  intros [r|]; [apply wf_pres_ret | apply wf_pres_throw].
Qed.

Ltac wf_step :=
  first
    [ apply wf_pres_getCanvas
    | apply wf_pres_getFullScreenWrapper
    | apply wf_pres_new_Surface
    | apply wf_pres_the_SURFACE
    | apply wf_pres_bind; [|intros]
    | apply wf_pres_ret
    | apply wf_pres_gets
    | apply wf_pres_prop
    | apply wf_pres_assign;
      first [ apply keeps_id_width | apply keeps_id_height
            | apply keeps_id_textAlign | apply keeps_id_requestFullScreen
            | apply keeps_id_requestPointerLock ]
    | apply wf_pres_modify; intros; repeat split; reflexivity
    | match goal with
      | |- wf_pres (match ?x with _ => _ end) => destruct x
      end ].

Lemma wf_pres_enableFullScreen : wf_pres enableFullScreen.
Proof. unfold enableFullScreen. repeat wf_step. Qed.

Lemma wf_pres_enablePointerLock : wf_pres enablePointerLock.
Proof. unfold enablePointerLock. repeat wf_step. Qed.

Lemma wf_pres_fullScreenChange : wf_pres fullScreenChange.
Proof.
  unfold fullScreenChange, isFullScreen.
  repeat first [apply wf_pres_enablePointerLock | wf_step].
Qed.

Lemma wf_pres_getSurface : wf_pres getSurface.
Proof.
  unfold getSurface, Surface_smooth, Surface_noSmooth, surface_assign.
  repeat first [apply wf_pres_getContext | wf_step].
Qed.

Lemma wf_pres_setMode d f : wf_pres (setMode d f).
Proof. unfold setMode. repeat first [apply wf_pres_getSurface | wf_step]. Qed.

Lemma wf_pres__hasFocus : wf_pres _hasFocus.
Proof. unfold _hasFocus. repeat wf_step. Qed.

Lemma wf_pres__getCanvasOffset : wf_pres _getCanvasOffset.
Proof. unfold _getCanvasOffset. repeat wf_step. Qed.

Lemma wf_pres_run_callback cb : wf_pres (run_callback cb).
Proof.
  destruct cb; simpl; [apply wf_pres_fullScreenChange|].
  apply wf_pres_bind; [apply wf_pres_enableFullScreen | intros; apply wf_pres_ret].
Qed.

Lemma wf_deliver type ls st : wf st -> wf (deliver type ls st).
Proof.
  revert st. induction ls as [|[t cb] ls IH]; intros st H; simpl; [exact H|].
  destruct (String.eqb t type); apply IH; [apply wf_pres_run_callback|]; exact H.
Qed.

Lemma wf_step_op o st : wf st -> wf (step o st).
Proof.
  intros H. destruct o; simpl.
  - apply wf_pres_init, H.
  - apply wf_pres_setMode, H.
  - apply (wf_same_dom st); [reflexivity | reflexivity | reflexivity | exact H].
  - apply wf_pres_getSurface, H.
  - apply wf_pres__hasFocus, H.
  - exact H.
  - apply wf_pres__getCanvasOffset, H.
  - unfold click_toggle.
    destruct (find (has_id TOGGLE_ID) (elems (body (doc st))));
      [apply wf_deliver|]; exact H.
  - apply wf_deliver, H.
  - apply (wf_same_dom st); [reflexivity | reflexivity | reflexivity | exact H].
  - unfold user_focus. destruct target as [x|].
    + destruct (existsb (has_nid x) (elems (body (doc st)))) eqn:E; [|exact H].
      apply wf_focus; [exact H|]. apply existsb_length, E.
    + destruct H as [Hu Hf Ha]. constructor; simpl; [exact Hu | exact Hf|].
      discriminate.
Qed.

(** Every state a program can reach from a well-formed page is well-formed:
    the hypothesis [wf] of the statements above holds throughout any run. *)
Lemma wf_run ops st : wf st -> wf (run ops st).
Proof.
  revert st. induction ops as [|o ops IH]; intros st H; [exact H|].
  simpl. apply IH, wf_step_op, H.
Qed.

(** On a well-formed page whose canvas is a canvas no export of the module
    throws. *)
Lemma exports_return st :
  wf st ->
  canvas_usable st = true ->
  (exists st', init st = Ok tt st')
  /\ (forall d f, exists r st', setMode d f st = Ok r st')
  /\ (exists r st', getSurface st = Ok r st')
  /\ (exists b st', _hasFocus st = Ok b st')
  /\ (exists r st', _getCanvasOffset st = Ok r st')
  /\ (forall t i, exists st', setCaption t i st = Ok tt st').
Proof.
  intros H Hu. split.
  { destruct (init_spec st H) as (st' & E & _). exists st'. exact E. }
  split.
  { intros d f. destruct (setMode_returns d f st H Hu) as (r & st' & E).
    exists (Some r), st'. exact E. }
  split.
  { destruct (getSurface_total st H Hu) as (r & st' & E & _).
    exists (Some r), st'. exact E. }
  split.
  { destruct (_hasFocus_focuses st) as (b & st' & E & _). exists b, st'. exact E. }
  split.
  { destruct (_getCanvasOffset_focuses st) as (r & st' & E & _).
    exists r, st'. exact E. }
  intros t i. eexists. reflexivity.
Qed.

(** Without a wrapper in the document [enableFullScreen] first creates one
    (and the canvas): it still returns [false] on a platform without the
    methods, but the document has changed. *)
Lemma enableFullScreen_creates_wrapper :
  exists st',
    enableFullScreen initial_state = Ok false st'
    /\ cnt_id WRAPPER_ID initial_state = 0
    /\ cnt_id WRAPPER_ID st' = 1
    /\ cnt_id CANVAS_ID st' = 1.
Proof.
  vm_compute. eexists. repeat split.
Qed.

(** * The saved alignment before fullscreen was ever entered *)

Lemma fullScreenChange_off_old st :
  fullscreen_on st = false ->
  oldWrapperTextAlign (final (fullScreenChange st)) = oldWrapperTextAlign st.
Proof.
  intros Hoff. unfold fullScreenChange.
  change (bind isFullScreen ?k st) with (k (fullscreen_on st) st).
  rewrite Hoff.
  apply (keeps_bind oldWrapperTextAlign).
  - apply keeps_getFullScreenWrapper; reflexivity.
  - intros w. apply keeps_bind; [apply keeps_gets|].
    intros old. apply keeps_assign. reflexivity.
Qed.

Lemma deliver_off_old type ls st :
  fullscreen_on st = false ->
  oldWrapperTextAlign (deliver type ls st) = oldWrapperTextAlign st.
Proof.
  revert st. induction ls as [|[t cb] ls IH]; intros st Hoff; simpl;
    [reflexivity|].
  destruct (String.eqb t type); [|apply IH, Hoff].
  rewrite IH.
  - destruct cb as [|k]; simpl.
    + apply fullScreenChange_off_old, Hoff.
    + apply (keeps_bind oldWrapperTextAlign);
        [apply keeps_enableFullScreen; reflexivity | intros; apply keeps_ret].
  - rewrite (keeps_run_callback fullscreen_on); [exact Hoff | reflexivity ..].
Qed.

Lemma old_step o st :
  negb (is_event o) || negb (fullscreen_on st) = true ->
  oldWrapperTextAlign (step o st) = oldWrapperTextAlign st.
Proof.
  intros H. destruct o; simpl in *;
    try (apply negb_true_iff in H).
  - apply keeps_init; reflexivity.
  - apply keeps_setMode; reflexivity.
  - reflexivity.
  - apply keeps_getSurface; reflexivity.
  - apply keeps__hasFocus; reflexivity.
  - reflexivity.
  - apply keeps__getCanvasOffset; reflexivity.
  - unfold click_toggle.
    destruct (find (has_id TOGGLE_ID) (elems (body (doc st))));
      [apply deliver_off_old, H | reflexivity].
  - apply deliver_off_old, H.
  - reflexivity.
  - unfold user_focus. destruct target as [x|]; [|reflexivity].
    destruct (existsb (has_nid x) (elems (body (doc st)))); reflexivity.
Qed.

(** [oldWrapperTextAlign] keeps its value as long as the change handler has
    not run in fullscreen. *)
Lemma old_until_entered ops st :
  never_entered ops st = true ->
  oldWrapperTextAlign (run ops st) = oldWrapperTextAlign st.
Proof.
  revert st. induction ops as [|o ops IH]; intros st H; [reflexivity|].
  simpl in H. apply andb_true_iff in H. destruct H as [Ho Hr].
  simpl. rewrite (IH _ Hr). apply old_step, Ho.
Qed.

(** C10, as the claim states it, fails: the style never holds the [null].
    On the page [init] leaves, whose wrapper has no alignment of its own, a
    change notification outside fullscreen leaves the wrapper's alignment
    as it was, the empty string. *)
Lemma fullScreenChange_exit_keeps_default :
  exists st',
    fullScreenChange loaded_state = Ok tt st'
    /\ oldWrapperTextAlign loaded_state = None
    /\ wrapper_textAlign loaded_state = Some (Some "")
    /\ wrapper_textAlign st' = wrapper_textAlign loaded_state
    /\ wrapper_textAlign st' <> Some None.
Proof.
  vm_compute. eexists. split; [reflexivity|]. split; [reflexivity|].
  split; [reflexivity|]. split; [reflexivity | discriminate].
Qed.

(** C10, amended. Start with [oldWrapperTextAlign] at its initial [null] and
    let the program run without the change handler ever running in
    fullscreen.  A change notification delivered then, while the platform
    reports no fullscreen, assigns that [null] to the wrapper's
    [style.textAlign], which clears it: the alignment is the empty string
    afterwards, so an alignment the wrapper had is lost, and a wrapper
    that had none is left as it was. *)
Theorem fullScreenChange_exit_without_enter ops st0 e :
  oldWrapperTextAlign st0 = None ->
  never_entered ops st0 = true ->
  element_by_id WRAPPER_ID (run ops st0) = Some e ->
  fullscreen_on (run ops st0) = false ->
  exists st',
    fullScreenChange (run ops st0) = Ok tt st'
    /\ st' = on_body (update_nid (nid e) (set_textAlign None)) (run ops st0)
    /\ wrapper_textAlign st' = Some (Some "")
    /\ (textAlign e <> Some "" ->
        wrapper_textAlign st' <> wrapper_textAlign (run ops st0))
    /\ (textAlign e = Some "" ->
        wrapper_textAlign st' = wrapper_textAlign (run ops st0)).
Proof.
  intros Hold Hrun He Hoff.
  apply fullScreenChange_exit_null; [exact He | exact Hoff|].
  rewrite (old_until_entered ops st0 Hrun). exact Hold.
Qed.

Lemma fullScreenChange_exit_without_enter_witness :
  exists st',
    fullScreenChange
      (run [OSetCaption "game" JUndefined; OHasFocus] aligned_state) = Ok tt st'
    /\ st' = on_body
               (update_nid
                  (nid (wrapper_of
                          (run [OSetCaption "game" JUndefined; OHasFocus]
                             aligned_state)))
                  (set_textAlign None))
               (run [OSetCaption "game" JUndefined; OHasFocus] aligned_state)
    /\ wrapper_textAlign st' = Some (Some "")
    /\ (textAlign
          (wrapper_of
             (run [OSetCaption "game" JUndefined; OHasFocus] aligned_state))
        <> Some "" ->
        wrapper_textAlign st'
        <> wrapper_textAlign
             (run [OSetCaption "game" JUndefined; OHasFocus] aligned_state))
    /\ (textAlign
          (wrapper_of
             (run [OSetCaption "game" JUndefined; OHasFocus] aligned_state))
        = Some "" ->
        wrapper_textAlign st'
        = wrapper_textAlign
            (run [OSetCaption "game" JUndefined; OHasFocus] aligned_state)).
Proof.
  apply (fullScreenChange_exit_without_enter
           [OSetCaption "game" JUndefined; OHasFocus] aligned_state
           (wrapper_of
              (run [OSetCaption "game" JUndefined; OHasFocus] aligned_state)));
    vm_compute; reflexivity.
Defined.

(** * Further properties of the module *)

(** ** The platform's fullscreen state is never written *)

Lemma indicators_step o st :
  is_flags_op o = false ->
  fullscreen_indicators (step o st) = fullscreen_indicators st.
Proof.
  intros H. destruct o; simpl in *; try discriminate.
  - apply keeps_init; reflexivity.
  - apply keeps_setMode; reflexivity.
  - reflexivity.
  - apply keeps_getSurface; reflexivity.
  - apply keeps__hasFocus; reflexivity.
  - reflexivity.
  - apply keeps__getCanvasOffset; reflexivity.
  - unfold click_toggle.
    destruct (find (has_id TOGGLE_ID) (elems (body (doc st))));
      [apply deliver_keeps; reflexivity | reflexivity].
  - apply deliver_keeps; reflexivity.
  - unfold user_focus. destruct target as [x|]; [|reflexivity].
    destruct (existsb (has_nid x) (elems (body (doc st)))); reflexivity.
Qed.

(** X1. No export and no event handler of the module writes the
    platform's fullscreen indicators: in a run in which the platform itself
    does not change them they stay as they were, so [enableFullScreen] only
    asks for fullscreen and [isFullScreen] keeps answering as before. *)
Theorem fullscreen_state_is_the_platforms ops st :
  forallb (fun o => negb (is_flags_op o)) ops = true ->
  fullscreen_indicators (run ops st) = fullscreen_indicators st
  /\ isFullScreen (run ops st) = Ok (fullscreen_on st) (run ops st).
Proof.
  revert st. induction ops as [|o ops IH]; intros st H.
  - split; reflexivity.
  - simpl in H. apply andb_true_iff in H. destruct H as [Ho Hr].
    apply negb_true_iff in Ho.
    destruct (IH (step o st) Hr) as [Hi Hf].
    pose proof (indicators_step o st Ho) as Hs.
    simpl. split; [congruence|]. rewrite Hf. f_equal.
    unfold fullscreen_on. unfold fullscreen_indicators in Hs.
    injection Hs as -> -> -> ->. reflexivity.
Qed.

Lemma fullscreen_state_is_the_platforms_witness :
  fullscreen_indicators
    (run [OInit; OClickToggle; ODocumentEvent "fullscreenchange"] webkit_state)
  = fullscreen_indicators webkit_state
  /\ isFullScreen
       (run [OInit; OClickToggle; ODocumentEvent "fullscreenchange"] webkit_state)
     = Ok (fullscreen_on webkit_state)
          (run [OInit; OClickToggle; ODocumentEvent "fullscreenchange"]
             webkit_state).
Proof.
  apply (fullscreen_state_is_the_platforms
           [OInit; OClickToggle; ODocumentEvent "fullscreenchange"] webkit_state).
  reflexivity.
Defined.

(** ** Requests to the platform *)

(** X2. Run while the platform reports no fullscreen, the change handler
    makes no request to the platform: neither pointer lock nor fullscreen
    is asked for on the way out. *)
Theorem fullScreenChange_exit_requests_nothing st :
  fullscreen_on st = false ->
  platform_requests (final (fullScreenChange st)) = platform_requests st.
Proof.
  intros Hoff. unfold fullScreenChange.
  change (bind isFullScreen ?k st) with (k (fullscreen_on st) st).
  rewrite Hoff.
  apply (keeps_bind platform_requests).
  - apply keeps_getFullScreenWrapper; reflexivity.
  - intros w. apply keeps_bind; [apply keeps_gets|].
    intros old. apply keeps_assign. reflexivity.
Qed.

Lemma fullScreenChange_exit_requests_nothing_witness :
  platform_requests (final (fullScreenChange webkit_state))
  = platform_requests webkit_state.
Proof.
  apply (fullScreenChange_exit_requests_nothing webkit_state). reflexivity.
Defined.

(** ** The smoothing flag *)

Lemma smoothing_after_setMode d f st :
  _SURFACE_SMOOTHING (final (setMode d f st))
  = negb (strict_eq f DISABLE_SMOOTHING).
Proof.
  unfold setMode, bind.
  destruct (getCanvas_focused st) as (c & st1 & E1 & _).
  rewrite E1. unfold assign, modify.
  rewrite (keeps_getSurface _SURFACE_SMOOTHING); reflexivity.
Qed.

Lemma smoothing_step o st :
  is_setMode o = false ->
  _SURFACE_SMOOTHING (step o st) = _SURFACE_SMOOTHING st.
Proof.
  intros H. destruct o; simpl in *; try discriminate.
  - apply keeps_init; reflexivity.
  - reflexivity.
  - apply keeps_getSurface; reflexivity.
  - apply keeps__hasFocus; reflexivity.
  - reflexivity.
  - apply keeps__getCanvasOffset; reflexivity.
  - unfold click_toggle.
    destruct (find (has_id TOGGLE_ID) (elems (body (doc st))));
      [apply deliver_keeps; reflexivity | reflexivity].
  - apply deliver_keeps; reflexivity.
  - reflexivity.
  - unfold user_focus. destruct target as [x|]; [|reflexivity].
    destruct (existsb (has_nid x) (elems (body (doc st)))); reflexivity.
Qed.

Lemma smoothing_run ops st :
  forallb (fun o => negb (is_setMode o)) ops = true ->
  _SURFACE_SMOOTHING (run ops st) = _SURFACE_SMOOTHING st.
Proof.
  revert st. induction ops as [|o ops IH]; intros st H; [reflexivity|].
  simpl in H. apply andb_true_iff in H. destruct H as [Ho Hr].
  apply negb_true_iff in Ho. simpl. rewrite (IH _ Hr).
  apply smoothing_step, Ho.
Qed.

(** X3. [_isSmoothingEnabled] answers with the flag of the last [setMode]:
    after [setMode(d, flags)] and any run without another [setMode] it
    returns [flags !== DISABLE_SMOOTHING], whatever else was called, and it
    changes nothing itself. *)
Theorem _isSmoothingEnabled_follows_setMode d f st ops :
  forallb (fun o => negb (is_setMode o)) ops = true ->
  _isSmoothingEnabled (run ops (final (setMode d f st)))
  = Ok (negb (strict_eq f DISABLE_SMOOTHING))
       (run ops (final (setMode d f st))).
Proof.
  intros H. unfold _isSmoothingEnabled, gets.
  rewrite (smoothing_run ops _ H), smoothing_after_setMode.
  destruct (negb (strict_eq f DISABLE_SMOOTHING)); reflexivity.
Qed.

Lemma _isSmoothingEnabled_follows_setMode_witness :
  _isSmoothingEnabled
    (run [OGetSurface; OInit; OClickToggle]
       (final (setMode [JNum 320; JNum 200] DISABLE_SMOOTHING initial_state)))
  = Ok false
       (run [OGetSurface; OInit; OClickToggle]
          (final (setMode [JNum 320; JNum 200] DISABLE_SMOOTHING initial_state))).
Proof.
  apply (_isSmoothingEnabled_follows_setMode [JNum 320; JNum 200]
           DISABLE_SMOOTHING initial_state [OGetSurface; OInit; OClickToggle]).
  reflexivity.
Defined.

(** ** The Surface objects *)

Lemma setMode_fresh d f st :
  SURFACE st = None ->
  SURFACE (final (setMode d f st)) = Some (List.length (surfaces st))
  /\ exists s, surfaces (final (setMode d f st)) = surfaces st ++ [s].
Proof.
  intros H. unfold setMode, bind.
  destruct (getCanvas_focused st) as (c & st1 & E1 & _ & _ & Hsame & _).
  rewrite E1. unfold assign, modify.
  destruct Hsame as (HS & _ & _ & Hsurf & _).
  set (st4 := set__SURFACE_SMOOTHING _ _).
  assert (SURFACE st4 = None) as HS4 by (simpl; congruence).
  pose proof (getSurface_final st4) as Hf. rewrite HS4 in Hf.
  change (surfaces st4) with (surfaces st1) in Hf. rewrite <- Hsurf in Hf.
  exact Hf.
Qed.

Lemma surfaces_step_cached o st r :
  SURFACE st = Some r -> surfaces (step o st) = surfaces st.
Proof.
  intros H. destruct o; simpl.
  - apply keeps_init; reflexivity.
  - destruct (setMode_cached dimensions flags st r H) as (st' & E & _ & Hs).
    rewrite E. exact Hs.
  - reflexivity.
  - rewrite (getSurface_cached st r H). reflexivity.
  - apply keeps__hasFocus; reflexivity.
  - reflexivity.
  - apply keeps__getCanvasOffset; reflexivity.
  - unfold click_toggle.
    destruct (find (has_id TOGGLE_ID) (elems (body (doc st))));
      [apply deliver_keeps; reflexivity | reflexivity].
  - apply deliver_keeps; reflexivity.
  - reflexivity.
  - unfold user_focus. destruct target as [x|]; [|reflexivity].
    destruct (existsb (has_nid x) (elems (body (doc st)))); reflexivity.
Qed.

Lemma surfaces_run_cached ops st r :
  SURFACE st = Some r -> surfaces (run ops st) = surfaces st.
Proof.
  revert st. induction ops as [|o ops IH]; intros st H; [reflexivity|].
  simpl. rewrite (IH _ (SURFACE_step o st r H)).
  apply (surfaces_step_cached o st r H).
Qed.

Lemma surfaces_step_fresh o st :
  SURFACE st = None ->
  (SURFACE (step o st) = None /\ surfaces (step o st) = surfaces st)
  \/ (exists s, SURFACE (step o st) = Some (List.length (surfaces st))
                /\ surfaces (step o st) = surfaces st ++ [s]).
Proof.
  intros H.
  assert (forall st', SURFACE st' = SURFACE st -> surfaces st' = surfaces st ->
            (SURFACE st' = None /\ surfaces st' = surfaces st)
            \/ (exists s, SURFACE st' = Some (List.length (surfaces st))
                          /\ surfaces st' = surfaces st ++ [s])) as Hkeep.
  { intros st' E1 E2. left. split; congruence. }
  destruct o; simpl.
  - apply Hkeep; apply keeps_init; reflexivity.
  - destruct (setMode_fresh dimensions flags st H) as (HS & s & Hs).
    right. exists s. split; assumption.
  - apply Hkeep; reflexivity.
  - pose proof (getSurface_final st) as Hf. rewrite H in Hf.
    destruct Hf as (HS & s & Hs). right. exists s. split; assumption.
  - apply Hkeep; apply keeps__hasFocus; reflexivity.
  - apply Hkeep; reflexivity.
  - apply Hkeep; apply keeps__getCanvasOffset; reflexivity.
  - unfold click_toggle.
    destruct (find (has_id TOGGLE_ID) (elems (body (doc st))));
      apply Hkeep; try reflexivity; apply deliver_keeps; reflexivity.
  - apply Hkeep; apply deliver_keeps; reflexivity.
  - apply Hkeep; reflexivity.
  - unfold user_focus. destruct target as [x|]; [|apply Hkeep; reflexivity].
    destruct (existsb (has_nid x) (elems (body (doc st))));
      apply Hkeep; reflexivity.
Qed.

(** X4. The module constructs at most one Surface.  Starting without one,
    after any run either there is still none and no Surface object was
    allocated, or exactly one was allocated and the global refers to it. *)
Theorem at_most_one_Surface ops st :
  SURFACE st = None ->
  (SURFACE (run ops st) = None /\ surfaces (run ops st) = surfaces st)
  \/ (exists s, SURFACE (run ops st) = Some (List.length (surfaces st))
                /\ surfaces (run ops st) = surfaces st ++ [s]).
Proof.
  revert st. induction ops as [|o ops IH]; intros st H.
  - left. split; [exact H | reflexivity].
  - simpl. destruct (surfaces_step_fresh o st H) as [[HS Hs] | (s & HS & Hs)].
    + destruct (IH _ HS) as [[HS' Hs'] | (s & HS' & Hs')].
      * left. split; [exact HS' | congruence].
      * right. exists s. rewrite <- Hs. split; assumption.
    + right. exists s.
      rewrite (SURFACE_run ops _ _ HS), (surfaces_run_cached ops _ _ HS).
      split; [reflexivity | exact Hs].
Qed.

Lemma at_most_one_Surface_witness :
  (SURFACE (run [OInit; OSetMode [JNum 8; JNum 8] JUndefined; OGetSurface;
                 OSetMode [JNum 9; JNum 9] DISABLE_SMOOTHING] initial_state)
   = None
   /\ surfaces (run [OInit; OSetMode [JNum 8; JNum 8] JUndefined; OGetSurface;
                     OSetMode [JNum 9; JNum 9] DISABLE_SMOOTHING] initial_state)
      = surfaces initial_state)
  \/ (exists s,
        SURFACE (run [OInit; OSetMode [JNum 8; JNum 8] JUndefined; OGetSurface;
                      OSetMode [JNum 9; JNum 9] DISABLE_SMOOTHING] initial_state)
        = Some (List.length (surfaces initial_state))
        /\ surfaces (run [OInit; OSetMode [JNum 8; JNum 8] JUndefined;
                          OGetSurface;
                          OSetMode [JNum 9; JNum 9] DISABLE_SMOOTHING]
                       initial_state)
           = surfaces initial_state ++ [s]).
Proof.
  apply (at_most_one_Surface
           [OInit; OSetMode [JNum 8; JNum 8] JUndefined; OGetSurface;
            OSetMode [JNum 9; JNum 9] DISABLE_SMOOTHING] initial_state).
  reflexivity.
Defined.

(** X5. Once the display Surface exists the module never writes to a
    Surface object again: after any run its size, its canvas and context
    bindings and its smoothing are what they were, also after further calls
    of [setMode]. *)
Theorem Surface_never_rewritten ops st r :
  SURFACE st = Some r ->
  surfaces (run ops st) = surfaces st
  /\ nth_error (surfaces (run ops st)) r = nth_error (surfaces st) r.
Proof.
  intros H. pose proof (surfaces_run_cached ops st r H) as Hs.
  split; [exact Hs | rewrite Hs; reflexivity].
Qed.

Lemma Surface_never_rewritten_witness :
  surfaces (run [OSetMode [JNum 9; JNum 9] DISABLE_SMOOTHING; OInit]
              (final (getSurface initial_state)))
  = surfaces (final (getSurface initial_state))
  /\ nth_error
       (surfaces (run [OSetMode [JNum 9; JNum 9] DISABLE_SMOOTHING; OInit]
                    (final (getSurface initial_state)))) 0
     = nth_error (surfaces (final (getSurface initial_state))) 0.
Proof.
  apply (Surface_never_rewritten
           [OSetMode [JNum 9; JNum 9] DISABLE_SMOOTHING; OInit]
           (final (getSurface initial_state)) 0).
  vm_compute. reflexivity.
Defined.

(** X6. On a page whose canvas is a canvas and without a Surface yet,
    [getSurface] allocates one Surface and makes the global refer to it.
    The Surface is bound to the canvas of the document and to its 2d
    context; its size is the canvas's client size at that moment and its
    smoothing the current flag. *)
Theorem getSurface_binds_canvas st :
  wf st ->
  canvas_usable st = true ->
  SURFACE st = None ->
  exists r st' s e,
    getSurface st = Ok (Some r) st'
    /\ r = List.length (surfaces st)
    /\ surfaces st' = surfaces st ++ [s]
    /\ SURFACE st' = Some r
    /\ nth_error (surfaces st') r = Some s
    /\ element_by_id CANVAS_ID st' = Some e
    /\ is_canvas e = true
    /\ _canvas s = Some (nid e)
    /\ _context s = Some (Context2d (nid e))
    /\ surf_size s = [JNum (clientWidth e); JNum (clientHeight e)]
    /\ smoothing s = Some (_SURFACE_SMOOTHING st).
Proof.
  intros Hwf Hu H.
  destruct (getSurface_fresh st Hwf Hu H) as (c & st1 & e' & E1 & Hd & Hs).
  destruct (getCanvas_usable st Hwf Hu)
    as (c2 & st2 & e & E2 & He & Hn & Hd' & Hc).
  rewrite E1 in E2. injection E2 as <- <-.
  rewrite Hd in Hd'. injection Hd' as ->.
  eexists. eexists. eexists. exists e. split; [exact Hs|].
  split; [reflexivity|]. split; [reflexivity|]. split; [reflexivity|].
  split.
  { cbn [surfaces set_surfaces]. rewrite nth_error_app2 by lia.
    rewrite Nat.sub_diag. reflexivity. }
  split; [exact He|]. split; [exact Hc|]. rewrite Hn. repeat split.
Qed.

Lemma getSurface_binds_canvas_witness :
  exists r st' s e,
    getSurface loaded_state = Ok (Some r) st'
    /\ r = List.length (surfaces loaded_state)
    /\ surfaces st' = surfaces loaded_state ++ [s]
    /\ SURFACE st' = Some r
    /\ nth_error (surfaces st') r = Some s
    /\ element_by_id CANVAS_ID st' = Some e
    /\ is_canvas e = true
    /\ _canvas s = Some (nid e)
    /\ _context s = Some (Context2d (nid e))
    /\ surf_size s = [JNum (clientWidth e); JNum (clientHeight e)]
    /\ smoothing s = Some (_SURFACE_SMOOTHING loaded_state).
Proof.
  apply (getSurface_binds_canvas loaded_state).
  - apply wf_check_sound. vm_compute. reflexivity.
  - reflexivity.
  - vm_compute. reflexivity.
Defined.

(** ** getCanvas, called again *)

Lemma on_doc_same g st : g (doc st) = doc st -> on_doc g st = st.
Proof.
  intros H. unfold on_doc. rewrite H. destruct st. reflexivity.
Qed.

Lemma set_tabindex_same e :
  tabindex e = Some "1" -> set_attribute "tabindex" "1" e = e.
Proof.
  destruct e. simpl. intros ->. reflexivity.
Qed.

Lemma set_activeElement_same d a :
  activeElement d = a -> set_activeElement a d = d.
Proof. destruct d. simpl. intros ->. reflexivity. Qed.

(** On a page where the canvas already has its tabindex and the focus,
    [getCanvas] returns it and changes nothing. *)
Lemma getCanvas_settled st e :
  wf st ->
  element_by_id CANVAS_ID st = Some e ->
  tabindex e = Some "1" ->
  activeElement (doc st) = Some (nid e) ->
  getCanvas st = Ok (nid e) st.
Proof.
  intros Hwf He Ht Ha. rewrite getCanvas_eq, He. f_equal.
  unfold canvas_touch. rewrite (on_body_same _ st).
  - apply on_doc_same, set_activeElement_same, Ha.
  - apply update_nid_same. intros e' Hin Hn.
    rewrite (same_nid_same_element st e e' Hwf
               (proj1 (element_by_id_in _ _ _ He)) Hin Hn).
    apply set_tabindex_same, Ht.
Qed.

Lemma getCanvas_then_settled st :
  wf st ->
  exists c st1 e,
    getCanvas st = Ok c st1
    /\ wf st1
    /\ element_by_id CANVAS_ID st1 = Some e
    /\ nid e = c
    /\ activeElement (doc st1) = Some c
    /\ deref c (body (doc st1)) = Some e
    /\ getCanvas st1 = Ok c st1.
Proof.
  intros Hwf.
  destruct (getCanvas_spec st Hwf) as (c & st1 & E1 & Hwf1 & _ & _ & _ & Hf & _).
  destruct Hf as (e & He & Ht & Ha).
  destruct (getCanvas_focused st) as (c' & st1' & E1' & _ & Ha' & _).
  rewrite E1 in E1'. injection E1' as <- <-.
  assert (nid e = c) as Hn by congruence.
  exists c, st1, e. split; [exact E1|]. split; [exact Hwf1|].
  split; [exact He|]. split; [exact Hn|]. split; [exact Ha'|]. split.
  - rewrite <- Hn. apply deref_unique; [exact Hwf1|].
    apply (element_by_id_in _ _ _ He).
  - rewrite <- Hn. apply getCanvas_settled; assumption.
Qed.

(** X7. [getCanvas] is idempotent: called again right after a call it
    returns the same element and changes nothing, so at most the first of
    a series of calls creates the canvas, sets the attribute or moves the
    focus. *)
Theorem getCanvas_idempotent st :
  wf st ->
  exists c st1,
    getCanvas st = Ok c st1
    /\ getCanvas st1 = Ok c st1
    /\ (c <- getCanvas ;; getCanvas) st = getCanvas st.
Proof.
  intros Hwf.
  destruct (getCanvas_then_settled st Hwf) as (c & st1 & e & E1 & _ & _ & _ & _ & _ & E2).
  exists c, st1. split; [exact E1|]. split; [exact E2|].
  unfold bind. rewrite E1. exact E2.
Qed.

Lemma getCanvas_idempotent_witness :
  exists c st1,
    getCanvas initial_state = Ok c st1
    /\ getCanvas st1 = Ok c st1
    /\ (c <- getCanvas ;; getCanvas) initial_state = getCanvas initial_state.
Proof.
  apply (getCanvas_idempotent initial_state).
  apply wf_check_sound. vm_compute. reflexivity.
Defined.



(** X9. [_getCanvasOffset] returns the left and top of the bounding
    rectangle of the canvas of the document, in this order; a second call
    returns the same pair and changes nothing. *)
Theorem _getCanvasOffset_of_canvas st :
  wf st ->
  exists st1 e,
    _getCanvasOffset st = Ok [rectLeft e; rectTop e] st1
    /\ element_by_id CANVAS_ID st1 = Some e
    /\ _getCanvasOffset st1 = Ok [rectLeft e; rectTop e] st1.
Proof.
  intros Hwf.
  destruct (getCanvas_then_settled st Hwf)
    as (c & st1 & e & E1 & _ & He & _ & _ & Hd & E2).
  exists st1, e. unfold _getCanvasOffset, bind.
  rewrite E1, E2, !(prop_found _ _ _ _ Hd).
  split; [reflexivity|]. split; [exact He | reflexivity].
Qed.

Lemma _getCanvasOffset_of_canvas_witness :
  exists st1 e,
    _getCanvasOffset initial_state = Ok [rectLeft e; rectTop e] st1
    /\ element_by_id CANVAS_ID st1 = Some e
    /\ _getCanvasOffset st1 = Ok [rectLeft e; rectTop e] st1.
Proof.
  apply (_getCanvasOffset_of_canvas initial_state).
  apply wf_check_sound. vm_compute. reflexivity.
Defined.

(** ** Where getFullScreenWrapper puts the canvas *)

Lemma locate_node_root p c sub :
  has_nid c (root sub) = true -> locate_node p c sub = Some (p, sub).
Proof. destruct sub as [e ks]. simpl. intros ->. reflexivity. Qed.

(** After [sub], rooted at [c], was appended below [k] in a forest without
    [c], the place of [c] is there. *)
Lemma locate_in_appended p c k sub (f : forest) :
  cnt (has_nid c) f = 0 ->
  1 <= cnt (has_nid k) f ->
  has_nid c (root sub) = true ->
  locate_in p c (map (append_node k sub) f) = Some (PElem k, sub).
Proof.
  intros Hc Hk Hroot. revert p Hc Hk.
  induction f as [|e ks f IHk IHf] using forest_ind'; intros p Hc Hk.
  - rewrite cnt_nil in Hk. lia.
  - rewrite cnt_cons in Hc, Hk. rewrite append_node_cons, locate_in_cons.
    unfold one in Hc. destruct (has_nid c e) eqn:Ec; [lia|].
    unfold locate_in at 1. rewrite first_some_app.
    fold (locate_in (PElem (nid e)) c (map (append_node k sub) ks)).
    destruct (Nat.eq_dec (cnt (has_nid k) ks) 0) as [Hk0 | Hk1].
    + assert (locate_in (PElem (nid e)) c (map (append_node k sub) ks) = None)
        as ->.
      { apply locate_in_none. rewrite cnt_append_node, Hk0. lia. }
      unfold one in Hk. destruct (has_nid k e) eqn:Ek.
      * simpl. rewrite (locate_node_root _ _ _ Hroot).
        apply Nat.eqb_eq in Ek. rewrite Ek. reflexivity.
      * simpl. apply IHf; lia.
    + rewrite IHk by lia. reflexivity.
Qed.

Lemma find_unique_with {A} (P Q : A -> bool) l :
  List.length (filter P l) <= 1 ->
  1 <= List.length (filter (fun a => P a && Q a) l) ->
  exists a, find P l = Some a /\ Q a = true.
Proof.
  induction l as [|a l IH]; simpl; [lia|].
  destruct (P a) eqn:Pa; simpl.
  - destruct (Q a) eqn:Qa; simpl.
    + intros _ _. exists a. split; [reflexivity | exact Qa].
    + intros H1 H2. exfalso.
      assert (List.length (filter (fun a => P a && Q a) l)
              <= List.length (filter P l)); [|lia].
      clear. induction l as [|b l IH]; simpl; [lia|].
      destruct (P b); simpl; [destruct (Q b); simpl; lia | exact IH].
  - exact IH.
Qed.

Lemma cnt_and_le P Q f : cnt (fun e => P e && Q e) f <= cnt Q f.
Proof.
  unfold cnt. induction (elems f) as [|a l IH]; simpl; [lia|].
  destruct (P a), (Q a); simpl; lia.
Qed.

Lemma cnt_in P e f : In e (elems f) -> P e = true -> 1 <= cnt P f.
Proof.
  intros Hin HP. apply existsb_length, existsb_exists. exists e.
  split; assumption.
Qed.

(** [getFullScreenWrapper] on a page without a wrapper, in full. *)
Lemma getFullScreenWrapper_created st :
  wf st ->
  element_by_id WRAPPER_ID st = None ->
  exists c st' sub,
    getFullScreenWrapper st = Ok (next_nid (doc st)) st'
    /\ wf st'
    /\ locate c (body (doc st')) = Some (PElem (next_nid (doc st)), sub)
    /\ (forall P,
          cnt P (body (doc st'))
          = cnt P (body (doc (final (getCanvas
                (set_doc (set_next_nid (S (next_nid (doc st))) (doc st)) st)))))
            + one P (set_elem_id "gjs-canvas-wrapper"
                       (new_element (next_nid (doc st)) "div" (proto (doc st)))))
    /\ getCanvas (set_doc (set_next_nid (S (next_nid (doc st))) (doc st)) st)
       = Ok c (final (getCanvas
                (set_doc (set_next_nid (S (next_nid (doc st))) (doc st)) st))).
Proof.
  intros Hwf E.
  unfold getFullScreenWrapper, bind, getElementById, gets.
  unfold element_by_id, WRAPPER_ID in E. rewrite E.
  unfold createElement. cbn [option_map]. cbv beta iota zeta.
  set (k := next_nid (doc st)).
  set (st0 := set_doc (set_next_nid (S k) (doc st)) st).
  set (w := set_elem_id "gjs-canvas-wrapper" (new_element k "div" (proto (doc st)))).
  change (set_root (set_elem_id "gjs-canvas-wrapper")
            (Node (new_element k "div" (proto (doc st))) []))
    with (Node w []).
  change (nid (root (Node w []))) with k.
  destruct (getCanvas_spec st0 (wf_bump st Hwf))
    as (c & st1 & E1 & Hwf1 & Hn1 & Hc1 & Hcp & _ & Hcnt1).
  rewrite E1. cbn [final].
  assert (cnt (has_nid k) (body (doc st1)) = 0) as Hk1.
  { rewrite Hcnt1 by apply id_pred_has_nid.
    change (body (doc st0)) with (body (doc st)).
    rewrite (wf_fresh _ Hwf k) by (unfold k; lia).
    destruct (Nat.eqb (cnt_id CANVAS_ID st0) 0); [|reflexivity].
    rewrite one_has_nid.
    change (nid (stub (next_nid (doc st0)) CANVAS_ID)) with (S k).
    destruct (Nat.eqb_spec (S k) k); [lia | reflexivity]. }
  destruct (locate_present c _ Hcp) as (p & sub & Hloc).
  unfold parentNode. rewrite Hloc.
  unfold appendChild at 1. cbv beta iota.
  rewrite (locate_parent_attached _ _ _ _ Hloc).
  destruct (append_at_parent c (body (doc st1)) p sub w
              (wf_unique _ Hwf1) Hk1 Hloc) as (Hcnt2 & sub2 & Hloc2 & Hsub2).
  set (st2 := on_body (append_under p (Node w [])) st1).
  unfold appendChild.
  change (body (doc st2)) with (append_under p (Node w []) (body (doc st1))).
  rewrite Hloc2.
  set (b2 := append_under p (Node w []) (body (doc st1))) in *.
  assert (cnt (has_nid c) b2 <= 1) as Hc2.
  { rewrite Hcnt2, one_has_nid. change (nid w) with k.
    destruct (Nat.eqb_spec k c) as [<- | _]; [lia|].
    pose proof (wf_unique _ Hwf1 c). lia. }
  assert (cnt (has_nid k) b2 = 1) as Hk2.
  { rewrite Hcnt2, Hk1, one_has_nid. change (nid w) with k.
    rewrite Nat.eqb_refl. reflexivity. }
  destruct (move_below c k _ p sub2 Hc2 Hloc2 Hk2 Hsub2) as (Hin & Hatt & Hcnt3).
  rewrite Hin, Hatt.
  exists c. eexists. exists sub2. split; [reflexivity|].
  split; [|split; [|split; [|reflexivity]]].
  - constructor; simpl.
    + intros y. rewrite Hcnt3, Hcnt2, one_has_nid. change (nid w) with k.
      destruct (Nat.eqb_spec k y) as [<- | _]; [lia|].
      pose proof (wf_unique _ Hwf1 y). lia.
    + intros y Hy. rewrite Hcnt3, Hcnt2, one_has_nid. change (nid w) with k.
      rewrite (wf_fresh _ Hwf1 y Hy).
      change (next_nid (doc st0)) with (S k) in Hn1.
      destruct (Nat.eqb_spec k y); [lia | reflexivity].
    + apply blur_removed_lt. apply (wf_active _ Hwf1).
  - cbn [doc body on_doc set_doc set_body set_activeElement].
    unfold locate in Hloc2 |- *.
    pose proof (locate_in_some _ _ _ _ _ Hloc2) as (Hroot & Hle & _).
    pose proof (cnt_remove (has_nid c) _ _ _ _ _ Hc2 Hloc2) as Hrc.
    pose proof (cnt_remove (has_nid k) _ _ _ _ _ Hc2 Hloc2) as Hrk.
    assert (1 <= cnt (has_nid c) [sub2]) as Hcs.
    { destruct sub2 as [e2 ks2]. rewrite cnt_single. unfold one.
      simpl in Hroot. rewrite Hroot. lia. }
    unfold b2 in *. change (nid w) with k in Hsub2.
    apply locate_in_appended; [lia | lia | exact Hroot].
  - intros P. cbn [doc body on_doc set_doc set_body set_activeElement].
    rewrite Hcnt3. unfold b2. rewrite Hcnt2. reflexivity.
Qed.

(** [getFullScreenWrapper] returns the wrapper of the document it leaves. *)
Lemma getFullScreenWrapper_returns st :
  wf st ->
  exists w st' ew,
    getFullScreenWrapper st = Ok w st'
    /\ wf st'
    /\ element_by_id WRAPPER_ID st' = Some ew
    /\ nid ew = w
    /\ getFullScreenWrapper st' = Ok w st'.
Proof.
  intros Hwf. destruct (element_by_id WRAPPER_ID st) as [e|] eqn:E.
  - exists (nid e), st, e. rewrite (getFullScreenWrapper_found _ _ E).
    split; [reflexivity|]. split; [exact Hwf|]. split; [exact E|].
    split; reflexivity.
  - destruct (getFullScreenWrapper_created st Hwf E)
      as (c & st' & sub & E' & Hwf' & _ & Hcnt & Ec).
    set (k := next_nid (doc st)) in *.
    set (st0 := set_doc (set_next_nid (S k) (doc st)) st) in *.
    set (w := set_elem_id "gjs-canvas-wrapper" (new_element k "div" (proto (doc st)))) in *.
    destruct (getCanvas_spec st0 (wf_bump st Hwf))
      as (c1 & st1 & E1 & _ & _ & _ & _ & _ & Hcnt1).
    rewrite E1 in Hcnt. cbn [final] in Hcnt.
    assert (cnt (has_id WRAPPER_ID) (body (doc st1)) = 0) as Hw1.
    { rewrite Hcnt1 by apply id_pred_has_id.
      change (body (doc st0)) with (body (doc st)).
      apply cnt_id_zero in E. unfold cnt_id in E. rewrite E.
      destruct (Nat.eqb (cnt_id CANVAS_ID st0) 0); reflexivity. }
    destruct (find_unique_with (has_id WRAPPER_ID) (has_nid k)
                (elems (body (doc st')))) as (ew & Hew & Hk).
    + fold (cnt (has_id WRAPPER_ID) (body (doc st'))). rewrite Hcnt, Hw1.
      unfold one. destruct (has_id WRAPPER_ID w); lia.
    + fold (cnt (fun e => has_id WRAPPER_ID e && has_nid k e) (body (doc st'))).
      rewrite Hcnt. unfold one at 1.
      replace (has_id WRAPPER_ID w && has_nid k w) with true; [lia|].
      unfold has_nid, w. cbn [nid set_elem_id new_element].
      rewrite Nat.eqb_refl. reflexivity.
    + exists k, st', ew. split; [exact E'|]. split; [exact Hwf'|].
      split; [exact Hew|]. apply Nat.eqb_eq in Hk. split; [exact Hk|].
      rewrite <- Hk. apply getFullScreenWrapper_found. exact Hew.
Qed.

(** X10. On a page without a wrapper but with at most one canvas,
    [getFullScreenWrapper] creates the wrapper and puts the canvas into it:
    afterwards [getElementById] finds the wrapper it returned, and the
    parent of the canvas is that wrapper. *)
Theorem getFullScreenWrapper_wraps_canvas st :
  wf st ->
  element_by_id WRAPPER_ID st = None ->
  cnt_id CANVAS_ID st <= 1 ->
  exists w st' ew ec,
    getFullScreenWrapper st = Ok w st'
    /\ element_by_id WRAPPER_ID st' = Some ew
    /\ nid ew = w
    /\ element_by_id CANVAS_ID st' = Some ec
    /\ parentNode (nid ec) st' = Ok (PElem w) st'.
Proof.
  intros Hwf E Hc.
  destruct (getFullScreenWrapper_returns st Hwf)
    as (w & st' & ew & E' & _ & Hew & Hnw & _).
  destruct (getFullScreenWrapper_created st Hwf E)
    as (c & st'' & sub & E'' & _ & Hloc & Hcnt & Ec).
  rewrite E' in E''. injection E'' as -> <-.
  set (k := next_nid (doc st)) in *.
  set (st0 := set_doc (set_next_nid (S k) (doc st)) st) in *.
  set (we := set_elem_id "gjs-canvas-wrapper" (new_element k "div" (proto (doc st)))) in *.
  destruct (getCanvas_spec st0 (wf_bump st Hwf))
    as (c1 & st1 & E1 & _ & _ & _ & _ & _ & Hcnt1).
  destruct (getCanvas_focused st0)
    as (c2 & st2 & E2 & _ & _ & _ & (e1 & He1 & Hn1) & _).
  rewrite E1 in E2. injection E2 as <- <-.
  rewrite E1 in Ec. injection Ec as <-.
  rewrite E1 in Hcnt. cbn [final] in Hcnt.
  destruct (find_unique_with (has_id CANVAS_ID) (has_nid c1)
              (elems (body (doc st')))) as (ec & Hec & Hk).
  - fold (cnt (has_id CANVAS_ID) (body (doc st'))). rewrite Hcnt.
    rewrite Hcnt1 by apply id_pred_has_id.
    change (body (doc st0)) with (body (doc st)).
    change (cnt_id CANVAS_ID st0) with (cnt_id CANVAS_ID st).
    unfold cnt_id in *. rewrite one_has_id_stub.
    change (one (has_id CANVAS_ID) we) with 0.
    destruct (Nat.eqb_spec (cnt (has_id CANVAS_ID) (body (doc st))) 0);
      simpl; lia.
  - fold (cnt (fun e => has_id CANVAS_ID e && has_nid c1 e) (body (doc st'))).
    rewrite Hcnt.
    assert (1 <= cnt (fun e => has_id CANVAS_ID e && has_nid c1 e)
                   (body (doc st1))); [|lia].
    apply (cnt_in _ e1); [apply (element_by_id_in _ _ _ He1)|].
    apply find_some in He1. destruct He1 as [_ Hid]. rewrite Hid.
    unfold has_nid. rewrite Hn1, Nat.eqb_refl. reflexivity.
  - exists k, st', ew, ec. split; [exact E'|]. split; [exact Hew|].
    split; [exact Hnw|]. split; [exact Hec|].
    apply Nat.eqb_eq in Hk. rewrite Hk. unfold parentNode. rewrite Hloc.
    reflexivity.
Qed.

Lemma getFullScreenWrapper_wraps_canvas_witness :
  exists w st' ew ec,
    getFullScreenWrapper initial_state = Ok w st'
    /\ element_by_id WRAPPER_ID st' = Some ew
    /\ nid ew = w
    /\ element_by_id CANVAS_ID st' = Some ec
    /\ parentNode (nid ec) st' = Ok (PElem w) st'.
Proof.
  apply (getFullScreenWrapper_wraps_canvas initial_state).
  - apply wf_check_sound. vm_compute. reflexivity.
  - vm_compute. reflexivity.
  - vm_compute. lia.
Defined.

(** ** Requesting fullscreen, in general *)

(** The functions that start with [getFullScreenWrapper()] do on a page
    without a wrapper what they do on the page with the wrapper created. *)
Lemma enableFullScreen_after_wrapper st w st1 :
  getFullScreenWrapper st = Ok w st1 ->
  getFullScreenWrapper st1 = Ok w st1 ->
  enableFullScreen st = enableFullScreen st1.
Proof.
  intros H H1. unfold enableFullScreen, bind. rewrite H, H1. reflexivity.
Qed.

Lemma enablePointerLock_after_wrapper st w st1 :
  getFullScreenWrapper st = Ok w st1 ->
  getFullScreenWrapper st1 = Ok w st1 ->
  enablePointerLock st = enablePointerLock st1.
Proof.
  intros H H1. unfold enablePointerLock, bind. rewrite H, H1. reflexivity.
Qed.

Lemma fullScreenChange_after_wrapper st w st1 :
  getFullScreenWrapper st = Ok w st1 ->
  getFullScreenWrapper st1 = Ok w st1 ->
  fullScreenChange st = fullScreenChange st1.
Proof.
  intros H H1.
  assert (fullscreen_on st1 = fullscreen_on st) as Hfs.
  { pose proof (keeps_getFullScreenWrapper fullscreen_on
                  ltac:(reflexivity) st) as K.
    rewrite H in K. exact K. }
  unfold fullScreenChange, bind. rewrite !isFullScreen_eq, Hfs.
  destruct (fullscreen_on st).
  - rewrite (enablePointerLock_after_wrapper _ _ _ H H1). reflexivity.
  - rewrite H, H1. reflexivity.
Qed.

Lemma log_fullscreen_body x v st :
  body (doc (log_fullscreen x v st)) = body (doc st).
Proof. destruct v; reflexivity. Qed.

(** X11. [enableFullScreen] first makes sure the wrapper exists.  It then
    returns [true] exactly when the wrapper has one of the three request
    methods, taking the unprefixed one before the moz one before the webkit
    one; in that case it stores the method in [wrapper.requestFullScreen]
    and makes exactly one fullscreen request on the wrapper, otherwise it
    makes none.  It never asks for pointer lock. *)
Theorem enableFullScreen_requests st :
  wf st ->
  exists st1 ew st',
    getFullScreenWrapper st = Ok (nid ew) st1
    /\ element_by_id WRAPPER_ID st1 = Some ew
    /\ enableFullScreen st = Ok (truthy (fullscreen_method ew)) st'
    /\ fullscreen_method ew
       = match requestFullScreen (elem_methods ew) with
         | Some v => Some v
         | None =>
             match mozRequestFullScreen (elem_methods ew) with
             | Some v => Some v
             | None => webkitRequestFullScreen (elem_methods ew)
             end
         end
    /\ fullscreenRequests (doc st')
       = fullscreenRequests (doc st)
           ++ (if truthy (fullscreen_method ew) then [nid ew] else [])
    /\ pointerLockRequests (doc st') = pointerLockRequests (doc st)
    /\ exists ew',
         element_by_id WRAPPER_ID st' = Some ew'
         /\ nid ew' = nid ew
         /\ requestFullScreen (elem_methods ew') = fullscreen_method ew.
Proof.
  intros Hwf.
  destruct (getFullScreenWrapper_returns st Hwf)
    as (w & st1 & ew & E & Hwf1 & Hew & Hn & E1).
  subst w. exists st1, ew.
  rewrite (enableFullScreen_after_wrapper _ _ _ E E1).
  rewrite (enableFullScreen_found _ _ Hwf1 Hew).
  assert (platform_requests st1 = platform_requests st) as K.
  { pose proof (keeps_getFullScreenWrapper platform_requests) as K.
    specialize (K ltac:(reflexivity) st). rewrite E in K. exact K. }
  unfold platform_requests in K. injection K as Kf Kp.
  eexists. split; [exact E|]. split; [exact Hew|]. split; [reflexivity|].
  split.
  { unfold fullscreen_method, js_or.
    destruct (requestFullScreen (elem_methods ew)); [reflexivity|].
    destruct (mozRequestFullScreen (elem_methods ew)); reflexivity. }
  split.
  { rewrite <- Kf. destruct (fullscreen_method ew); simpl;
      [reflexivity | rewrite app_nil_r; reflexivity]. }
  split.
  { rewrite <- Kp. destruct (fullscreen_method ew); reflexivity. }
  exists (set_requestFullScreen (fullscreen_method ew) ew). split.
  - unfold element_by_id. rewrite log_fullscreen_body.
    apply (assign_by_id WRAPPER_ID st1 ew);
      [apply keeps_id_requestFullScreen | exact Hew].
  - split; reflexivity.
Qed.

Lemma enableFullScreen_requests_witness :
  exists st1 ew st',
    getFullScreenWrapper webkit_state = Ok (nid ew) st1
    /\ element_by_id WRAPPER_ID st1 = Some ew
    /\ enableFullScreen webkit_state = Ok (truthy (fullscreen_method ew)) st'
    /\ fullscreen_method ew
       = match requestFullScreen (elem_methods ew) with
         | Some v => Some v
         | None =>
             match mozRequestFullScreen (elem_methods ew) with
             | Some v => Some v
             | None => webkitRequestFullScreen (elem_methods ew)
             end
         end
    /\ fullscreenRequests (doc st')
       = fullscreenRequests (doc webkit_state)
           ++ (if truthy (fullscreen_method ew) then [nid ew] else [])
    /\ pointerLockRequests (doc st') = pointerLockRequests (doc webkit_state)
    /\ exists ew',
         element_by_id WRAPPER_ID st' = Some ew'
         /\ nid ew' = nid ew
         /\ requestFullScreen (elem_methods ew') = fullscreen_method ew.
Proof.
  apply (enableFullScreen_requests webkit_state).
  apply wf_check_sound. vm_compute. reflexivity.
Defined.

(** ** Exceptions *)

Lemma enablePointerLock_returns st :
  wf st -> exists st', enablePointerLock st = Ok tt st'.
Proof.
  intros Hwf.
  destruct (getFullScreenWrapper_returns st Hwf)
    as (w & st1 & ew & E & Hwf1 & Hew & Hn & E1).
  rewrite (enablePointerLock_after_wrapper _ _ _ E E1).
  rewrite (enablePointerLock_found _ _ Hwf1 Hew). eexists. reflexivity.
Qed.

Lemma fullScreenChange_returns st :
  wf st -> exists st', fullScreenChange st = Ok tt st'.
Proof.
  intros Hwf.
  destruct (getFullScreenWrapper_returns st Hwf)
    as (w & st1 & ew & E & Hwf1 & Hew & Hn & E1).
  rewrite (fullScreenChange_after_wrapper _ _ _ E E1).
  destruct (fullscreen_on st1) eqn:Hfs.
  - rewrite (fullScreenChange_enter _ _ Hwf1 Hew Hfs). eexists. reflexivity.
  - rewrite (fullScreenChange_exit _ _ Hew Hfs). eexists. reflexivity.
Qed.

Lemma enableFullScreen_returns st :
  wf st -> exists b st', enableFullScreen st = Ok b st'.
Proof.
  intros Hwf.
  destruct (getFullScreenWrapper_returns st Hwf)
    as (w & st1 & ew & E & Hwf1 & Hew & Hn & E1).
  rewrite (enableFullScreen_after_wrapper _ _ _ E E1).
  rewrite (enableFullScreen_found _ _ Hwf1 Hew). eexists. eexists. reflexivity.
Qed.

(** X12. On a well-formed page [init], [_hasFocus], [_isSmoothingEnabled],
    [_getCanvasOffset] and [setCaption] return, and so do the click handler
    of the toggle and the fullscreen-change handler: the DOM calls inside
    never raise a HierarchyRequestError, a NotFoundError or a TypeError.
    [getSurface] and [setMode], given an array of dimensions, return when
    the element with the id of the canvas is a canvas. *)
Theorem module_never_throws st :
  wf st ->
  (exists st', init st = Ok tt st')
  /\ (exists b st', _hasFocus st = Ok b st')
  /\ (exists b st', _isSmoothingEnabled st = Ok b st')
  /\ (exists r st', _getCanvasOffset st = Ok r st')
  /\ (forall t i, exists st', setCaption t i st = Ok tt st')
  /\ (forall cb, exists st', run_callback cb st = Ok tt st')
  /\ (canvas_usable st = true ->
      (forall d f, exists r st', setMode d f st = Ok (Some r) st')
      /\ exists r st', getSurface st = Ok (Some r) st').
Proof.
  intros Hwf.
  split.
  { destruct (init_spec st Hwf) as (st' & E & _). exists st'. exact E. }
  split.
  { destruct (_hasFocus_focuses st) as (b & st' & E & _).
    exists b, st'. exact E. }
  split; [eexists; eexists; reflexivity|].
  split.
  { destruct (_getCanvasOffset_focuses st) as (r & st' & E & _).
    exists r, st'. exact E. }
  split; [intros t i; eexists; reflexivity|].
  split.
  { intros [|k]; simpl.
    - apply fullScreenChange_returns, Hwf.
    - destruct (enableFullScreen_returns st Hwf) as (b & st' & E).
      unfold bind. rewrite E. eexists. reflexivity. }
  intros Hu. split.
  - intros d f. apply setMode_returns; assumption.
  - destruct (getSurface_total st Hwf Hu) as (r & st' & E & _).
    exists r, st'. exact E.
Qed.

Lemma module_never_throws_witness :
  (exists st', init initial_state = Ok tt st')
  /\ (exists b st', _hasFocus initial_state = Ok b st')
  /\ (exists b st', _isSmoothingEnabled initial_state = Ok b st')
  /\ (exists r st', _getCanvasOffset initial_state = Ok r st')
  /\ (forall t i, exists st', setCaption t i initial_state = Ok tt st')
  /\ (forall cb, exists st', run_callback cb initial_state = Ok tt st')
  /\ (canvas_usable initial_state = true ->
      (forall d f, exists r st', setMode d f initial_state = Ok (Some r) st')
      /\ exists r st', getSurface initial_state = Ok (Some r) st').
Proof.
  apply (module_never_throws initial_state).
  apply wf_check_sound. vm_compute. reflexivity.
Defined.



(** ** init, statement by statement *)

Lemma wf_registered b st : wf st -> wf (registered b st).
Proof.
  intros H.
  assert (wf (on_body
                (update_nid b (fun e =>
                   set_elem_listeners
                     (add_listener ("click", CbToggleClick (closures st))
                        (elem_listeners e)) e)) st)) as [Hu Hf Ha].
  { apply wf_assign; [exact H | apply keeps_id_listeners]. }
  constructor; [exact Hu | exact Hf | exact Ha].
Qed.

Lemma wf_hide_loader st : wf st -> wf (hide_loader st).
Proof.
  intros H. unfold hide_loader.
  destruct (element_by_id LOADER_ID st); [|exact H].
  apply wf_assign; [exact H | apply keeps_id_display].
Qed.

Lemma init_steps st :
  wf st ->
  exists w st1 b st2 c st4,
    getFullScreenWrapper st = Ok w st1 /\ wf st1
    /\ getFullScreenToggle st1 = Ok b st2 /\ wf st2
    /\ getCanvas (registered b st2) = Ok c st4 /\ wf st4
    /\ init st = Ok tt (hide_loader st4).
Proof.
  intros Hwf.
  destruct (getFullScreenWrapper_spec st Hwf) as (w & st1 & E1 & Hwf1 & _).
  destruct (getFullScreenToggle_spec st1 Hwf1) as (b & st2 & kb & E2 & Hwf2 & _).
  destruct (getCanvas_spec (registered b st2) (wf_registered b st2 Hwf2))
    as (c & st4 & E4 & Hwf4 & _).
  exists w, st1, b, st2, c, st4.
  split; [exact E1|]. split; [exact Hwf1|]. split; [exact E2|].
  split; [exact Hwf2|]. split; [exact E4|]. split; [exact Hwf4|].
  unfold init, bind. rewrite E1, E2.
  unfold new_closure, addEventListener, document_addEventListener, assign, modify.
  fold (registered b st2). rewrite E4.
  unfold getElementById, gets, hide_loader, element_by_id, LOADER_ID.
  destruct (find (has_id "gjs-loader") (elems (body (doc st4)))); reflexivity.
Qed.

(** ** The listeners on the document *)

Lemma listeners_init st :
  wf st ->
  doc_listeners (doc (final (init st)))
  = add_listener ("mozfullscreenchange", CbFullScreenChange)
      (add_listener ("webkitfullscreenchange", CbFullScreenChange)
         (add_listener ("fullscreenchange", CbFullScreenChange)
            (doc_listeners (doc st)))).
Proof.
  intros Hwf.
  destruct (init_steps st Hwf)
    as (w & st1 & b & st2 & c & st4 & E1 & _ & E2 & _ & E4 & _ & E).
  rewrite E. cbn [final].
  assert (doc_listeners (doc (hide_loader st4)) = doc_listeners (doc st4)) as ->.
  { unfold hide_loader. destruct (element_by_id LOADER_ID st4); reflexivity. }
  pose proof (keeps_getCanvas (fun s => doc_listeners (doc s))
                ltac:(reflexivity) (registered b st2)) as K4.
  rewrite E4 in K4. cbn [final] in K4. rewrite K4.
  pose proof (keeps_getFullScreenToggle (fun s => doc_listeners (doc s))
                ltac:(reflexivity) st1) as K2.
  rewrite E2 in K2. cbn [final] in K2.
  pose proof (keeps_getFullScreenWrapper (fun s => doc_listeners (doc s))
                ltac:(reflexivity) st) as K1.
  rewrite E1 in K1. cbn [final] in K1.
  rewrite <- K1, <- K2. reflexivity.
Qed.

Lemma listeners_step o st :
  is_init o = false ->
  doc_listeners (doc (step o st)) = doc_listeners (doc st).
Proof.
  intros H. destruct o; simpl in *; try discriminate.
  - apply (keeps_setMode (fun s => doc_listeners (doc s))); reflexivity.
  - reflexivity.
  - apply (keeps_getSurface (fun s => doc_listeners (doc s))); reflexivity.
  - apply (keeps__hasFocus (fun s => doc_listeners (doc s))); reflexivity.
  - reflexivity.
  - apply (keeps__getCanvasOffset (fun s => doc_listeners (doc s))); reflexivity.
  - unfold click_toggle.
    destruct (find (has_id TOGGLE_ID) (elems (body (doc st))));
      [|reflexivity].
    apply (deliver_keeps (fun s => doc_listeners (doc s))); reflexivity.
  - apply (deliver_keeps (fun s => doc_listeners (doc s))); reflexivity.
  - reflexivity.
  - unfold user_focus. destruct target as [x|]; [|reflexivity].
    destruct (existsb (has_nid x) (elems (body (doc st)))); reflexivity.
Qed.

Lemma listeners_stay ops st :
  wf st ->
  doc_listeners (doc st)
  = [("fullscreenchange", CbFullScreenChange);
     ("webkitfullscreenchange", CbFullScreenChange);
     ("mozfullscreenchange", CbFullScreenChange)] ->
  doc_listeners (doc (run ops st)) = doc_listeners (doc st).
Proof.
  revert st. induction ops as [|o ops IH]; intros st Hwf H; [reflexivity|].
  assert (doc_listeners (doc (step o st)) = doc_listeners (doc st)) as Hs.
  { destruct (is_init o) eqn:Ho; [|apply listeners_step, Ho].
    destruct o; try discriminate. simpl.
    rewrite (listeners_init st Hwf), H. reflexivity. }
  simpl. rewrite IH; [exact Hs | apply wf_step_op, Hwf | congruence].
Qed.

(** X13. On a page whose document has no listeners yet, a run that calls
    [init] at least once, however often and between whatever other calls
    and events, leaves exactly three listeners on the document: the change
    handler under each of the three event names.  An event of one of these
    names therefore runs [fullScreenChange] once. *)
Theorem change_handler_registered_once ops st :
  wf st ->
  doc_listeners (doc st) = [] ->
  existsb is_init ops = true ->
  doc_listeners (doc (run ops st))
  = [("fullscreenchange", CbFullScreenChange);
     ("webkitfullscreenchange", CbFullScreenChange);
     ("mozfullscreenchange", CbFullScreenChange)]
  /\ forall type,
       In type ["fullscreenchange"; "webkitfullscreenchange";
                "mozfullscreenchange"] ->
       step (ODocumentEvent type) (run ops st)
       = final (fullScreenChange (run ops st)).
Proof.
  intros Hwf H Hi.
  assert (doc_listeners (doc (run ops st))
          = [("fullscreenchange", CbFullScreenChange);
             ("webkitfullscreenchange", CbFullScreenChange);
             ("mozfullscreenchange", CbFullScreenChange)]) as Hl.
  { revert st Hwf H Hi. induction ops as [|o ops IH]; intros st Hwf H Hi;
      [discriminate|].
    simpl in Hi. destruct (is_init o) eqn:Ho.
    - destruct o; try discriminate.
      assert (doc_listeners (doc (step OInit st))
              = [("fullscreenchange", CbFullScreenChange);
                 ("webkitfullscreenchange", CbFullScreenChange);
                 ("mozfullscreenchange", CbFullScreenChange)]) as Hs.
      { simpl. rewrite (listeners_init st Hwf), H. reflexivity. }
      change (run (OInit :: ops) st) with (run ops (step OInit st)).
      rewrite (listeners_stay ops _ (wf_step_op OInit st Hwf) Hs). exact Hs.
    - change (run (o :: ops) st) with (run ops (step o st)).
      apply IH; [apply wf_step_op, Hwf | | exact Hi].
      rewrite (listeners_step o st Ho). exact H. }
  split; [exact Hl|].
  intros type Ht. cbn [step]. rewrite Hl.
  simpl in Ht. destruct Ht as [<- | [<- | [<- | []]]]; reflexivity.
Qed.

Lemma change_handler_registered_once_witness :
  doc_listeners
    (doc (run [OGetSurface; OInit; OClickToggle; OInit] initial_state))
  = [("fullscreenchange", CbFullScreenChange);
     ("webkitfullscreenchange", CbFullScreenChange);
     ("mozfullscreenchange", CbFullScreenChange)]
  /\ forall type,
       In type ["fullscreenchange"; "webkitfullscreenchange";
                "mozfullscreenchange"] ->
       step (ODocumentEvent type)
         (run [OGetSurface; OInit; OClickToggle; OInit] initial_state)
       = final (fullScreenChange
                  (run [OGetSurface; OInit; OClickToggle; OInit] initial_state)).
Proof.
  apply (change_handler_registered_once
           [OGetSurface; OInit; OClickToggle; OInit] initial_state).
  - apply wf_check_sound. vm_compute. reflexivity.
  - reflexivity.
  - reflexivity.
Defined.

(** ** The loader *)

Lemma one_has_id_other s n s' : s' <> s -> one (has_id s) (stub n s') = 0.
Proof.
  intros H. rewrite one_has_id_stub.
  destruct (String.eqb_spec s' s); [contradiction | reflexivity].
Qed.

Lemma cnt_id_registered s b st : cnt_id s (registered b st) = cnt_id s st.
Proof.
  unfold cnt_id. simpl.
  apply cnt_update_id; [apply id_pred_has_id | apply keeps_id_listeners].
Qed.

Lemma cnt_id_hide_loader s st : cnt_id s (hide_loader st) = cnt_id s st.
Proof.
  unfold hide_loader. destruct (element_by_id LOADER_ID st); [|reflexivity].
  unfold cnt_id. simpl.
  apply cnt_update_id; [apply id_pred_has_id | apply keeps_id_display].
Qed.

(** [init] creates no element with an id other than the three of the
    module (the [br] it may add has none). *)
Lemma init_other_ids s st :
  wf st ->
  s <> WRAPPER_ID -> s <> CANVAS_ID -> s <> TOGGLE_ID -> s <> "" ->
  exists st4,
    init st = Ok tt (hide_loader st4)
    /\ wf st4
    /\ cnt_id s st4 = cnt_id s st.
Proof.
  intros Hwf Hw Hc Ht He.
  destruct (init_steps st Hwf)
    as (w & st1 & b & st2 & c & st4 & E1 & Hwf1 & E2 & Hwf2 & E4 & Hwf4 & E).
  exists st4. split; [exact E|]. split; [exact Hwf4|].
  destruct (getFullScreenWrapper_spec st Hwf) as (w' & st1' & E1' & _ & _ & C1).
  rewrite E1 in E1'. injection E1' as <- <-.
  destruct (getFullScreenToggle_spec st1 Hwf1)
    as (b' & st2' & kb & E2' & _ & _ & C2).
  rewrite E2 in E2'. injection E2' as <- <-.
  destruct (getCanvas_spec (registered b st2) (wf_registered b st2 Hwf2))
    as (c' & st4' & E4' & _ & _ & _ & _ & _ & C4).
  rewrite E4 in E4'. injection E4' as <- <-.
  specialize (C1 _ (id_pred_has_id s)).
  specialize (C2 _ (id_pred_has_id s)).
  specialize (C4 _ (id_pred_has_id s)).
  repeat rewrite one_has_id_stub in C1.
  repeat rewrite one_has_id_stub in C2.
  repeat rewrite one_has_id_stub in C4.
  repeat match goal with
         | H : context [String.eqb ?a s] |- _ =>
             destruct (String.eqb_spec a s); [congruence|]
         end.
  fold (cnt_id s st4) in C4. fold (cnt_id s (registered b st2)) in C4.
  rewrite cnt_id_registered in C4.
  fold (cnt_id s st2) in C2. fold (cnt_id s st1) in C2, C1.
  fold (cnt_id s st) in C1.
  rewrite C4, C2, C1.
  repeat match goal with
         | |- context [Nat.eqb ?a 0] => destruct (Nat.eqb a 0)
         end; lia.
Qed.

(** X14. [init] neither creates nor removes an element with the id of the
    loader; when the page has one, the one [getElementById] finds ends up
    with [style.display = "none"]. *)
Theorem init_hides_loader st :
  wf st ->
  exists st',
    init st = Ok tt st'
    /\ cnt_id LOADER_ID st' = cnt_id LOADER_ID st
    /\ (1 <= cnt_id LOADER_ID st ->
        exists l, element_by_id LOADER_ID st' = Some l
                  /\ display l = Some "none").
Proof.
  intros Hwf.
  destruct (init_other_ids LOADER_ID st Hwf) as (st4 & E & _ & C);
    try discriminate.
  exists (hide_loader st4). split; [exact E|].
  rewrite cnt_id_hide_loader. split; [exact C|].
  intros H. unfold hide_loader.
  destruct (element_by_id LOADER_ID st4) as [l|] eqn:El.
  - exists (set_display (Some "none") l). split; [|reflexivity].
    apply assign_by_id; [apply keeps_id_display | exact El].
  - apply cnt_id_zero in El. lia.
Qed.

Lemma init_hides_loader_witness :
  exists st',
    init loader_state = Ok tt st'
    /\ cnt_id LOADER_ID st' = cnt_id LOADER_ID loader_state
    /\ (1 <= cnt_id LOADER_ID loader_state ->
        exists l, element_by_id LOADER_ID st' = Some l
                  /\ display l = Some "none").
Proof.
  apply (init_hides_loader loader_state).
  apply wf_check_sound. vm_compute. reflexivity.
Defined.

(** ** The click handlers on the toggle *)

(** Counting with any predicate that does not look at [tabindex]. *)
Lemma getCanvas_cnt P st :
  (forall e, P (set_attribute "tabindex" "1" e) = P e) ->
  cnt P (body (doc (final (getCanvas st))))
  = cnt P (body (doc st))
    + match element_by_id CANVAS_ID st with
      | Some _ => 0
      | None =>
          one P (set_attribute "id" CANVAS_ID
                   (new_element (next_nid (doc st)) "canvas" (proto (doc st))))
      end.
Proof.
  intros HP. rewrite getCanvas_eq.
  destruct (element_by_id CANVAS_ID st) as [e|]; cbn [final].
  - unfold canvas_touch. simpl. rewrite cnt_update by exact HP. lia.
  - unfold canvas_touch, canvas_created. simpl.
    rewrite cnt_update by exact HP.
    rewrite cnt_app, cnt_single, cnt_nil. lia.
Qed.

(** [getFullScreenToggle] on a page without a toggle, in full. *)
Lemma getFullScreenToggle_created st :
  wf st ->
  element_by_id TOGGLE_ID st = None ->
  exists st' kb,
    getFullScreenToggle st = Ok (next_nid (doc st)) st'
    /\ (forall P,
         cnt P (body (doc st'))
         = cnt P (body (doc (final (getCanvas
               (set_doc (set_next_nid (S (next_nid (doc st))) (doc st)) st)))))
           + one P (set_elem_id "gjs-fullscreen-toggle"
                      (set_innerHTML "Fullscreen"
                         (new_element (next_nid (doc st)) "button"
                            (proto (doc st)))))
           + one P (new_element kb "br" (proto (doc st))))
    /\ exists c,
         getCanvas (set_doc (set_next_nid (S (next_nid (doc st))) (doc st)) st)
         = Ok c (final (getCanvas
               (set_doc (set_next_nid (S (next_nid (doc st))) (doc st)) st)))
         /\ cnt (has_nid c)
              (body (doc (final (getCanvas
                 (set_doc (set_next_nid (S (next_nid (doc st))) (doc st)) st)))))
            = 1
         /\ cnt (has_nid (next_nid (doc st)))
              (body (doc (final (getCanvas
                 (set_doc (set_next_nid (S (next_nid (doc st))) (doc st)) st)))))
            = 0
         /\ c < kb
         /\ next_nid (doc st) < kb
         /\ body (doc st')
            = insert_before_nid c (Node (new_element kb "br" (proto (doc st))) [])
                (insert_before_nid c
                   (Node (set_elem_id "gjs-fullscreen-toggle"
                            (set_innerHTML "Fullscreen"
                               (new_element (next_nid (doc st)) "button"
                                  (proto (doc st))))) [])
                   (body (doc (final (getCanvas
                      (set_doc (set_next_nid (S (next_nid (doc st))) (doc st))
                         st)))))).
Proof.
  intros Hwf E.
  unfold getFullScreenToggle, bind, getElementById, gets.
  unfold element_by_id, TOGGLE_ID in E. rewrite E.
  unfold createElement. cbn [option_map]. cbv beta iota zeta.
  set (k := next_nid (doc st)).
  set (st0 := set_doc (set_next_nid (S k) (doc st)) st).
  set (w := set_elem_id "gjs-fullscreen-toggle"
              (set_innerHTML "Fullscreen"
                 (new_element k "button" (proto (doc st))))).
  change (set_root (set_elem_id "gjs-fullscreen-toggle")
            (set_root (set_innerHTML "Fullscreen")
               (Node (new_element k "button" (proto (doc st))) [])))
    with (Node w []).
  change (nid (root (Node w []))) with k.
  destruct (getCanvas_spec st0 (wf_bump st Hwf))
    as (c & st1 & E1 & Hwf1 & Hn1 & Hc1 & Hcp & _ & Hcnt1).
  rewrite E1. cbn [final].
  assert (proto (doc st1) = proto (doc st)) as Hproto.
  { pose proof (keeps_getCanvas (fun s => proto (doc s))
                  ltac:(reflexivity) st0) as K.
    rewrite E1 in K. exact K. }
  change (next_nid (doc st0)) with (S k) in *.
  assert (cnt (has_nid c) (body (doc st1)) = 1) as Hc1'.
  { pose proof (wf_unique _ Hwf1 c). lia. }
  destruct (locate_present c _ Hcp) as (p & sub & Hloc).
  unfold parentNode at 1. rewrite Hloc.
  unfold insertBefore at 1. rewrite Hloc, parent_eqb_refl.
  set (b2 := insert_before_nid c (Node w []) (body (doc st1))).
  assert (forall P, cnt P b2 = cnt P (body (doc st1)) + one P w) as Hcnt2.
  { intros P. apply insert_before_present. exact Hc1'. }
  assert (cnt (has_nid k) (body (doc st1)) = 0) as Hk1.
  { rewrite Hcnt1 by apply id_pred_has_nid.
    change (body (doc st0)) with (body (doc st)).
    rewrite (wf_fresh _ Hwf k) by (unfold k; lia).
    destruct (Nat.eqb (cnt_id CANVAS_ID st0) 0); [|reflexivity].
    rewrite one_has_nid.
    change (nid (stub (S k) CANVAS_ID)) with (S k).
    destruct (Nat.eqb_spec (S k) k); [lia | reflexivity]. }
  assert (cnt (has_nid c) b2 = 1) as Hc2.
  { rewrite Hcnt2, Hc1', one_has_nid. change (nid w) with k.
    destruct (Nat.eqb_spec k c) as [Hkc | _]; [|reflexivity].
    rewrite <- Hkc in Hc1'. lia. }
  destruct (locate_present c b2 ltac:(lia)) as (p2 & sub2 & Hloc2).
  unfold parentNode.
  change (body (doc (on_body (insert_before_nid c (Node w [])) st1))) with b2.
  rewrite Hloc2.
  set (kb := next_nid (doc st1)).
  change (next_nid (doc (on_body (insert_before_nid c (Node w [])) st1)))
    with kb.
  change (proto (doc (on_body (insert_before_nid c (Node w [])) st1)))
    with (proto (doc st1)).
  rewrite Hproto.
  set (br := new_element kb "br" (proto (doc st))).
  unfold insertBefore.
  match goal with
  | |- context [locate c (body (doc ?s))] =>
      change (body (doc s)) with b2
  end.
  rewrite Hloc2, parent_eqb_refl.
  eexists. exists kb. split; [reflexivity|]. split.
  { intros P. simpl. rewrite insert_before_present by exact Hc2.
    rewrite Hcnt2. reflexivity. }
  exists c. split; [reflexivity|]. split; [exact Hc1'|]. split; [exact Hk1|].
  split; [exact Hc1|]. split; [exact Hn1 | reflexivity].
Qed.

Lemma cnt_ext P P' f : (forall e, P e = P' e) -> cnt P f = cnt P' f.
Proof.
  intros H. unfold cnt. induction (elems f) as [|a l IH]; simpl; [reflexivity|].
  rewrite H. destruct (P' a); simpl; rewrite IH; reflexivity.
Qed.

Lemma cnt_and_le_l P Q f : cnt (fun e => P e && Q e) f <= cnt P f.
Proof.
  unfold cnt. induction (elems f) as [|a l IH]; simpl; [lia|].
  destruct (P a), (Q a); simpl; lia.
Qed.

Lemma listener_eq_dec (a b : listener) : {a = b} + {a <> b}.
Proof.
  decide equality; [decide equality; apply Nat.eq_dec | apply string_dec].
Qed.

(** Where the elements with the id of the toggle are the same up to their
    place in the tree, and there is at most one, [getElementById] finds the
    toggle with the same listeners. *)
Lemma toggle_listeners_moved st st' :
  cnt_id TOGGLE_ID st <= 1 ->
  (forall Q,
     (forall e e', elem_listeners e = elem_listeners e' -> Q e = Q e') ->
     cnt (fun e => has_id TOGGLE_ID e && Q e) (body (doc st'))
     = cnt (fun e => has_id TOGGLE_ID e && Q e) (body (doc st))) ->
  toggle_listeners st' = toggle_listeners st
  /\ cnt_id TOGGLE_ID st' = cnt_id TOGGLE_ID st.
Proof.
  intros Hle H.
  assert (cnt_id TOGGLE_ID st' = cnt_id TOGGLE_ID st) as Hc.
  { unfold cnt_id.
    rewrite (cnt_ext (has_id TOGGLE_ID) (fun e => has_id TOGGLE_ID e && true))
      by (intros; rewrite andb_true_r; reflexivity).
    rewrite (cnt_ext (has_id TOGGLE_ID) (fun e => has_id TOGGLE_ID e && true)
               (body (doc st)))
      by (intros; rewrite andb_true_r; reflexivity).
    apply (H (fun _ => true)). reflexivity. }
  split; [|exact Hc].
  unfold toggle_listeners.
  destruct (element_by_id TOGGLE_ID st) as [e|] eqn:E.
  - set (Q := fun a : element =>
                if list_eq_dec listener_eq_dec (elem_listeners a)
                     (elem_listeners e)
                then true else false).
    destruct (find_unique_with (has_id TOGGLE_ID) Q (elems (body (doc st'))))
      as (a & Ha & HQ).
    + fold (cnt (has_id TOGGLE_ID) (body (doc st'))).
      fold (cnt_id TOGGLE_ID st'). lia.
    + fold (cnt (fun e => has_id TOGGLE_ID e && Q e) (body (doc st'))).
      rewrite (H Q).
      * apply (cnt_in _ e).
        -- apply (element_by_id_in _ _ _ E).
        -- apply find_some in E. destruct E as [_ ->]. unfold Q.
           destruct (list_eq_dec listener_eq_dec (elem_listeners e)
                       (elem_listeners e)); [reflexivity | contradiction].
      * intros x y Hxy. unfold Q. rewrite Hxy. reflexivity.
    + unfold element_by_id. rewrite Ha. unfold Q in HQ.
      destruct (list_eq_dec listener_eq_dec (elem_listeners a)
                  (elem_listeners e)); [assumption | discriminate].
  - apply cnt_id_zero in E. rewrite E in Hc. apply cnt_id_zero in Hc.
    rewrite Hc. reflexivity.
Qed.

Lemma toggle_listeners_getFullScreenWrapper st :
  wf st ->
  cnt_id TOGGLE_ID st <= 1 ->
  toggle_listeners (final (getFullScreenWrapper st)) = toggle_listeners st
  /\ cnt_id TOGGLE_ID (final (getFullScreenWrapper st)) = cnt_id TOGGLE_ID st.
Proof.
  intros Hwf Hle.
  destruct (element_by_id WRAPPER_ID st) as [e|] eqn:E.
  - rewrite (getFullScreenWrapper_found _ _ E). split; reflexivity.
  - destruct (getFullScreenWrapper_created st Hwf E)
      as (c & st' & sub & E' & _ & _ & Hcnt & _).
    rewrite E'. cbn [final]. apply toggle_listeners_moved; [exact Hle|].
    intros Q HQ. rewrite Hcnt, getCanvas_cnt.
    + change (element_by_id CANVAS_ID
                (set_doc (set_next_nid (S (next_nid (doc st))) (doc st)) st))
        with (element_by_id CANVAS_ID st).
      destruct (element_by_id CANVAS_ID st); simpl; unfold one; simpl; lia.
    + intros a. f_equal. apply HQ. reflexivity.
Qed.

Lemma toggle_listeners_getFullScreenToggle st :
  wf st ->
  cnt_id TOGGLE_ID st <= 1 ->
  exists b st' e,
    getFullScreenToggle st = Ok b st'
    /\ element_by_id TOGGLE_ID st' = Some e
    /\ nid e = b
    /\ elem_listeners e = toggle_listeners st.
Proof.
  intros Hwf Hle. unfold toggle_listeners.
  destruct (element_by_id TOGGLE_ID st) as [e|] eqn:E.
  - exists (nid e), st, e. rewrite (getFullScreenToggle_found _ _ E).
    repeat split. exact E.
  - destruct (getFullScreenToggle_created st Hwf E)
      as (st' & kb & E' & Hcnt & _).
    set (k := next_nid (doc st)) in *.
    set (st0 := set_doc (set_next_nid (S k) (doc st)) st) in *.
    set (w := set_elem_id "gjs-fullscreen-toggle"
                (set_innerHTML "Fullscreen"
                   (new_element k "button" (proto (doc st))))) in *.
    set (br := new_element kb "br" (proto (doc st))) in *.
    assert (forall Q,
              (forall a, Q (set_attribute "tabindex" "1" a) = Q a) ->
              cnt (fun a => has_id TOGGLE_ID a && Q a) (body (doc st'))
              = one Q w) as Hq.
    { intros Q HQ. rewrite Hcnt, getCanvas_cnt.
      - change (element_by_id CANVAS_ID st0) with (element_by_id CANVAS_ID st).
        change (body (doc st0)) with (body (doc st)).
        assert (cnt (fun a => has_id TOGGLE_ID a && Q a) (body (doc st)) = 0)
          as ->.
        { pose proof (cnt_and_le_l (has_id TOGGLE_ID) Q (body (doc st))) as L.
          apply cnt_id_zero in E. unfold cnt_id in E. lia. }
        destruct (element_by_id CANVAS_ID st); unfold one; simpl;
          destruct (Q w); reflexivity.
      - intros a. rewrite HQ. reflexivity. }
    set (Q := fun a : element =>
                has_nid k a
                && match elem_listeners a with [] => true | _ => false end).
    destruct (find_unique_with (has_id TOGGLE_ID) Q (elems (body (doc st'))))
      as (a & Ha & HQa).
    + fold (cnt (has_id TOGGLE_ID) (body (doc st'))).
      rewrite (cnt_ext (has_id TOGGLE_ID)
                 (fun e => has_id TOGGLE_ID e && true))
        by (intros; rewrite andb_true_r; reflexivity).
      rewrite (Hq (fun _ => true)) by reflexivity. reflexivity.
    + fold (cnt (fun e => has_id TOGGLE_ID e && Q e) (body (doc st'))).
      rewrite (Hq Q) by reflexivity.
      unfold one, Q, has_nid, w. cbn [nid set_elem_id set_innerHTML new_element].
      rewrite Nat.eqb_refl. simpl. lia.
    + exists k, st', a. split; [exact E'|]. split; [exact Ha|].
      unfold Q in HQa. apply andb_true_iff in HQa. destruct HQa as [Hn Hl].
      apply Nat.eqb_eq in Hn. split; [exact Hn|].
      destruct (elem_listeners a); [reflexivity | discriminate].
Qed.

Lemma find_snoc_other {A} (P : A -> bool) l c :
  P c = false -> find P (l ++ [c]) = find P l.
Proof.
  intros H. induction l as [|a l IH]; simpl; [rewrite H; reflexivity|].
  destruct (P a); [reflexivity | exact IH].
Qed.

Lemma toggle_listeners_assign x g st :
  keeps_id g -> (forall e, elem_listeners (g e) = elem_listeners e) ->
  toggle_listeners (on_body (update_nid x g) st) = toggle_listeners st.
Proof.
  intros Hg Hl. unfold toggle_listeners.
  rewrite element_by_id_assign by exact Hg.
  destruct (element_by_id TOGGLE_ID st) as [e|]; [|reflexivity]. simpl.
  destruct (has_nid x e); [apply Hl | reflexivity].
Qed.

Lemma toggle_listeners_getCanvas st :
  toggle_listeners (final (getCanvas st)) = toggle_listeners st.
Proof.
  rewrite getCanvas_eq.
  destruct (element_by_id CANVAS_ID st) as [e|]; cbn [final]; unfold canvas_touch.
  - change (toggle_listeners (on_doc ?f ?s)) with (toggle_listeners s).
    apply toggle_listeners_assign; [apply keeps_id_tabindex | reflexivity].
  - change (toggle_listeners (on_doc ?f ?s)) with (toggle_listeners s).
    rewrite toggle_listeners_assign by (try apply keeps_id_tabindex; reflexivity).
    unfold toggle_listeners, element_by_id, canvas_created. simpl.
    rewrite elems_snoc, find_snoc_other by reflexivity. reflexivity.
Qed.

Lemma toggle_listeners_hide_loader st :
  toggle_listeners (hide_loader st) = toggle_listeners st.
Proof.
  unfold hide_loader. destruct (element_by_id LOADER_ID st); [|reflexivity].
  apply toggle_listeners_assign; [apply keeps_id_display | reflexivity].
Qed.

(** One call of [init]: the toggle gets the new closure as a click
    listener. *)
Lemma init_toggle_listeners st :
  wf st ->
  cnt_id TOGGLE_ID st <= 1 ->
  exists st',
    init st = Ok tt st'
    /\ wf st'
    /\ cnt_id TOGGLE_ID st' = 1
    /\ closures st' = S (closures st)
    /\ toggle_listeners st'
       = add_listener ("click", CbToggleClick (closures st))
           (toggle_listeners st).
Proof.
  intros Hwf Hle.
  destruct (init_spec st Hwf) as (st' & E & Hwf' & _ & _ & _ & Ht).
  exists st'. split; [exact E|]. split; [exact Hwf'|]. split; [lia|].
  destruct (init_steps st Hwf)
    as (w & st1 & b & st2 & c & st4 & E1 & Hwf1 & E2 & _ & E4 & _ & E').
  rewrite E in E'. injection E' as ->.
  destruct (toggle_listeners_getFullScreenWrapper st Hwf Hle) as [L1 C1].
  rewrite E1 in L1, C1. cbn [final] in L1, C1.
  destruct (toggle_listeners_getFullScreenToggle st1 Hwf1 ltac:(lia))
    as (b' & st2' & e2 & E2' & He2 & Hb & L2).
  rewrite E2 in E2'. injection E2' as <- <-.
  assert (closures st2 = closures st) as Hcl.
  { pose proof (keeps_getFullScreenToggle closures ltac:(reflexivity) st1) as K2.
    pose proof (keeps_getFullScreenWrapper closures ltac:(reflexivity) st) as K1.
    rewrite E2 in K2. rewrite E1 in K1. cbn [final] in K1, K2. congruence. }
  split.
  - unfold hide_loader.
    assert (closures st4 = S (closures st2)) as H4.
    { pose proof (keeps_getCanvas closures ltac:(reflexivity)
                    (registered b st2)) as K4.
      rewrite E4 in K4. exact K4. }
    destruct (element_by_id LOADER_ID st4); simpl; congruence.
  - rewrite toggle_listeners_hide_loader.
    pose proof (toggle_listeners_getCanvas (registered b st2)) as L4.
    rewrite E4 in L4. cbn [final] in L4. rewrite L4.
    unfold toggle_listeners at 1, registered.
    change (element_by_id TOGGLE_ID (on_doc ?f ?s))
      with (element_by_id TOGGLE_ID s).
    change (element_by_id TOGGLE_ID (on_doc ?f ?s))
      with (element_by_id TOGGLE_ID s).
    change (element_by_id TOGGLE_ID (on_doc ?f ?s))
      with (element_by_id TOGGLE_ID s).
    change (element_by_id TOGGLE_ID
              (on_body ?f (set_closures ?n st2)))
      with (element_by_id TOGGLE_ID (on_body f st2)).
    rewrite <- Hb.
    rewrite (assign_by_id TOGGLE_ID st2 e2) by
      (try apply keeps_id_listeners; exact He2).
    cbn [elem_listeners set_elem_listeners]. rewrite L2, L1, Hcl. reflexivity.
Qed.

Lemma add_listener_new c ls :
  forallb (fun l => match snd l with
                    | CbToggleClick k => Nat.ltb k c
                    | CbFullScreenChange => true
                    end) ls = true ->
  add_listener ("click", CbToggleClick c) ls
  = ls ++ [("click", CbToggleClick c)].
Proof.
  intros H. unfold add_listener.
  assert (existsb (listener_eqb ("click", CbToggleClick c)) ls = false) as ->;
    [|reflexivity].
  induction ls as [|[t cb] ls IH]; [reflexivity|].
  simpl in H. apply andb_true_iff in H. destruct H as [Ha Hr].
  simpl. rewrite (IH Hr), orb_false_r.
  unfold listener_eqb. simpl. destruct cb as [|k]; simpl.
  - apply andb_false_r.
  - apply Nat.ltb_lt in Ha.
    destruct (Nat.eqb_spec c k); [lia | apply andb_false_r].
Qed.

Lemma click_handlers_S k n :
  click_handlers k (S n)
  = ("click", CbToggleClick k) :: click_handlers (S k) n.
Proof.
  unfold click_handlers. simpl. rewrite Nat.add_0_r. f_equal.
  rewrite <- seq_shift, map_map. apply map_ext. intros i.
  rewrite Nat.add_succ_r. reflexivity.
Qed.

Lemma click_handlers_clicks k n :
  List.length (filter is_click (click_handlers k n)) = n.
Proof.
  unfold click_handlers. generalize 0 as s.
  induction n as [|n IH]; intros s; simpl; [reflexivity|].
  rewrite IH. reflexivity.
Qed.

(** X15. Every call of [init] registers one more click handler on the
    toggle: the handler is a new function object each time, so
    [addEventListener] never takes it for one already registered.  After
    [n] calls the toggle carries [n] more click listeners than before. *)
Theorem init_click_handlers_accumulate n st :
  wf st ->
  cnt_id TOGGLE_ID st <= 1 ->
  closures_allocated st = true ->
  exists st',
    repeat_init n st = Ok tt st'
    /\ toggle_listeners st'
       = toggle_listeners st ++ click_handlers (closures st) n
    /\ List.length (filter is_click (toggle_listeners st'))
       = List.length (filter is_click (toggle_listeners st)) + n.
Proof.
  intros Hwf Hle Hal.
  assert (exists st',
            repeat_init n st = Ok tt st'
            /\ toggle_listeners st'
               = toggle_listeners st ++ click_handlers (closures st) n)
    as (st' & E & L).
  { revert st Hwf Hle Hal. induction n as [|n IH]; intros st Hwf Hle Hal.
    - exists st. split; [reflexivity|]. unfold click_handlers. simpl.
      rewrite app_nil_r. reflexivity.
    - destruct (init_toggle_listeners st Hwf Hle)
        as (st1 & E1 & Hwf1 & Hc1 & Hcl1 & L1).
      rewrite (add_listener_new _ _ Hal) in L1.
      destruct (IH st1 Hwf1 ltac:(lia)) as (st' & E & L).
      { unfold closures_allocated. rewrite L1, Hcl1, forallb_app.
        apply andb_true_iff. split.
        - unfold closures_allocated in Hal.
          rewrite forallb_forall in Hal |- *. intros l Hl.
          specialize (Hal l Hl). destruct (snd l) as [|k]; [reflexivity|].
          apply Nat.ltb_lt in Hal. apply Nat.ltb_lt. lia.
        - simpl. rewrite andb_true_r. apply Nat.ltb_lt. lia. }
      exists st'. cbn [repeat_init]. unfold bind. rewrite E1.
      split; [exact E|].
      rewrite L, L1, Hcl1, click_handlers_S, <- app_assoc. reflexivity. }
  exists st'. split; [exact E|]. split; [exact L|].
  rewrite L, filter_app, length_app. f_equal.
  apply click_handlers_clicks.
Qed.

Lemma init_click_handlers_accumulate_witness :
  exists st',
    repeat_init 3 loader_state = Ok tt st'
    /\ toggle_listeners st'
       = toggle_listeners loader_state
           ++ click_handlers (closures loader_state) 3
    /\ List.length (filter is_click (toggle_listeners st'))
       = List.length (filter is_click (toggle_listeners loader_state)) + 3.
Proof.
  apply (init_click_handlers_accumulate 3 loader_state).
  - apply wf_check_sound. vm_compute. reflexivity.
  - vm_compute. lia.
  - reflexivity.
Defined.

(** ** A click on the toggle *)

Lemma fullscreen_method_stored e :
  fullscreen_method (set_requestFullScreen (fullscreen_method e) e)
  = fullscreen_method e.
Proof.
  unfold fullscreen_method, set_requestFullScreen, js_or. simpl.
  destruct (requestFullScreen (elem_methods e)); [reflexivity|].
  destruct (mozRequestFullScreen (elem_methods e)); [reflexivity|].
  destruct (webkitRequestFullScreen (elem_methods e)); reflexivity.
Qed.

Lemma deliver_clicks ls st ew :
  wf st ->
  element_by_id WRAPPER_ID st = Some ew ->
  clicks_from_init ls = true ->
  fullscreenRequests (doc (deliver "click" ls st))
  = fullscreenRequests (doc st)
      ++ repeat (nid ew)
           (if truthy (fullscreen_method ew)
            then List.length (filter is_click ls) else 0).
Proof.
  revert st ew. induction ls as [|[t cb] ls IH]; intros st ew Hwf Hew Hc.
  - simpl. destruct (truthy (fullscreen_method ew)); simpl;
      rewrite app_nil_r; reflexivity.
  - simpl in Hc. apply andb_true_iff in Hc. destruct Hc as [Ha Hr].
    unfold is_click in Ha. simpl in Ha.
    cbn [deliver filter]. unfold is_click at 1. cbn [fst].
    destruct (String.eqb t "click") eqn:Et.
    + destruct cb as [|k]; [discriminate|].
      cbn [run_callback]. unfold bind at 1.
      rewrite (enableFullScreen_found _ _ Hwf Hew). cbn [final ret].
      set (st' := log_fullscreen (nid ew) (fullscreen_method ew)
                    (on_body (update_nid (nid ew)
                                (set_requestFullScreen (fullscreen_method ew)))
                       st)).
      assert (wf st') as Hwf'.
      { pose proof (wf_pres_enableFullScreen st Hwf) as H.
        rewrite (enableFullScreen_found _ _ Hwf Hew) in H. exact H. }
      assert (element_by_id WRAPPER_ID st'
              = Some (set_requestFullScreen (fullscreen_method ew) ew)) as Hew'.
      { unfold st', element_by_id.
        assert (forall x v s, body (doc (log_fullscreen x v s)) = body (doc s))
          as -> by (intros x [v|] s; reflexivity).
        apply (assign_by_id WRAPPER_ID st ew);
          [apply keeps_id_requestFullScreen | exact Hew]. }
      rewrite (IH st' _ Hwf' Hew' Hr).
      rewrite fullscreen_method_stored.
      change (nid (set_requestFullScreen (fullscreen_method ew) ew))
        with (nid ew).
      unfold st'. destruct (fullscreen_method ew) as [v|]; simpl.
      * rewrite <- app_assoc. reflexivity.
      * reflexivity.
    + apply IH; assumption.
Qed.

(** X16. A click on the toggle asks the platform for fullscreen once per
    click handler registered: where the wrapper has a request method, a
    toggle that carries [n] click handlers of [init] makes [n] requests on
    the wrapper for one click; where it has none, no request is made. *)
Theorem click_requests_once_per_handler st ew :
  wf st ->
  element_by_id WRAPPER_ID st = Some ew ->
  clicks_from_init (toggle_listeners st) = true ->
  fullscreenRequests (doc (step OClickToggle st))
  = fullscreenRequests (doc st)
      ++ repeat (nid ew)
           (if truthy (fullscreen_method ew)
            then List.length (filter is_click (toggle_listeners st))
            else 0).
Proof.
  intros Hwf Hew Hc. cbn [step]. unfold click_toggle.
  unfold toggle_listeners, element_by_id in Hc |- *.
  destruct (find (has_id TOGGLE_ID) (elems (body (doc st)))) as [b|].
  - apply deliver_clicks; assumption.
  - destruct (truthy (fullscreen_method ew)); simpl;
      rewrite app_nil_r; reflexivity.
Qed.

Lemma click_requests_once_per_handler_witness :
  fullscreenRequests (doc (step OClickToggle (run [OInit; OInit] webkit_state)))
  = fullscreenRequests (doc (run [OInit; OInit] webkit_state))
      ++ repeat (nid (wrapper_of (run [OInit; OInit] webkit_state)))
           (if truthy (fullscreen_method
                         (wrapper_of (run [OInit; OInit] webkit_state)))
            then List.length
                   (filter is_click
                      (toggle_listeners (run [OInit; OInit] webkit_state)))
            else 0).
Proof.
  apply (click_requests_once_per_handler
           (run [OInit; OInit] webkit_state)
           (wrapper_of (run [OInit; OInit] webkit_state))).
  - apply wf_check_sound. vm_compute. reflexivity.
  - vm_compute. reflexivity.
  - vm_compute. reflexivity.
Defined.

(** ** Where the toggle is put *)

(** [insertBefore] in document order: the new subtree comes right before
    the reference element. *)
Lemma elems_insert_before c n (f : forest) :
  elems (insert_before_nid c n f)
  = flat_map (fun e => (if has_nid c e then elems [n] else []) ++ [e])
      (elems f).
Proof.
  induction f as [|e ks f IHk IHf] using forest_ind'; [reflexivity|].
  rewrite insert_before_nid_cons, elems_cons.
  unfold elems at 1. rewrite flat_map_app. fold (elems (if has_nid c e then [n] else [])).
  change (flat_map elems_node (Node e (insert_before_nid c n ks)
                               :: insert_before_nid c n f))
    with (elems (Node e (insert_before_nid c n ks) :: insert_before_nid c n f)).
  rewrite elems_cons, IHk, IHf.
  cbn [flat_map]. rewrite flat_map_app.
  destruct (has_nid c e); simpl; rewrite <- ?app_assoc; reflexivity.
Qed.

Lemma flat_map_other c (pre l : list element) :
  filter (has_nid c) l = [] ->
  flat_map (fun e => (if has_nid c e then pre else []) ++ [e]) l = l.
Proof.
  induction l as [|a l IH]; simpl; [reflexivity|].
  destruct (has_nid c a); [discriminate|]. intros H. simpl.
  rewrite (IH H). reflexivity.
Qed.

Lemma find_split {A} (P : A -> bool) l e :
  find P l = Some e ->
  exists l1 l2, l = l1 ++ e :: l2 /\ find P l1 = None.
Proof.
  induction l as [|a l IH]; simpl; [discriminate|].
  destruct (P a) eqn:Pa.
  - intros H. injection H as <-. exists [], l. split; reflexivity.
  - intros H. destruct (IH H) as (l1 & l2 & -> & Hn).
    exists (a :: l1), l2. split; [reflexivity|]. simpl. rewrite Pa. exact Hn.
Qed.

(** The parent of an element is not changed by an insertion elsewhere. *)
Lemma locate_in_insert_before p x c n (f : forest) :
  cnt (has_nid x) [n] = 0 ->
  option_map fst (locate_in p x (insert_before_nid c n f))
  = option_map fst (locate_in p x f).
Proof.
  intros Hn. revert p.
  induction f as [|e ks f IHk IHf] using forest_ind'; intros p; [reflexivity|].
  rewrite insert_before_nid_cons.
  unfold locate_in at 1. rewrite first_some_app.
  assert (first_some (locate_node p x) (if has_nid c e then [n] else []) = None)
    as ->.
  { destruct (has_nid c e); [|reflexivity].
    apply (locate_in_none p x [n]). exact Hn. }
  fold (locate_in p x (Node e (insert_before_nid c n ks)
                       :: insert_before_nid c n f)).
  rewrite !locate_in_cons.
  destruct (has_nid x e); [reflexivity|].
  specialize (IHk (PElem (nid e))).
  destruct (locate_in (PElem (nid e)) x (insert_before_nid c n ks)) as [r|];
    destruct (locate_in (PElem (nid e)) x ks) as [r'|]; simpl in IHk;
    try discriminate; [exact IHk | apply IHf].
Qed.

(** The element inserted gets the parent of the reference element. *)
Lemma locate_in_inserted p k c w (f : forest) :
  has_nid k w = true ->
  cnt (has_nid k) f = 0 ->
  option_map fst (locate_in p k (insert_before_nid c (Node w []) f))
  = option_map fst (locate_in p c f).
Proof.
  intros Hk. revert p.
  induction f as [|e ks f IHk IHf] using forest_ind'; intros p Hz;
    [reflexivity|].
  rewrite cnt_cons in Hz.
  rewrite insert_before_nid_cons.
  unfold locate_in at 1. rewrite first_some_app.
  rewrite (locate_in_cons p c).
  destruct (has_nid c e).
  - simpl. rewrite Hk. reflexivity.
  - simpl first_some at 1. cbv beta iota.
    fold (locate_in p k (Node e (insert_before_nid c (Node w []) ks)
                         :: insert_before_nid c (Node w []) f)).
    rewrite locate_in_cons.
    assert (has_nid k e = false) as ->.
    { unfold one in Hz. destruct (has_nid k e); [lia | reflexivity]. }
    specialize (IHk (PElem (nid e)) ltac:(lia)).
    destruct (locate_in (PElem (nid e)) k
                (insert_before_nid c (Node w []) ks)) as [r|];
      destruct (locate_in (PElem (nid e)) c ks) as [r'|]; simpl in IHk;
      try discriminate; [exact IHk | apply IHf; lia].
Qed.

Lemma parent_of_located x y f g p st :
  option_map fst (locate x g) = option_map fst (locate y f) ->
  option_map fst (locate y f) = Some p ->
  body (doc st) = g ->
  parentNode x st = Ok p st.
Proof.
  intros H Hp Hb. unfold parentNode. rewrite Hb. rewrite <- H in Hp.
  destruct (locate x g) as [[q s]|]; [|discriminate].
  injection Hp as ->. reflexivity.
Qed.

(** X17. On a page without a toggle, [getFullScreenToggle] creates a
    button with the id of the toggle and the label "Fullscreen" and puts
    it, followed by a new [br], right before the canvas: in document order
    the three follow each other, and the toggle and the canvas have the
    same parent. *)
Theorem getFullScreenToggle_before_canvas st :
  wf st ->
  element_by_id TOGGLE_ID st = None ->
  exists b st' l1 eb ebr ec l2 p,
    getFullScreenToggle st = Ok b st'
    /\ elems (body (doc st')) = l1 ++ eb :: ebr :: ec :: l2
    /\ nid eb = b
    /\ tagName eb = "button"
    /\ elem_id eb = TOGGLE_ID
    /\ innerHTML eb = "Fullscreen"
    /\ tagName ebr = "br"
    /\ element_by_id CANVAS_ID st' = Some ec
    /\ parentNode b st' = Ok p st'
    /\ parentNode (nid ec) st' = Ok p st'.
Proof.
  intros Hwf E.
  destruct (getFullScreenToggle_created st Hwf E)
    as (st' & kb & E' & _ & c & Ec & Hc & Hk & Hckb & Hkkb & Hbody).
  set (k := next_nid (doc st)) in *.
  set (st0 := set_doc (set_next_nid (S k) (doc st)) st) in *.
  set (w := set_elem_id "gjs-fullscreen-toggle"
              (set_innerHTML "Fullscreen"
                 (new_element k "button" (proto (doc st))))) in *.
  set (br := new_element kb "br" (proto (doc st))) in *.
  destruct (getCanvas_focused st0)
    as (c' & st1 & E1 & _ & _ & _ & (ec & Hec & Hnc) & _).
  rewrite E1 in Ec, Hc, Hk, Hbody. cbn [final] in Ec, Hc, Hk, Hbody.
  injection Ec as ->.
  destruct (find_split _ _ _ Hec) as (l1 & l2 & Hsplit & Hl1).
  assert (filter (has_nid c) l1 = [] /\ filter (has_nid c) l2 = [])
    as [Hf1 Hf2].
  { unfold cnt in Hc. rewrite Hsplit, filter_app in Hc. simpl in Hc.
    unfold has_nid at 2 in Hc. rewrite Hnc, Nat.eqb_refl in Hc.
    rewrite length_app in Hc. simpl in Hc.
    split; apply length_zero_iff_nil; lia. }
  assert (has_nid c ec = true) as Hcec by (apply Nat.eqb_eq; exact Hnc).
  assert (has_nid c w = false) as Hcw.
  { unfold has_nid. change (nid w) with k.
    destruct (Nat.eqb_spec k c) as [Hkc | _]; [|reflexivity].
    rewrite <- Hkc in Hc. lia. }
  assert (has_nid c br = false) as Hcbr.
  { unfold has_nid. change (nid br) with kb.
    destruct (Nat.eqb_spec kb c); [lia | reflexivity]. }
  assert (elems (body (doc st')) = l1 ++ w :: br :: ec :: l2) as Hel.
  { rewrite Hbody, !elems_insert_before, Hsplit.
    rewrite flat_map_app. cbn [flat_map]. rewrite Hcec.
    rewrite (flat_map_other c _ l1 Hf1), (flat_map_other c _ l2 Hf2).
    change (elems [Node w []]) with [w]. cbn [app].
    rewrite flat_map_app. cbn [flat_map]. rewrite Hcec, Hcw.
    rewrite (flat_map_other c _ l1 Hf1), (flat_map_other c _ l2 Hf2).
    reflexivity. }
  destruct (locate_present c (body (doc st1)) ltac:(lia)) as (p & sub & Hloc).
  exists k, st', l1, w, br, ec, l2, p.
  split; [exact E'|]. split; [exact Hel|].
  split; [reflexivity|]. split; [reflexivity|]. split; [reflexivity|].
  split; [reflexivity|]. split; [reflexivity|]. split.
  { unfold element_by_id. rewrite Hel, (find_app_none _ _ _ Hl1).
    apply find_some in Hec. destruct Hec as [_ Hid].
    simpl. rewrite Hid. reflexivity. }
  split.
  - apply (parent_of_located k c (body (doc st1))
             (insert_before_nid c (Node br [])
                (insert_before_nid c (Node w []) (body (doc st1)))) p st');
      [| |exact Hbody].
    + unfold locate.
      rewrite locate_in_insert_before.
      * apply locate_in_inserted; [apply Nat.eqb_refl | exact Hk].
      * rewrite cnt_single, cnt_nil, one_has_nid. change (nid br) with kb.
        destruct (Nat.eqb_spec kb k); [lia | reflexivity].
    + unfold locate.
      assert (option_map fst (locate_in PBody c (body (doc st1))) = Some p) as H
        by (unfold locate in Hloc; rewrite Hloc; reflexivity).
      exact H.
  - rewrite Hnc.
    apply (parent_of_located c c (body (doc st1))
             (insert_before_nid c (Node br [])
                (insert_before_nid c (Node w []) (body (doc st1)))) p st');
      [| |exact Hbody].
    + unfold locate. rewrite !locate_in_insert_before; [reflexivity| |].
      * rewrite cnt_single, cnt_nil. unfold one. rewrite Hcw. reflexivity.
      * rewrite cnt_single, cnt_nil. unfold one. rewrite Hcbr. reflexivity.
    + rewrite Hloc. reflexivity.
Qed.

Lemma getFullScreenToggle_before_canvas_witness :
  exists b st' l1 eb ebr ec l2 p,
    getFullScreenToggle loader_state = Ok b st'
    /\ elems (body (doc st')) = l1 ++ eb :: ebr :: ec :: l2
    /\ nid eb = b
    /\ tagName eb = "button"
    /\ elem_id eb = TOGGLE_ID
    /\ innerHTML eb = "Fullscreen"
    /\ tagName ebr = "br"
    /\ element_by_id CANVAS_ID st' = Some ec
    /\ parentNode b st' = Ok p st'
    /\ parentNode (nid ec) st' = Ok p st'.
Proof.
  apply (getFullScreenToggle_before_canvas loader_state).
  - apply wf_check_sound. vm_compute. reflexivity.
  - reflexivity.
Defined.
